(** * Dynamo-Query / Cosmox: the query compiler and the entity facade

    A shallow embedding of the two data-access services of the repository:

    - the SQL-like document store service ([Cosmos], the query builder
      [constructFieldSelection], [createFilter], [buildWhereClause],
      [buildQueryFindMany], [buildQueryFindOne] and the [BaseModel] facade);
    - the key-value store service ([Dynamo], the [BaseModel] facade whose
      [findMany] assembles a scan filter with attribute placeholders).

    JavaScript objects are association lists in key order ([Object.keys],
    [Object.entries] and the spread operator are order sensitive; the
    reordering of integer-like keys is not modelled), strings are sequences
    of code units below 256, and numbers that are rendered into query text
    are integers.

    The arguments have their TypeScript types: a payload is an object, a
    where clause maps fields to condition objects, an id is a string. The
    guards that those types make vacuous ([isObject(data)], the null checks
    on [args]) have no counterpart here. *)

From Stdlib Require Import String Ascii List ZArith NArith Lia Bool QArith DecimalString.
From Stdlib Require DecimalNat DecimalFacts DecimalPos.
Import ListNotations.
Local Open Scope string_scope.

(** ** JavaScript values *)

#[local] Set Warnings "-register-all".
Inductive value : Type :=
| VUndefined
| VNull
| VBool (b : bool)
| VNum (n : Z)
| VStr (s : string)
| VArr (items : list value).

(** A JavaScript number as [take] can carry it: a finite value (every finite
    double is a rational), NaN, or an infinity. *)
Inductive number : Type :=
| Finite (q : Q)
| NaN
| Infinity (negative : bool).

(** An object with values of type [A], in key order. *)
Definition dict (A : Type) : Type := list (string * A).
Definition obj : Type := dict value.

(** [String(v)], which is also what a template literal does with [v]. *)
Fixpoint toString (v : value) : string :=
  match v with
  | VUndefined => "undefined"
  | VNull => "null"
  | VBool true => "true"
  | VBool false => "false"
  | VNum n => NilZero.string_of_int (Z.to_int n)
  | VStr s => s
  | VArr items =>
      String.concat ","
        (map (fun x => match x with
                       | VUndefined | VNull => EmptyString
                       | _ => toString x
                       end) items)
  end.

(** Truthiness, as [if (v)], [v || w] and [v ? a : b] test it. *)
Definition truthy (v : value) : bool :=
  match v with
  | VUndefined | VNull => false
  | VBool b => b
  | VNum n => negb (n =? 0)%Z
  | VStr s => negb (s =? EmptyString)
  | VArr _ => true
  end.

Definition number_truthy (n : number) : bool :=
  match n with
  | Finite q => negb (Qeq_bool q 0)
  | NaN => false
  | Infinity _ => true
  end.

(** ** Objects: lookup, assignment, spread *)

Fixpoint obj_get {A : Type} (k : string) (o : dict A) : option A :=
  match o with
  | [] => None
  | (k', v) :: rest => if k' =? k then Some v else obj_get k rest
  end.

(** [o[k] = v]: an existing key keeps its position, a new key goes last. *)
Fixpoint obj_set {A : Type} (k : string) (v : A) (o : dict A) : dict A :=
  match o with
  | [] => [(k, v)]
  | (k', v') :: rest =>
      if k' =? k then (k', v) :: rest else (k', v') :: obj_set k v rest
  end.

(** [{...o, ...src}] *)
Definition spread {A : Type} (o src : dict A) : dict A :=
  fold_left (fun acc kv => obj_set (fst kv) (snd kv) acc) src o.

Definition keys {A : Type} (o : dict A) : list string := map fst o.

(** [o[k]] as an expression: a missing property reads as [undefined]. *)
Definition prop (k : string) (o : obj) : value :=
  match obj_get k o with
  | Some v => v
  | None => VUndefined
  end.

(** ** src/utils/index.ts *)

Definition isNonEmptyString (s : string) : bool := negb (s =? EmptyString).

Definition isBoolean (v : value) : bool :=
  match v with VBool _ => true | _ => false end.

Definition isNumber (v : value) : bool :=
  match v with VNum _ => true | _ => false end.

Definition isUndefined (v : value) : bool :=
  match v with VUndefined => true | _ => false end.

Definition isNull (v : value) : bool :=
  match v with VNull => true | _ => false end.

Definition objectIsEmpty {A : Type} (o : dict A) : bool :=
  (length (keys o) =? 0)%nat.

Definition isEmptyArray {A : Type} (l : list A) : bool :=
  (length l <=? 0)%nat.

(** ** Filters (types/filters): the keys of [TFilter] *)

Inductive filterKey : Type :=
| op_equals | op_not | op_contains | op_startsWith | op_endsWith
| op_in | op_notIn | op_lt | op_lte | op_gt | op_gte | op_mode.

Definition filterKey_eqb (a b : filterKey) : bool :=
  match a, b with
  | op_equals, op_equals | op_not, op_not | op_contains, op_contains
  | op_startsWith, op_startsWith | op_endsWith, op_endsWith
  | op_in, op_in | op_notIn, op_notIn | op_lt, op_lt | op_lte, op_lte
  | op_gt, op_gt | op_gte, op_gte | op_mode, op_mode => true
  | _, _ => false
  end.

(** One field's FilterCondition, in key order. *)
Definition filter_t : Type := list (filterKey * value).

(** The where clause: field name to FilterCondition, in key order. *)
Definition where_t : Type := list (string * filter_t).

Fixpoint filter_get (k : filterKey) (f : filter_t) : value :=
  match f with
  | [] => VUndefined
  | (k', v) :: rest => if filterKey_eqb k' k then v else filter_get k rest
  end.

(** ** Failures

    Every failure of the services is a thrown [Error]; the constructors name
    the throw sites. *)

Inductive error : Type :=
| InvalidTake               (* Please make sure "take" is a positive integer *)
| InvalidId                 (* IdSchema rejected the id *)
| PayloadEmpty              (* Please provide an non-empty object as payload *)
| InvalidCondition (field : string)
                            (* Invalid condition for field ... Expected a non-empty object *)
| UndefinedOperand (operator : filterKey) (field : string)
                            (* Value for operator ... is undefined *)
| UnsupportedValueType      (* Unsupported value type: ... *)
| UnsupportedOperator (operator : filterKey)
                            (* Unsupported operator: ... *)
| TypeError                 (* the runtime: ... is not a function *)
| SyntaxError               (* JSON.parse rejected its input *)
| RetrieveFailed            (* Failed to retrieve item(s) from db *)
| NotAList                  (* Retrieved data from db, but received ... instead of a list *)
| NotFound                  (* We cannot find anything using the ID you provided *)
| UpdateTargetMissing       (* The item you're trying to update cannot be found *)
| CreateFailed              (* Failed to create item in db *)
| UpdateFailed              (* Failed to update item *)
| EncodingRefused.          (* marshall: the attribute encoding refused a value *)

Inductive result (A : Type) : Type :=
| Ok (a : A)
| Throw (e : error).
Arguments Ok {A} a.
Arguments Throw {A} e.

Definition rbind {A B : Type} (r : result A) (k : A -> result B) : result B :=
  match r with
  | Ok a => k a
  | Throw e => Throw e
  end.

Declare Scope result_scope.
Delimit Scope result_scope with result.
Notation "x <- r ;; k" := (rbind r (fun x => k))
  (at level 61, r at next level, right associativity) : result_scope.

(** [l.map(f)] when [f] may throw: the first throw, in order, ends the map. *)
Fixpoint mapM {A B : Type} (f : A -> result B) (l : list A) : result (list B) :=
  match l with
  | [] => Ok []
  | a :: rest =>
      (b <- f a ;; bs <- mapM f rest ;; Ok (b :: bs))%result
  end.

(** ** The SQL-like document store service *)

Module Cosmos.

(** Determines which columns to retrieve. [args] is the optional [select]
    map; a field is selected when its value is strictly [true]. *)
Definition constructFieldSelection (args : option obj) : string :=
  match args with
  | None => "*"
  | Some args =>
      if objectIsEmpty args then "*"
      else
        let fieldsSelected :=
          filter (fun key => match prop key args with
                             | VBool true => true
                             | _ => false
                             end) (keys args) in
        if isEmptyArray fieldsSelected then "*"
        else String.concat ", " (map (fun key => "c." ++ key) fieldsSelected)
  end.

(** The literal list of [in] and [notIn]: [value?.map(...).join(', ')] inside
    a template literal. A nullish operand short-circuits the optional chain
    to [undefined]; an operand without a [map] method throws. *)
Definition renderList (value : value) : result string :=
  match value with
  | VArr items =>
      Ok (String.concat ", "
            (map (fun v => if isBoolean v || isNumber v then toString v
                           else "'" ++ toString v ++ "'") items))
  | VUndefined | VNull => Ok "undefined"
  | VBool _ | VNum _ | VStr _ => Throw TypeError
  end.

(** A comparison of the field with a literal: bare for booleans and numbers,
    quoted otherwise. *)
Definition compare (field sym : string) (value : value) : string :=
  if isBoolean value || isNumber value
  then "c." ++ field ++ " " ++ sym ++ " " ++ toString value
  else "c." ++ field ++ " " ++ sym ++ " '" ++ toString value ++ "'".

Definition insensitive (mode : value) : bool :=
  match mode with
  | VStr m => m =? "INSENSITIVE"
  | _ => false
  end.

(** Given a condition, determines the SQL filtering query. The key [mode]
    is none of the operators and falls through to the final [return '']. *)
Definition createFilter (field : string) (filterKey : filterKey)
    (mode value : value) : result string :=
  match filterKey with
  | op_contains =>
      if insensitive mode
      then Ok ("CONTAINS(LOWER(c." ++ field ++ "), LOWER('" ++ toString value ++ "'))")
      else Ok ("CONTAINS(c." ++ field ++ ", '" ++ toString value ++ "')")
  | op_startsWith =>
      if insensitive mode
      then Ok ("STARTSWITH(LOWER(c." ++ field ++ "), LOWER('" ++ toString value ++ "'))")
      else Ok ("STARTSWITH(c." ++ field ++ ", '" ++ toString value ++ "')")
  | op_endsWith =>
      if insensitive mode
      then Ok ("LOWER(c." ++ field ++ ") LIKE '%LOWER('" ++ toString value ++ "')'")
      else Ok ("c." ++ field ++ " LIKE '%" ++ toString value ++ "'")
  | op_equals => Ok (compare field "=" value)
  | op_not => Ok (compare field "!=" value)
  | op_gt => Ok (compare field ">" value)
  | op_gte => Ok (compare field ">=" value)
  | op_lt => Ok (compare field "<" value)
  | op_lte => Ok (compare field "<=" value)
  | op_in =>
      (l <- renderList value ;; Ok ("c." ++ field ++ " IN (" ++ l ++ ")"))%result
  | op_notIn =>
      (l <- renderList value ;; Ok ("c." ++ field ++ " NOT IN (" ++ l ++ ")"))%result
  | op_mode => Ok EmptyString
  end.

(** Constructs the "where" clause section of the SQL query. *)
Definition buildWhereClause (args : option where_t) : result string :=
  match args with
  | None => Ok EmptyString
  | Some args =>
      if objectIsEmpty args then Ok EmptyString
      else
        (perField <-
           mapM (fun '(field, filters) =>
                   let mode :=
                     if truthy (filter_get op_mode filters)
                     then filter_get op_mode filters
                     else VStr "SENSITIVE" in
                   mapM (fun '(filterKey, value) =>
                           createFilter field filterKey mode value) filters)
                args ;;
         let conditions := filter isNonEmptyString (concat perField) in
         if isEmptyArray conditions then Ok EmptyString
         else Ok (String.concat " " ["WHERE"; String.concat " AND " conditions]))%result
  end.

Definition constructOrderByClause (args : option (dict string)) : string :=
  match args with
  | None => EmptyString
  | Some args =>
      if objectIsEmpty args then EmptyString
      else "ORDER BY " ++
           String.concat ", "
             (map (fun '(field, direction) => "c." ++ field ++ " " ++ direction) args)
  end.

Record FindManyArgs : Type := {
  where_ : option where_t;
  take : option number;
  nextCursor : option string;
  select : option obj;
  orderBy : option (dict string)
}.

Record FindOneArgs : Type := {
  id : string;
  selectOne : option obj
}.

Definition buildQueryFindMany (dto : FindManyArgs) : result string :=
  let fieldsSelected := constructFieldSelection (select dto) in
  (whereClause <- buildWhereClause (where_ dto) ;;
   let orderByClause := constructOrderByClause (orderBy dto) in
   let clauses :=
     filter isNonEmptyString
       ["SELECT"; fieldsSelected; "FROM c"; whereClause; orderByClause] in
   Ok (String.concat " " clauses))%result.

Definition buildQueryFindOne (dto : FindOneArgs) : string :=
  let fieldsSelected := constructFieldSelection (selectOne dto) in
  let whereClause := "WHERE c.id = '" ++ id dto ++ "'" in
  let clauses :=
    filter isNonEmptyString ["SELECT"; fieldsSelected; "FROM c"; whereClause] in
  String.concat " " clauses.

End Cosmos.

(** ** The identifier rule: [IdSchema]

    [z.string().min(1)] refined by the regular expression [/^\S+$/]. The
    white space of [\s] among the code units below 256 is TAB, LF, VT, FF,
    CR, SPACE and NBSP. *)

Definition is_space (c : ascii) : bool :=
  let n := nat_of_ascii c in
  ((9 <=? n) && (n <=? 13) || (n =? 32) || (n =? 160))%nat.

Fixpoint all_chars (p : ascii -> bool) (s : string) : bool :=
  match s with
  | EmptyString => true
  | String c rest => p c && all_chars p rest
  end.

(** [/^\S+$/.test(value)] *)
Definition nonspace (value : string) : bool :=
  match value with
  | EmptyString => false
  | String _ _ => all_chars (fun c => negb (is_space c)) value
  end.

Definition IdSchema (value : string) : bool :=
  (1 <=? String.length value)%nat && nonspace value.

(** ** [crypto.randomUUID]: a version 4 UUID rendered from random bits *)

Definition hex_digit (n : N) : ascii :=
  match (n mod 16)%N with
  | 0 => "0" | 1 => "1" | 2 => "2" | 3 => "3" | 4 => "4" | 5 => "5"
  | 6 => "6" | 7 => "7" | 8 => "8" | 9 => "9" | 10 => "a" | 11 => "b"
  | 12 => "c" | 13 => "d" | 14 => "e" | _ => "f"
  end%N%char.

(** The [k] low hexadecimal digits of [n], most significant first. *)
Fixpoint hex (k : nat) (n : N) : string :=
  match k with
  | O => EmptyString
  | S k' => hex k' (n / 16)%N ++ String (hex_digit n) EmptyString
  end.

Definition uuid (bits : N) : string :=
  hex 8 bits ++ "-" ++
  hex 4 (bits / 2 ^ 32)%N ++ "-" ++
  "4" ++ hex 3 (bits / 2 ^ 48)%N ++ "-" ++
  String (hex_digit (8 + (bits / 2 ^ 60) mod 4)%N) (hex 3 (bits / 2 ^ 62)%N) ++ "-" ++
  hex 12 (bits / 2 ^ 74)%N.

(** ** JSON, as the pagination cursor uses it

    The values are the JSON values, with the safe integers as numbers, and
    the byte arrays that a pagination key holds for a binary attribute.
    [parse] answers [None] on a text that [JSON.parse] rejects; a number
    literal with a fraction or an exponent, and an escape of a code unit
    above 255, are outside the model, and [parse] answers [None] on them
    as well. *)

Module JSON.

(** The double quote. *)
Definition dq : ascii := ascii_of_N 34.

#[local] Set Warnings "-register-all".
(** The values that a pagination key holds and that a cursor decodes to:
    the JSON values, the numbers being the integers, and byte arrays
    ([Uint8Array], the value of a binary attribute), which are no JSON
    values but which [JSON.stringify] accepts. *)
Inductive json : Type :=
| JNull
| JBool (b : bool)
| JNum (n : Z)
| JStr (s : string)
| JArr (items : list json)
| JObj (members : list (string * json))
| JBytes (bytes : list N).

(** [QuoteJSONString]: the two-character escapes, [\u00xx] for the other
    control characters, everything else as it is. *)
Definition escape_char (c : ascii) : string :=
  let n := N_of_ascii c in
  if (n =? 8)%N then "\b"
  else if (n =? 9)%N then "\t"
  else if (n =? 10)%N then "\n"
  else if (n =? 12)%N then "\f"
  else if (n =? 13)%N then "\r"
  else if (n =? 34)%N then String (ascii_of_N 92) (String c EmptyString)
  else if (n =? 92)%N then "\\"
  else if (n <? 32)%N then "\u00" ++ hex 2 n
  else String c EmptyString.

Fixpoint escape (s : string) : string :=
  match s with
  | EmptyString => EmptyString
  | String c rest => escape_char c ++ escape rest
  end.

Definition quote (s : string) : string :=
  String dq (escape s ++ String dq EmptyString).

(** The decimal text of an integer, as [Number.prototype.toString] writes
    the safe integers. *)
Definition number_text (n : Z) : string := NilZero.string_of_int (Z.to_int n).

(** The own enumerable properties of a byte array: its indices, each with
    its byte. *)
Fixpoint indexed (index : nat) (bytes : list N) : list (string * Z) :=
  match bytes with
  | [] => []
  | b :: rest =>
      (NilZero.string_of_uint (Nat.to_uint index), Z.of_N b) :: indexed (S index) rest
  end.

(** [JSON.stringify]: no white space, members in key order; a byte array
    has no [toJSON] and is written as the object of its indices. *)
Fixpoint stringify (j : json) : string :=
  match j with
  | JNull => "null"
  | JBool b => if b then "true" else "false"
  | JNum n => number_text n
  | JStr s => quote s
  | JArr items => "[" ++ String.concat "," (map stringify items) ++ "]"
  | JObj members =>
      "{" ++ String.concat ","
               (map (fun kv => let '(k, v) := kv in quote k ++ ":" ++ stringify v)
                    members) ++ "}"
  | JBytes bytes =>
      "{" ++ String.concat ","
               (map (fun kv : string * Z => quote (fst kv) ++ ":" ++ number_text (snd kv))
                    (indexed 0 bytes)) ++ "}"
  end.

Definition is_ws (c : ascii) : bool :=
  let n := N_of_ascii c in
  ((n =? 9) || (n =? 10) || (n =? 13) || (n =? 32))%N.

Fixpoint skip_ws (s : string) : string :=
  match s with
  | EmptyString => EmptyString
  | String c rest => if is_ws c then skip_ws rest else s
  end.

Definition hex_value (c : ascii) : option N :=
  let n := N_of_ascii c in
  if ((48 <=? n) && (n <=? 57))%N then Some (n - 48)%N
  else if ((97 <=? n) && (n <=? 102))%N then Some (n - 87)%N
  else if ((65 <=? n) && (n <=? 70))%N then Some (n - 55)%N
  else None.

(** The code unit of [\uXXXX], when it is below 256. *)
Definition unicode_escape (h1 h2 h3 h4 : ascii) : option ascii :=
  match hex_value h1, hex_value h2, hex_value h3, hex_value h4 with
  | Some a, Some b, Some c, Some d =>
      if ((a =? 0) && (b =? 0))%N then Some (ascii_of_N (16 * c + d)) else None
  | _, _, _, _ => None
  end.

Definition simple_escape (e : ascii) : option ascii :=
  let n := N_of_ascii e in
  if (n =? 34)%N then Some e                       (* quote *)
  else if (n =? 92)%N then Some e                  (* backslash *)
  else if (n =? 47)%N then Some e                  (* slash *)
  else if (n =? 98)%N then Some (ascii_of_N 8)     (* b *)
  else if (n =? 102)%N then Some (ascii_of_N 12)   (* f *)
  else if (n =? 110)%N then Some (ascii_of_N 10)   (* n *)
  else if (n =? 114)%N then Some (ascii_of_N 13)   (* r *)
  else if (n =? 116)%N then Some (ascii_of_N 9)    (* t *)
  else None.

Definition cons_char (c : ascii) (r : option (string * string)) :
    option (string * string) :=
  match r with
  | Some (content, rest) => Some (String c content, rest)
  | None => None
  end.

(** The characters of a string literal after its opening quote: the content
    and the text after the closing quote. *)
Fixpoint parse_chars (s : string) : option (string * string) :=
  match s with
  | EmptyString => None
  | String c rest =>
      if (N_of_ascii c =? 34)%N then Some (EmptyString, rest)
      else if (N_of_ascii c =? 92)%N then
        match rest with
        | EmptyString => None
        | String e rest1 =>
            if (N_of_ascii e =? 117)%N then
              match rest1 with
              | String h1 (String h2 (String h3 (String h4 rest2))) =>
                  match unicode_escape h1 h2 h3 h4 with
                  | Some u => cons_char u (parse_chars rest2)
                  | None => None
                  end
              | _ => None
              end
            else
              match simple_escape e with
              | Some u => cons_char u (parse_chars rest1)
              | None => None
              end
        end
      else if (N_of_ascii c <? 32)%N then None
      else cons_char c (parse_chars rest)
  end.

(** The object built by defining the parsed members in order: a repeated
    key keeps its first position and takes the last value. *)
Definition define_all (raw : list (string * json)) : list (string * json) :=
  spread [] raw.

Definition is_digit (c : ascii) : bool :=
  let n := N_of_ascii c in ((48 <=? n) && (n <=? 57))%N.

(** The digits at the head of a text, and what follows them. *)
Fixpoint span_digits (s : string) : string * string :=
  match s with
  | String c rest =>
      if is_digit c then let (digits, tail) := span_digits rest in (String c digits, tail)
      else (EmptyString, s)
  | EmptyString => (EmptyString, EmptyString)
  end.

(** What follows [pre] in a text that starts with it. *)
Fixpoint after (pre s : string) : option string :=
  match pre with
  | EmptyString => Some s
  | String p pre' =>
      match s with
      | String c rest => if (c =? p)%char then after pre' rest else None
      | EmptyString => None
      end
  end.

(** A fraction or an exponent follows. *)
Definition continues (s : string) : bool :=
  match s with
  | String c _ =>
      let n := N_of_ascii c in ((n =? 46) || (n =? 101) || (n =? 69))%N
  | EmptyString => false
  end.

(** A number literal: an integer, with no leading zero. A literal with a
    fraction or an exponent is outside the numbers of this model and reads
    as no value. *)
Definition parse_number (s : string) : option (json * string) :=
  let (negative, body) :=
    match s with
    | String c rest => if (N_of_ascii c =? 45)%N then (true, rest) else (false, s)
    | EmptyString => (false, s)
    end in
  let (digits, tail) := span_digits body in
  match digits with
  | EmptyString => None
  | String d more =>
      if (N_of_ascii d =? 48)%N && negb (more =? EmptyString) then None
      else if continues tail then None
      else
        match NilZero.uint_of_string digits with
        | Some u => Some (JNum (if negative then - Z.of_uint u else Z.of_uint u)%Z, tail)
        | None => None
        end
  end.

Definition parse_keyword (s : string) : option (json * string) :=
  match after "true" s with
  | Some rest => Some (JBool true, rest)
  | None =>
      match after "false" s with
      | Some rest => Some (JBool false, rest)
      | None =>
          match after "null" s with
          | Some rest => Some (JNull, rest)
          | None => None
          end
      end
  end.

Fixpoint parse_value (fuel : nat) (s : string) : option (json * string) :=
  match fuel with
  | O => None
  | S fuel =>
      match skip_ws s with
      | String c rest =>
          if (N_of_ascii c =? 34)%N then
            match parse_chars rest with
            | Some (str, rest1) => Some (JStr str, rest1)
            | None => None
            end
          else if (N_of_ascii c =? 123)%N then
            match skip_ws rest with
            | String d rest1 =>
                if (N_of_ascii d =? 125)%N then Some (JObj [], rest1)
                else
                  match parse_members fuel rest with
                  | Some (raw, rest2) => Some (JObj (define_all raw), rest2)
                  | None => None
                  end
            | EmptyString => None
            end
          else if (N_of_ascii c =? 91)%N then
            match skip_ws rest with
            | String d rest1 =>
                if (N_of_ascii d =? 93)%N then Some (JArr [], rest1)
                else
                  match parse_items fuel rest with
                  | Some (items, rest2) => Some (JArr items, rest2)
                  | None => None
                  end
            | EmptyString => None
            end
          else if is_digit c || (N_of_ascii c =? 45)%N then parse_number (String c rest)
          else parse_keyword (String c rest)
      | EmptyString => None
      end
  end
with parse_members (fuel : nat) (s : string) :
    option (list (string * json) * string) :=
  match fuel with
  | O => None
  | S fuel =>
      match skip_ws s with
      | String c rest =>
          if (N_of_ascii c =? 34)%N then
            match parse_chars rest with
            | Some (k, rest1) =>
                match skip_ws rest1 with
                | String colon rest2 =>
                    if (N_of_ascii colon =? 58)%N then
                      match parse_value fuel rest2 with
                      | Some (v, rest3) =>
                          match skip_ws rest3 with
                          | String sep rest4 =>
                              if (N_of_ascii sep =? 44)%N then
                                match parse_members fuel rest4 with
                                | Some (more, rest5) => Some ((k, v) :: more, rest5)
                                | None => None
                                end
                              else if (N_of_ascii sep =? 125)%N then
                                Some ([(k, v)], rest4)
                              else None
                          | EmptyString => None
                          end
                      | None => None
                      end
                    else None
                | EmptyString => None
                end
            | None => None
            end
          else None
      | EmptyString => None
      end
  end
with parse_items (fuel : nat) (s : string) : option (list json * string) :=
  match fuel with
  | O => None
  | S fuel =>
      match parse_value fuel s with
      | Some (v, rest1) =>
          match skip_ws rest1 with
          | String sep rest2 =>
              if (N_of_ascii sep =? 44)%N then
                match parse_items fuel rest2 with
                | Some (more, rest3) => Some (v :: more, rest3)
                | None => None
                end
              else if (N_of_ascii sep =? 93)%N then Some ([v], rest2)
              else None
          | EmptyString => None
          end
      | None => None
      end
  end.

(** [JSON.parse]: one value, white space around it, nothing else. *)
Definition parse (text : string) : option json :=
  match parse_value (S (String.length text)) text with
  | Some (j, rest) =>
      match skip_ws rest with
      | EmptyString => Some j
      | String _ _ => None
      end
  | None => None
  end.

(** No repeated key in a list of keys. *)
Fixpoint nodup_keys (ks : list string) : bool :=
  match ks with
  | [] => true
  | k :: rest => negb (existsb (String.eqb k) rest) && nodup_keys rest
  end.

(** A JSON value: no byte array at any depth, numbers among the safe
    integers, and no object with a repeated key, which no JavaScript object
    has. *)
Fixpoint wf (j : json) : bool :=
  match j with
  | JNull | JBool _ | JStr _ => true
  | JNum n => ((- 9007199254740991 <=? n) && (n <=? 9007199254740991))%Z
  | JArr items => forallb wf items
  | JObj members =>
      nodup_keys (keys members)
      && forallb (fun kv => let '(_, v) := kv in wf v) members
  | JBytes _ => false
  end.

End JSON.

(** ** Effects: a world threaded through the facade, with thrown errors *)

Definition M (W A : Type) : Type := W -> result A * W.

Definition ret {W A : Type} (a : A) : M W A := fun w => (Ok a, w).

Definition throw {W A : Type} (e : error) : M W A := fun w => (Throw e, w).

Definition bind {W A B : Type} (m : M W A) (k : A -> M W B) : M W B :=
  fun w => match m w with
           | (Ok a, w') => k a w'
           | (Throw e, w') => (Throw e, w')
           end.

Definition lift {W A : Type} (r : result A) : M W A := fun w => (r, w).

(** [fromPromise(m, ...)]: the outcome of [m] as a value. *)
Definition fromPromise {W A : Type} (m : M W A) : M W (result A) :=
  fun w => let (r, w') := m w in (Ok r, w').

Declare Scope facade_scope.
Delimit Scope facade_scope with facade.
Notation "x <- m ;; k" := (bind m (fun x => k))
  (at level 61, m at next level, right associativity) : facade_scope.

(** [z.number().int().min(1).safeParse(take).success] *)
Definition positive_integer (n : number) : bool :=
  match n with
  | Finite q => (Zpos (Qden (Qred q)) =? 1)%Z && Qle_bool 1 q
  | NaN | Infinity _ => false
  end.

Definition hundred : number := Finite 100.

(** ** [marshall]: the attribute encoding of the store's client

    The key-value service hands every item and every set of expression
    values to [marshall] before it builds a command. The encoding throws on
    [undefined] and on a number outside the safe integers, at any depth;
    the encoded form itself is left out: items travel as they are. *)

Module Marshalling.

(** A value that the encoding accepts. *)
Fixpoint marshallable (v : value) : bool :=
  match v with
  | VUndefined => false
  | VNull | VBool _ | VStr _ => true
  | VNum n => ((- 9007199254740991 <=? n) && (n <=? 9007199254740991))%Z
  | VArr items => forallb marshallable items
  end.

(** An object whose values are all accepted. *)
Definition accepted (data : obj) : bool :=
  forallb (fun kv : string * value => marshallable (snd kv)) data.

End Marshalling.

(** ** The key-value store service *)

Module Dynamo.
Import JSON.

Inductive AttributeValue : Type :=
| AttrS (v : value)
| AttrN (s : string)
| AttrBOOL (b : bool).

Record AutoFields : Type := { auto_id : bool; auto_timestamp : bool }.

Definition defaultFields : AutoFields := {| auto_id := true; auto_timestamp := true |}.

(** [options.fields]: absent, a boolean, or a partial [AutoFields]. *)
Inductive FieldsOption : Type :=
| FieldsAbsent
| FieldsBool (b : bool)
| FieldsObject (id timestamp : option bool).

Record ModelOptions : Type := {
  tableName : string;
  partitionKey : string;
  sortKey : option string;
  fields : FieldsOption
}.

(** [this.fields], as the constructor sets it. *)
Definition this_fields (options : ModelOptions) : AutoFields :=
  match fields options with
  | FieldsAbsent => defaultFields
  | FieldsBool b => {| auto_id := b; auto_timestamp := b |}
  | FieldsObject i t =>
      {| auto_id := match i with Some b => b | None => auto_id defaultFields end;
         auto_timestamp := match t with Some b => b | None => auto_timestamp defaultFields end |}
  end.

(** [this.sortKey] when it is truthy. *)
Definition this_sortKey (options : ModelOptions) : option string :=
  match sortKey options with
  | Some sk => if isNonEmptyString sk then Some sk else None
  | None => None
  end.

Record FindManyArgs : Type := {
  where_ : option where_t;
  take : option number;
  nextCursor : option string;
  select : option obj;
  orderBy : option (dict string)
}.

Record FindManyResponse : Type := {
  items : list obj;
  nextCursor_ : option string
}.

Record ScanCommandInput : Type := {
  TableName : string;
  Limit : number;
  ExclusiveStartKey : option json;
  FilterExpression : option string;
  ExpressionAttributeNames : option (dict string);
  ExpressionAttributeValues : option (dict AttributeValue);
  ProjectionExpression : option string
}.

Record ScanCommandOutput : Type := {
  Items : option (list obj);
  LastEvaluatedKey : option (list (string * json))
}.

Inductive command : Type :=
| ScanCommand (input : ScanCommandInput)
| PutItemCommand (table : string) (item : obj).

Inductive reply : Type :=
| ScanReply (output : ScanCommandOutput)
| PutReply
| Rejected.

(** The world of the service: the random bits behind [crypto.randomUUID],
    the readings of the clock, the store behind the client, and the commands
    sent so far. Items travel unmarshalled. *)
Record World : Type := {
  entropy : nat -> N;
  draws : nat;
  clock : nat -> string;
  reads : nat;
  service : command -> reply;
  sent : list command
}.

Definition randomUUID : M World value :=
  fun w => (Ok (VStr (uuid (entropy w (draws w)))),
            {| entropy := entropy w; draws := S (draws w); clock := clock w;
               reads := reads w; service := service w; sent := sent w |}).

(** [new Date().toISOString()] *)
Definition now : M World value :=
  fun w => (Ok (VStr (clock w (reads w))),
            {| entropy := entropy w; draws := draws w; clock := clock w;
               reads := S (reads w); service := service w; sent := sent w |}).

(** [client.send(command)] *)
Definition send (c : command) : M World reply :=
  fun w => (Ok (service w c),
            {| entropy := entropy w; draws := draws w; clock := clock w;
               reads := reads w; service := service w; sent := (sent w ++ [c])%list |}).

Definition prepareValue (v : value) : result AttributeValue :=
  match v with
  | VStr s => Ok (AttrS (VStr s))
  | VNum n => Ok (AttrN (toString (VNum n)))
  | VBool b => Ok (AttrBOOL b)
  | VUndefined | VNull | VArr _ => Throw UnsupportedValueType
  end.

Definition operatorSymbols (operator : filterKey) : option string :=
  match operator with
  | op_equals => Some "="
  | op_not => Some "<>"
  | op_gt => Some ">"
  | op_gte => Some ">="
  | op_lt => Some "<"
  | op_lte => Some "<="
  | _ => None
  end.

(** What the loop over the where clause accumulates. *)
Record Filter : Type := {
  filterExpression : list string;
  expressionAttributeNames : dict string;
  expressionAttributeValues : dict AttributeValue;
  placeholderCounter : nat
}.

Definition emptyFilter : Filter :=
  {| filterExpression := []; expressionAttributeNames := [];
     expressionAttributeValues := []; placeholderCounter := 0 |}.

Definition decimal (n : nat) : string := NilZero.string_of_uint (Nat.to_uint n).

(** The body of the [forEach] over the entries of [where]: the operator is
    the first key of the condition. *)
Definition compileCondition (acc : Filter) (entry : string * filter_t) : result Filter :=
  let '(field, condition) := entry in
  match condition with
  | [] => Throw (InvalidCondition field)
  | (operator, value) :: _ =>
      if isUndefined value then Throw (UndefinedOperand operator field)
      else
        let fieldPlaceholder := "#" ++ field in
        let valuePlaceholder := ":val" ++ decimal (placeholderCounter acc) in
        (prepared <- prepareValue value ;;
         let names := obj_set fieldPlaceholder field (expressionAttributeNames acc) in
         let values := obj_set valuePlaceholder prepared (expressionAttributeValues acc) in
         let push fragment :=
           Ok {| filterExpression := (filterExpression acc ++ [fragment])%list;
                 expressionAttributeNames := names;
                 expressionAttributeValues := values;
                 placeholderCounter := S (placeholderCounter acc) |} in
         match operatorSymbols operator with
         | Some symbol => push (fieldPlaceholder ++ " " ++ symbol ++ " " ++ valuePlaceholder)
         | None =>
             match operator with
             | op_contains =>
                 push ("contains(" ++ fieldPlaceholder ++ ", " ++ valuePlaceholder ++ ")")
             | op_startsWith =>
                 push ("begins_with(" ++ fieldPlaceholder ++ ", " ++ valuePlaceholder ++ ")")
             | op_endsWith =>
                 push ("contains(" ++ fieldPlaceholder ++ ", " ++ valuePlaceholder ++ ")")
             | _ => Throw (UnsupportedOperator operator)
             end
         end)%result
  end.

Fixpoint compileWhere (acc : Filter) (entries : where_t) : result Filter :=
  match entries with
  | [] => Ok acc
  | entry :: rest =>
      (acc' <- compileCondition acc entry ;; compileWhere acc' rest)%result
  end.

(** The start key of a page: [JSON.parse(nextCursor)] when [nextCursor] is
    truthy. *)
Definition decodeCursor (nextCursor : option string) : result (option json) :=
  match nextCursor with
  | Some cursor =>
      if isNonEmptyString cursor then
        match parse cursor with
        | Some key => Ok (Some key)
        | None => Throw SyntaxError
        end
      else Ok None
  | None => Ok None
  end.

(** The scan parameters of [findMany], up to the point where the command is
    sent. *)
Definition scanParams (options : ModelOptions) (args : FindManyArgs) :
    result ScanCommandInput :=
  let invalidTake :=
    match take args with
    | Some t => number_truthy t && negb (positive_integer t)
    | None => false
    end in
  if invalidTake then Throw InvalidTake
  else
    let limit := match take args with Some t => t | None => hundred end in
    (startKey <- decodeCursor (nextCursor args) ;;
     compiled <-
       match where_ args with
       | Some w => if (0 <? length (keys w))%nat then compileWhere emptyFilter w
                   else Ok emptyFilter
       | None => Ok emptyFilter
       end ;;
     let filtered := (0 <? length (filterExpression compiled))%nat in
     Ok {| TableName := tableName options;
           Limit := limit;
           ExclusiveStartKey := startKey;
           FilterExpression :=
             if filtered then Some (String.concat " AND " (filterExpression compiled))
             else None;
           ExpressionAttributeNames :=
             if filtered then Some (expressionAttributeNames compiled) else None;
           ExpressionAttributeValues :=
             if filtered then Some (expressionAttributeValues compiled) else None;
           ProjectionExpression := None |})%result.

(** The cursor of a page: [LastEvaluatedKey ? JSON.stringify(LastEvaluatedKey) : undefined].
    A key is an object, hence truthy. *)
Definition encodeCursor (key : option (list (string * json))) : option string :=
  match key with
  | Some k => Some (stringify (JObj k))
  | None => None
  end.

Definition findMany (options : ModelOptions) (args : FindManyArgs) :
    M World FindManyResponse :=
  (params <- lift (scanParams options args) ;;
   result <- send (ScanCommand params) ;;
   match result with
   | ScanReply output =>
       ret {| items := match Items output with Some l => l | None => [] end;
              nextCursor_ := encodeCursor (LastEvaluatedKey output) |}
   | PutReply | Rejected => throw RetrieveFailed
   end)%facade.

(** [create]: the item is the partition key, the sort key when one is
    configured, the payload, and the two time stamps, spread in this
    order; [marshall] encodes it, or throws, before the command is sent. *)
Definition create (options : ModelOptions) (data : obj) : M World obj :=
  if objectIsEmpty data then throw PayloadEmpty
  else
    (pk <- (if truthy (prop "id" data) then ret (prop "id" data) else randomUUID) ;;
     sk <- match this_sortKey options with
           | Some sortKey =>
               (v <- (if truthy (prop "id" data) then ret (prop "id" data)
                      else randomUUID) ;;
                ret [(sortKey, v)])
           | None => ret []
           end ;;
     stamps <- (if auto_timestamp (this_fields options)
                then (createdAt <- now ;;
                      updatedAt <- now ;;
                      ret [("createdAt", createdAt); ("updatedAt", updatedAt)])
                else ret []) ;;
     let item := spread (spread (spread [(partitionKey options, pk)] sk) data) stamps in
     if negb (Marshalling.accepted item) then throw EncodingRefused
     else
       (result <- send (PutItemCommand (tableName options) item) ;;
        match result with
        | Rejected => throw CreateFailed
        | PutReply | ScanReply _ => ret item
        end))%facade.

End Dynamo.

(** ** The key-value store service, the revision with field selection

    Its [findMany] compiles the where clause with [parseWhereClause], which
    knows [contains] only, and projects with the names built from
    [select]. *)

Module Dynamo2.
Import JSON Dynamo.

Definition buildExpressionAttributeNames (select : option obj) : dict string :=
  match select with
  | None => []
  | Some select =>
      if objectIsEmpty select then []
      else
        fold_left (fun acc key => spread acc [("#" ++ key, key)])
                  (filter (fun key => truthy (prop key select)) (keys select))
                  []
  end.

Record WhereClause : Type := {
  filterExpression : option string;
  expressionAttributeNames : dict string;
  expressionAttributeValues : dict AttributeValue
}.

Definition parseWhereClause (where_ : option where_t) : WhereClause :=
  let entries := match where_ with Some w => w | None => [] end in
  let step (acc : list string * dict string * dict AttributeValue)
           (entry : string * filter_t) :=
    let '(filterExpressions, names, values) := acc in
    let '(key, condition) := entry in
    if truthy (filter_get op_contains condition) then
      let attrName := "#" ++ key in
      let attrValue := ":" ++ key ++ "Val" in
      let fragment := "contains(" ++ attrName ++ ", " ++ attrValue ++ ")" in
      ((filterExpressions ++ [fragment])%list,
       obj_set attrName key names,
       obj_set attrValue (AttrS (filter_get op_contains condition)) values)
    else acc in
  let '(filterExpressions, names, values) := fold_left step entries ([], [], []) in
  {| filterExpression :=
       if (0 <? length filterExpressions)%nat
       then Some (String.concat " AND " filterExpressions) else None;
     expressionAttributeNames := names;
     expressionAttributeValues := values |}.

Definition scanParams (options : ModelOptions) (args : FindManyArgs) :
    result ScanCommandInput :=
  let invalidTake :=
    match take args with
    | Some t => number_truthy t && negb (positive_integer t)
    | None => false
    end in
  if invalidTake then Throw InvalidTake
  else
    let expressionAttributeNames := buildExpressionAttributeNames (select args) in
    let whereClause := parseWhereClause (where_ args) in
    let projected := (0 <? length (keys expressionAttributeNames))%nat in
    (startKey <- decodeCursor (nextCursor args) ;;
     Ok {| TableName := tableName options;
           Limit := match take args with Some t => t | None => hundred end;
           ExclusiveStartKey := startKey;
           FilterExpression := filterExpression whereClause;
           ExpressionAttributeNames :=
             if projected
             then Some (spread (Dynamo2.expressionAttributeNames whereClause)
                               expressionAttributeNames)
             else None;
           ExpressionAttributeValues :=
             Some (Dynamo2.expressionAttributeValues whereClause);
           ProjectionExpression :=
             if projected then Some (String.concat ", " (keys expressionAttributeNames))
             else None |})%result.

Definition findMany (options : ModelOptions) (args : FindManyArgs) :
    M World FindManyResponse :=
  (params <- lift (scanParams options args) ;;
   result <- send (ScanCommand params) ;;
   match result with
   | ScanReply output =>
       ret {| items := match Items output with Some l => l | None => [] end;
              nextCursor_ := encodeCursor (LastEvaluatedKey output) |}
   | PutReply | Rejected => throw RetrieveFailed
   end)%facade.

End Dynamo2.

(** ** The facade of the SQL-like document store service *)

Module CosmosModel.
Import Cosmos.

Record FeedOptions : Type := {
  continuationToken : option string;
  maxItemCount : number
}.

(** The [resources] of a feed response, which the facade inspects. *)
Inductive Resources : Type :=
| ResourcesUndefined
| ResourcesNull
| ResourcesList (l : list obj).

Record FeedResponse : Type := {
  resources : Resources;
  continuationToken_ : option string
}.

Inductive request : Type :=
| QueryRequest (query : string) (options : FeedOptions)
| CreateRequest (body : obj)
| ReplaceRequest (id partitionKeyValue : string) (body : obj).

(** The world of the service: the documents of the container, the query
    engine of the store (its answer to a query text over the documents;
    [None] is a rejected promise), the random bits of the client's id
    generation, and the requests issued so far. *)
Record World : Type := {
  container : list obj;
  engine : string -> FeedOptions -> list obj -> option FeedResponse;
  entropy : nat -> N;
  draws : nat;
  requests : list request
}.

Definition log (r : request) (w : World) : World :=
  {| container := container w; engine := engine w; entropy := entropy w;
     draws := draws w; requests := (requests w ++ [r])%list |}.

(** [container.items.query(query, options).fetchNext()] and [.fetchAll()] *)
Definition query (text : string) (options : FeedOptions) : M World (option FeedResponse) :=
  fun w => (Ok (engine w text options (container w)), log (QueryRequest text options) w).

Definition has_id (id : string) (doc : obj) : bool :=
  match prop "id" doc with
  | VStr s => s =? id
  | _ => false
  end.

(** [container.items.create(body)]: the client gives the body an id when it
    has none, and the store refuses an id it already holds. The answer is
    the stored document. *)
Definition items_create (body : obj) : M World (option obj) :=
  fun w =>
    let w1 := log (CreateRequest body) w in
    let missing := match prop "id" body with
                   | VUndefined => true
                   | VStr s => s =? EmptyString
                   | _ => false
                   end in
    let doc := if missing then obj_set "id" (VStr (uuid (entropy w (draws w)))) body
               else body in
    let d := if missing then S (draws w) else draws w in
    if existsb (fun stored => match prop "id" doc with
                              | VStr s => has_id s stored
                              | _ => false
                              end) (container w)
    then (Ok None, {| container := container w1; engine := engine w1;
                      entropy := entropy w1; draws := d; requests := requests w1 |})
    else (Ok (Some doc),
          {| container := (container w1 ++ [doc])%list; engine := engine w1;
             entropy := entropy w1; draws := d; requests := requests w1 |}).

(** [container.item(id, partitionKeyValue).replace(body)]: the whole
    document is replaced by the body. *)
Definition item_replace (id partitionKeyValue : string) (body : obj) : M World (option obj) :=
  fun w =>
    let w1 := log (ReplaceRequest id partitionKeyValue body) w in
    if existsb (has_id id) (container w)
    then (Ok (Some body),
          {| container := map (fun doc => if has_id id doc then body else doc) (container w1);
             engine := engine w1; entropy := entropy w1; draws := draws w1;
             requests := requests w1 |})
    else (Ok None, w1).

Record FindManyResponse : Type := {
  items : list obj;
  nextCursor_ : option string
}.

(** Find many items with pagination and type-safe filters. *)
Definition findMany (args : FindManyArgs) : M World FindManyResponse :=
  let invalidTake :=
    match take args with
    | Some t => negb (positive_integer t)
    | None => false
    end in
  if invalidTake then throw InvalidTake
  else
    (text <- lift (buildQueryFindMany args) ;;
     result <- query text {| continuationToken := nextCursor args;
                             maxItemCount := match take args with
                                             | Some t => t
                                             | None => hundred
                                             end |} ;;
     match result with
     | None => throw RetrieveFailed
     | Some response =>
         match resources response with
         | ResourcesUndefined =>
             ret {| items := []; nextCursor_ := continuationToken_ response |}
         | ResourcesNull => throw NotAList
         | ResourcesList l =>
             ret {| items := l; nextCursor_ := continuationToken_ response |}
         end
     end)%facade.

(** Find item by ID. *)
Definition findOne (args : FindOneArgs) : M World obj :=
  if negb (IdSchema (id args)) then throw InvalidId
  else
    (result <- query (buildQueryFindOne args)
                     {| continuationToken := None; maxItemCount := Finite 1 |} ;;
     match result with
     | None => throw RetrieveFailed
     | Some response =>
         match resources response with
         | ResourcesUndefined | ResourcesNull => throw NotAList
         | ResourcesList [] => throw NotFound
         | ResourcesList (first :: _) => ret first
         end
     end)%facade.

(** Create an item. *)
Definition create (data : obj) : M World obj :=
  if objectIsEmpty data then throw PayloadEmpty
  else
    (result <- items_create data ;;
     match result with
     | None => throw CreateFailed
     | Some resource => ret resource
     end)%facade.

(** Update an item. *)
Definition update (id : string) (data : obj) : M World obj :=
  if negb (IdSchema id) then throw InvalidId
  else if objectIsEmpty data then throw PayloadEmpty
  else
    (checkItemInDb <-
       fromPromise (findOne {| Cosmos.id := id; selectOne := Some [("id", VBool true)] |}) ;;
     match checkItemInDb with
     | Throw _ => throw UpdateTargetMissing
     | Ok existingItem =>
         replaceItem <- item_replace id id (spread existingItem data) ;;
         match replaceItem with
         | None => throw UpdateFailed
         | Some resource => ret resource
         end
     end)%facade.

End CosmosModel.

(** ** Point queries: the store's answers to the queries of [buildQueryFindOne]

    An engine for the query texts [SELECT <columns> FROM c WHERE c.id = '<id>']:
    the documents whose id is [<id>], each reduced to the selected columns
    it has ([*] keeps the document). Any other text is rejected. *)

Module PointQueries.
Import CosmosModel.

Fixpoint drop (n : nat) (s : string) : string :=
  match n, s with
  | S n', String _ rest => drop n' rest
  | _, _ => s
  end.

Definition strip (pre s : string) : option string :=
  if prefix pre s then Some (drop (String.length pre) s) else None.

(** [s] cut at the first occurrence of [sep]. *)
Fixpoint cut (sep s : string) : option (string * string) :=
  match strip sep s with
  | Some rest => Some (EmptyString, rest)
  | None =>
      match s with
      | EmptyString => None
      | String c rest =>
          match cut sep rest with
          | Some (before, after) => Some (String c before, after)
          | None => None
          end
      end
  end.

Fixpoint split (fuel : nat) (sep s : string) : list string :=
  match fuel with
  | O => [s]
  | S fuel' =>
      match cut sep s with
      | Some (before, after) => before :: split fuel' sep after
      | None => [s]
      end
  end.

(** [s] without its closing quote. *)
Fixpoint unquote (s : string) : option string :=
  match s with
  | EmptyString => None
  | String c EmptyString => if (c =? "'")%char then Some EmptyString else None
  | String c rest =>
      match unquote rest with
      | Some body => Some (String c body)
      | None => None
      end
  end.

Fixpoint columns (cols : list string) : option (list string) :=
  match cols with
  | [] => Some []
  | col :: rest =>
      match strip "c." col, columns rest with
      | Some name, Some names => Some (name :: names)
      | _, _ => None
      end
  end.

Definition project (names : list string) (doc : obj) : obj :=
  flat_map (fun name => match obj_get name doc with
                        | Some v => [(name, v)]
                        | None => []
                        end) names.

Definition pointEngine (text : string) (options : FeedOptions) (docs : list obj) :
    option FeedResponse :=
  match strip "SELECT " text with
  | Some rest =>
      match cut " FROM c WHERE c.id = '" rest with
      | Some (selection, tail) =>
          match unquote tail with
          | Some id =>
              let found := filter (has_id id) docs in
              if selection =? "*" then
                Some {| resources := ResourcesList found; continuationToken_ := None |}
              else
                match columns (split (String.length selection) ", " selection) with
                | Some names =>
                    Some {| resources := ResourcesList (map (project names) found);
                            continuationToken_ := None |}
                | None => None
                end
          | None => None
          end
      | None => None
      end
  | None => None
  end.

End PointQueries.

(** ** Deletion on the SQL-like service

    [delete] answers nothing: it either resolves or rejects with one of three
    errors. The delete requests issued are logged beside the world of the
    facade. *)

Inductive deleteError : Type :=
| DeleteInvalidId           (* IdSchema rejected the id *)
| DeleteTargetMissing       (* The item you're trying to delete cannot be found *)
| DeleteFailed.             (* Failed to delete item *)

Module CosmosDelete.
Import Cosmos CosmosModel.

Record World : Type := {
  base : CosmosModel.World;
  deletes : list (string * string)
}.

(** [container.item(id, partitionKeyValue).delete()]: the store removes the
    document, and refuses when it holds none with this id. *)
Definition item_delete (id partitionKeyValue : string) (w : World) : bool * World :=
  let b := base w in
  if existsb (has_id id) (container b)
  then (true,
        {| base := {| container := filter (fun doc => negb (has_id id doc)) (container b);
                      engine := engine b; entropy := entropy b; draws := draws b;
                      requests := requests b |};
           deletes := (deletes w ++ [(id, partitionKeyValue)])%list |})
  else (false, {| base := b; deletes := (deletes w ++ [(id, partitionKeyValue)])%list |}).

(** Permanently delete an item. *)
Definition delete (id : string) (w : World) : option deleteError * World :=
  if negb (IdSchema id) then (Some DeleteInvalidId, w)
  else
    let (checkItemInDb, b) :=
      findOne {| Cosmos.id := id; selectOne := Some [("id", VBool true)] |} (base w) in
    match checkItemInDb with
    | Throw _ => (Some DeleteTargetMissing, {| base := b; deletes := deletes w |})
    | Ok _ =>
        let (deleted, w') := item_delete id id {| base := b; deletes := deletes w |} in
        if deleted then (None, w') else (Some DeleteFailed, w')
    end.

End CosmosDelete.

(** ** Point operations of the key-value service: [findOne], [update], [delete]

    The two revisions of the service differ in [findOne] only: the revision
    with field selection projects. *)

Module DynamoItems.

Record GetItemCommandInput : Type := {
  GetTableName : string;
  GetKey : obj;
  GetProjectionExpression : option string;
  GetExpressionAttributeNames : option (dict string)
}.

Record UpdateItemCommandInput : Type := {
  UpdateTableName : string;
  UpdateKey : obj;
  UpdateExpression : string;
  UpdateExpressionAttributeNames : dict string;
  UpdateExpressionAttributeValues : obj;
  ReturnValues : string
}.

Inductive command : Type :=
| GetItemCommand (input : GetItemCommandInput)
| UpdateItemCommand (input : UpdateItemCommandInput)
| DeleteItemCommand (table : string) (key : obj).

(** The world of the point operations: the readings of the clock, the
    answers of the store ([None] is a rejected promise; [getItem] answers
    the item or its absence, [updateItem] the attributes of the updated
    item), and the commands sent so far. Items travel unmarshalled. *)
Record World : Type := {
  clock : nat -> string;
  reads : nat;
  getItem : GetItemCommandInput -> option (option obj);
  updateItem : UpdateItemCommandInput -> option obj;
  deleteItem : string -> obj -> bool;
  sent : list command
}.

Definition record (c : command) (w : World) : World :=
  {| clock := clock w; reads := reads w; getItem := getItem w;
     updateItem := updateItem w; deleteItem := deleteItem w;
     sent := (sent w ++ [c])%list |}.

(** [new Date().toISOString()] *)
Definition now : M World value :=
  fun w => (Ok (VStr (clock w (reads w))),
            {| clock := clock w; reads := S (reads w); getItem := getItem w;
               updateItem := updateItem w; deleteItem := deleteItem w;
               sent := sent w |}).

(** The key of an item: the id under the partition key, and under the sort
    key when one is configured. *)
Definition keyOf (options : Dynamo.ModelOptions) (id : string) : obj :=
  spread [(Dynamo.partitionKey options, VStr id)]
         (match Dynamo.this_sortKey options with
          | Some sortKey => [(sortKey, VStr id)]
          | None => []
          end).

Definition getItemOutcome (input : GetItemCommandInput) : M World obj :=
  fun w =>
    let w' := record (GetItemCommand input) w in
    match getItem w input with
    | None => (Throw RetrieveFailed, w')
    | Some None => (Throw NotFound, w')
    | Some (Some item) => (Ok item, w')
    end.

Definition findOne (options : Dynamo.ModelOptions) (id : string) : M World obj :=
  if negb (IdSchema id) then throw InvalidId
  else
    getItemOutcome {| GetTableName := Dynamo.tableName options;
                      GetKey := keyOf options id;
                      GetProjectionExpression := None;
                      GetExpressionAttributeNames := None |}.

(** [findOne] of the revision with field selection. *)
Definition findOneSelect (options : Dynamo.ModelOptions) (id : string)
    (select : option obj) : M World obj :=
  if negb (IdSchema id) then throw InvalidId
  else
    getItemOutcome
      {| GetTableName := Dynamo.tableName options;
         GetKey := keyOf options id;
         GetProjectionExpression :=
           match select with
           | Some sel =>
               if (0 <? length (keys sel))%nat
               then Some (String.concat ", "
                            (map (fun key => "#" ++ key)
                                 (filter (fun key => truthy (prop key sel)) (keys sel))))
               else None
           | None => None
           end;
         GetExpressionAttributeNames :=
           Some (Dynamo2.buildExpressionAttributeNames select) |}.

(** [l.map((x, index) => f x index)], counting from [index]. *)
Fixpoint mapi {A B : Type} (f : A -> nat -> B) (index : nat) (l : list A) : list B :=
  match l with
  | [] => []
  | a :: rest => f a index :: mapi f (S index) rest
  end.

Definition updateExpressionOf (stamped : bool) (data : obj) : string :=
  "SET "
  ++ String.concat ", "
       (mapi (fun key index => "#" ++ key ++ " = :val" ++ Dynamo.decimal index) 0 (keys data))
  ++ (if stamped then ", #updatedAt = :updatedAt" else EmptyString).

Definition updateNamesOf (stamped : bool) (data : obj) : dict string :=
  spread (fold_left (fun acc key => spread acc [("#" ++ key, key)]) (keys data) [])
         (if stamped then [("#updatedAt", "updatedAt")] else []).

Definition updateValuesOf (data stamp : obj) : obj :=
  spread (fold_left (fun acc entry => spread acc [entry])
                    (mapi (fun kv index => (":val" ++ Dynamo.decimal index, snd kv)) 0 data)
                    [])
         stamp.

Definition update (options : Dynamo.ModelOptions) (id : string) (data : obj) :
    M World obj :=
  if negb (IdSchema id) then throw InvalidId
  else
    let stamped := Dynamo.auto_timestamp (Dynamo.this_fields options) in
    (stamp <- (if stamped then (t <- now ;; ret [(":updatedAt", t)]) else ret []) ;;
     if negb (Marshalling.accepted (updateValuesOf data stamp)) then throw EncodingRefused
     else
     fun w =>
       let input :=
         {| UpdateTableName := Dynamo.tableName options;
            UpdateKey := keyOf options id;
            UpdateExpression := updateExpressionOf stamped data;
            UpdateExpressionAttributeNames := updateNamesOf stamped data;
            UpdateExpressionAttributeValues := updateValuesOf data stamp;
            ReturnValues := "ALL_NEW" |} in
       let w' := record (UpdateItemCommand input) w in
       match updateItem w input with
       | None => (Throw UpdateFailed, w')
       | Some attributes => (Ok attributes, w')
       end)%facade.

Definition delete (options : Dynamo.ModelOptions) (id : string) (w : World) :
    option deleteError * World :=
  if negb (IdSchema id) then (Some DeleteInvalidId, w)
  else
    let key := keyOf options id in
    let w' := record (DeleteItemCommand (Dynamo.tableName options) key) w in
    if deleteItem w (Dynamo.tableName options) key then (None, w')
    else (Some DeleteFailed, w').

End DynamoItems.

(** * The vocabulary of the properties *)

Module Projection.

Definition isTrue (v : value) : bool :=
  match v with VBool true => true | _ => false end.

(** The fields of [select] whose value is [true], in key order. *)
Definition selected (select : obj) : list string :=
  map fst (filter (fun kv => isTrue (snd kv)) select).

End Projection.

Module Assembler.
Import Cosmos.

(** An entry of a condition that is not the [mode] entry. *)
Definition isOperator (entry : filterKey * value) : bool :=
  negb (filterKey_eqb (fst entry) op_mode).

(** The mode of one field's condition, as [buildWhereClause] reads it. *)
Definition modeOf (filters : filter_t) : value :=
  if truthy (filter_get op_mode filters) then filter_get op_mode filters
  else VStr "SENSITIVE".

(** The operator entries of the whole where clause, field by field and
    entry by entry, without the [mode] entries. *)
Definition operatorEntries (w : where_t) : list (string * filterKey * value * value) :=
  flat_map (fun '(field, filters) =>
              map (fun '(filterKey, value) => (field, filterKey, modeOf filters, value))
                  (filter isOperator filters)) w.

(** The fragment of one operator entry. *)
Definition compileEntry (entry : string * filterKey * value * value) : result string :=
  let '(field, filterKey, mode, value) := entry in
  createFilter field filterKey mode value.

(** The fragments of one field, one per entry, [mode] included. *)
Definition perField (entry : string * filter_t) : result (list string) :=
  let '(field, filters) := entry in
  mapM (fun '(filterKey, value) => Cosmos.createFilter field filterKey (modeOf filters) value)
       filters.

(** The clause made of the non-empty fragments. *)
Definition clauseOf (conditions : list string) : result string :=
  if isEmptyArray conditions then Ok EmptyString
  else Ok (String.concat " " ["WHERE"; String.concat " AND " conditions]).

End Assembler.

Module Membership.

(** The literal of a value in query text: bare for booleans and numbers,
    quoted otherwise. *)
Definition literal (v : value) : string :=
  if isBoolean v || isNumber v then toString v else "'" ++ toString v ++ "'".

(** A value that is not nullish and has no [map] method. *)
Definition scalar (v : value) : bool :=
  match v with
  | VStr _ | VNum _ | VBool _ => true
  | VUndefined | VNull | VArr _ => false
  end.

(** The two set membership operators. *)
Definition membership (operator : filterKey) : bool :=
  match operator with
  | op_in | op_notIn => true
  | _ => false
  end.

End Membership.

Module Creation.
Import Dynamo.

(** The value of a key field: the payload's id when it is truthy, else the
    UUID of the [n]-th next draw. *)
Definition keyValue (data : obj) (w : World) (n : nat) : value :=
  if truthy (prop "id" data) then prop "id" data
  else VStr (uuid (entropy w (n + draws w))).

(** The sort key field, when a sort key is configured. *)
Definition sortPart (options : ModelOptions) (data : obj) (w : World) : obj :=
  match this_sortKey options with
  | Some sortKey => [(sortKey, keyValue data w 1)]
  | None => []
  end.

(** The two time stamps: two successive readings of the clock. *)
Definition stamps (options : ModelOptions) (w : World) : obj :=
  if auto_timestamp (this_fields options)
  then [("createdAt", VStr (clock w (reads w)));
        ("updatedAt", VStr (clock w (S (reads w))))]
  else [].

(** The item that [create] builds in the world [w]. *)
Definition createdItem (options : ModelOptions) (data : obj) (w : World) : obj :=
  spread (spread (spread [(partitionKey options, keyValue data w 0)]
                         (sortPart options data w)) data)
         (stamps options w).

(** The number of UUIDs that [create] draws. *)
Definition drawn (options : ModelOptions) (data : obj) : nat :=
  if truthy (prop "id" data) then 0
  else match this_sortKey options with Some _ => 2 | None => 1 end.

End Creation.

Module Codec.
Import JSON.

(** The text of one member of an object. *)
Definition member (kv : string * json) : string :=
  let '(k, v) := kv in quote k ++ ":" ++ stringify v.

(** A text that may follow a value: it is empty, or starts with a comma or
    with a closing brace or bracket. *)
Definition closes (rest : string) : bool :=
  match rest with
  | EmptyString => true
  | String c _ =>
      let n := N_of_ascii c in ((n =? 44) || (n =? 125) || (n =? 93))%N
  end.

(** A character that starts a number. *)
Definition numeric (c : ascii) : bool :=
  is_digit c || (N_of_ascii c =? 45)%N.

(** A character that starts the text of a value. *)
Definition opens (c : ascii) : bool :=
  let n := N_of_ascii c in
  numeric c
  || ((n =? 34) || (n =? 123) || (n =? 91) || (n =? 116) || (n =? 102) || (n =? 110))%N.

(** The property proved by induction on the value: with fuel for its text,
    the value is read back, and the text after it is left over. *)
Definition reads_back (j : json) : Prop :=
  wf j = true ->
  forall fuel rest,
    closes rest = true ->
    (String.length (stringify j) <= fuel)%nat ->
    parse_value fuel (stringify j ++ rest) = Some (j, rest).

End Codec.

(** ** Sample configurations, payloads and worlds *)

(** A double quote, to write JSON texts with. *)
Definition dquote : string := String JSON.dq EmptyString.

(** The pagination key of a table whose partition key is the string [id]. *)
Definition userKey : JSON.json := JSON.JObj [("id", JSON.JObj [("S", JSON.JStr "user-1")])].

(** The pagination key of a table whose partition key is binary, and what
    its cursor decodes to: the bytes as an object of indices. *)
Definition binaryKey : list (string * JSON.json) :=
  [("id", JSON.JObj [("B", JSON.JBytes [1%N; 2%N])])].

Definition binaryKeyDecoded : JSON.json :=
  JSON.JObj [("id", JSON.JObj [("B", JSON.JObj [("0", JSON.JNum 1); ("1", JSON.JNum 2)])])].

(** The same key written with a space after each colon. *)
Definition spacedCursor : string :=
  "{" ++ dquote ++ "id" ++ dquote ++ ": {" ++ dquote ++ "S" ++ dquote
  ++ ": " ++ dquote ++ "user-1" ++ dquote ++ "}}".

(** A model with the partition key [id] and the default automatic fields. *)
Definition users : Dynamo.ModelOptions :=
  {| Dynamo.tableName := "Users"; Dynamo.partitionKey := "id";
     Dynamo.sortKey := None; Dynamo.fields := Dynamo.FieldsAbsent |}.

(** The arguments of [findMany] with a where clause only, and with [take]
    only. *)
Definition whereOnly (w : where_t) : Dynamo.FindManyArgs :=
  {| Dynamo.where_ := Some w; Dynamo.take := None; Dynamo.nextCursor := None;
     Dynamo.select := None; Dynamo.orderBy := None |}.

Definition takeOnly (t : option number) : Dynamo.FindManyArgs :=
  {| Dynamo.where_ := None; Dynamo.take := t; Dynamo.nextCursor := None;
     Dynamo.select := None; Dynamo.orderBy := None |}.

(** A stored user, and a container that holds it. *)
Definition bob : obj := [("id", VStr "1"); ("firstName", VStr "Bob"); ("age", VNum 30)].

Definition store : CosmosModel.World :=
  {| CosmosModel.container := [bob];
     CosmosModel.engine := PointQueries.pointEngine;
     CosmosModel.entropy := fun n => N.of_nat n;
     CosmosModel.draws := 0;
     CosmosModel.requests := [] |}.

(** A model with a sort key, and a world whose store accepts every item. *)
Definition posts : Dynamo.ModelOptions :=
  {| Dynamo.tableName := "Posts"; Dynamo.partitionKey := "postId";
     Dynamo.sortKey := Some "authorId"; Dynamo.fields := Dynamo.FieldsBool true |}.

Definition accepting : Dynamo.World :=
  {| Dynamo.entropy := fun n => N.of_nat (7 * n); Dynamo.draws := 0;
     Dynamo.clock := fun _ => "2024-01-01T00:00:00.000Z"; Dynamo.reads := 0;
     Dynamo.service := fun _ => Dynamo.PutReply; Dynamo.sent := [] |}.

(** ** Further vocabulary *)

Module Refusal.

(** An [in] or [notIn] entry whose operand has no [map] method. *)
Definition refusedEntry (entry : filterKey * value) : bool :=
  Membership.membership (fst entry) && Membership.scalar (snd entry).

(** A where clause with such an entry in some condition. *)
Definition refused (w : where_t) : bool :=
  existsb (fun entry : string * filter_t => existsb refusedEntry (snd entry)) w.

(** The three operators that match text. *)
Definition textual (operator : filterKey) : bool :=
  match operator with
  | op_contains | op_startsWith | op_endsWith => true
  | _ => false
  end.

End Refusal.

Module Query.

(** A clause with the space that separates it from what precedes, or
    nothing when the clause is empty. *)
Definition spaced (clause : string) : string :=
  if isNonEmptyString clause then " " ++ clause else EmptyString.

(** [take] is absent or a positive integer. *)
Definition takeOk (take : option number) : bool :=
  match take with
  | Some t => positive_integer t
  | None => true
  end.

(** The page size asked of the store. *)
Definition pageSize (take : option number) : number :=
  match take with
  | Some t => t
  | None => hundred
  end.

(** What [findMany] of the SQL-like service makes of the store's answer. *)
Definition outcomeOf (reply : option CosmosModel.FeedResponse) :
    result CosmosModel.FindManyResponse :=
  match reply with
  | None => Throw RetrieveFailed
  | Some response =>
      match CosmosModel.resources response with
      | CosmosModel.ResourcesUndefined =>
          Ok {| CosmosModel.items := [];
                CosmosModel.nextCursor_ := CosmosModel.continuationToken_ response |}
      | CosmosModel.ResourcesNull => Throw NotAList
      | CosmosModel.ResourcesList l =>
          Ok {| CosmosModel.items := l;
                CosmosModel.nextCursor_ := CosmosModel.continuationToken_ response |}
      end
  end.

(** An id that is empty or holds a white space character. *)
Definition malformedId (id : string) : Prop :=
  id = EmptyString
  \/ exists c, In c (list_ascii_of_string id) /\ is_space c = true.

(** The existence check of [update] and [delete]. *)
Definition existenceCheck (id : string) : Cosmos.FindOneArgs :=
  {| Cosmos.id := id; Cosmos.selectOne := Some [("id", VBool true)] |}.

End Query.

(** A store that rejects every query. *)
Definition unreachable : CosmosModel.World :=
  {| CosmosModel.container := [bob];
     CosmosModel.engine := fun _ _ _ => None;
     CosmosModel.entropy := fun n => N.of_nat n;
     CosmosModel.draws := 0;
     CosmosModel.requests := [] |}.

Module Placeholders.

(** The [index]-th value placeholder. *)
Definition valueName (index : nat) : string := ":val" ++ Dynamo.decimal index.

(** The fields of a where clause, each with the operator that the scan
    filter reads: the first key of its condition. *)
Definition shape (w : where_t) : list (string * option filterKey) :=
  map (fun entry : string * filter_t =>
         (fst entry, match snd entry with
                     | [] => None
                     | (operator, _) :: _ => Some operator
                     end)) w.

(** The fields of [select] whose value is truthy, in key order. *)
Definition projected (select : obj) : list string :=
  filter (fun key => truthy (prop key select)) (keys select).

(** [take] passes the guard of the key-value [findMany]. *)
Definition takePasses (take : option number) : bool :=
  match take with
  | Some t => negb (number_truthy t && negb (positive_integer t))
  | None => true
  end.

End Placeholders.

(** A table world whose store knows no item and accepts every command. *)
Definition emptyTable : DynamoItems.World :=
  {| DynamoItems.clock := fun _ => "2024-01-01T00:00:00.000Z";
     DynamoItems.reads := 0;
     DynamoItems.getItem := fun _ => Some None;
     DynamoItems.updateItem := fun input => Some (DynamoItems.UpdateKey input);
     DynamoItems.deleteItem := fun _ _ => true;
     DynamoItems.sent := [] |}.

Module Fragments.
Import Placeholders.

(** The fragment of a field, from its name, its operator and the index of
    its value placeholder alone. *)
Definition fragmentOf (field : string) (operator : filterKey) (index : nat) : string :=
  match Dynamo.operatorSymbols operator with
  | Some symbol => "#" ++ field ++ " " ++ symbol ++ " " ++ valueName index
  | None =>
      match operator with
      | op_startsWith => "begins_with(#" ++ field ++ ", " ++ valueName index ++ ")"
      | _ => "contains(#" ++ field ++ ", " ++ valueName index ++ ")"
      end
  end.

(** The fragments of a shape, the placeholders counted from [index]. *)
Fixpoint fragmentsOf (index : nat) (fields : list (string * option filterKey)) :
    list string :=
  match fields with
  | [] => []
  | (field, Some operator) :: rest =>
      fragmentOf field operator index :: fragmentsOf (S index) rest
  | (field, None) :: rest => fragmentsOf (S index) rest
  end.

End Fragments.

(** A world whose store answers every scan with one item and the key of
    that item as last evaluated key. *)
Definition paging : Dynamo.World :=
  {| Dynamo.entropy := fun n => N.of_nat n; Dynamo.draws := 0;
     Dynamo.clock := fun _ => "2024-01-01T00:00:00.000Z"; Dynamo.reads := 0;
     Dynamo.service := fun _ =>
       Dynamo.ScanReply
         {| Dynamo.Items := Some [[("id", VStr "user-1")]];
            Dynamo.LastEvaluatedKey := Some [("id", JSON.JObj [("S", JSON.JStr "user-1")])] |};
     Dynamo.sent := [] |}.

(** The same model as [users] with the automatic id switched off. *)
Definition usersWithoutIds : Dynamo.ModelOptions :=
  {| Dynamo.tableName := "Users"; Dynamo.partitionKey := "id";
     Dynamo.sortKey := None;
     Dynamo.fields := Dynamo.FieldsObject (Some false) None |}.

(** The arguments of [findMany] with a selection only. *)
Definition selectOnly (s : obj) : Dynamo.FindManyArgs :=
  {| Dynamo.where_ := None; Dynamo.take := None; Dynamo.nextCursor := None;
     Dynamo.select := Some s; Dynamo.orderBy := None |}.

Module Lookup.

(** The input of the point read of [id], with a projection and its names. *)
Definition getInput (options : Dynamo.ModelOptions) (id : string)
    (projection : option string) (names : option (dict string)) :
    DynamoItems.GetItemCommandInput :=
  {| DynamoItems.GetTableName := Dynamo.tableName options;
     DynamoItems.GetKey := DynamoItems.keyOf options id;
     DynamoItems.GetProjectionExpression := projection;
     DynamoItems.GetExpressionAttributeNames := names |}.

(** The placeholder of a field, and its binding. *)
Definition fieldName (key : string) : string := "#" ++ key.

Definition binding (key : string) : string * string := (fieldName key, key).

End Lookup.

Module Selection.

(** The fragment that the revision with field selection compiles for a
    field: the contains test of the placeholder of the field against the
    placeholder of its operand. *)
Definition containsFragment (field : string) : string :=
  "contains(" ++ ("#" ++ field) ++ ", " ++ (":" ++ field ++ "Val") ++ ")".

(** A field whose condition has a truthy [contains]. *)
Definition filtering (entry : string * filter_t) : bool :=
  truthy (filter_get op_contains (snd entry)).

(** The fields of a where clause that have one, in key order. *)
Definition containsFields (w : where_t) : list string :=
  map fst (filter filtering w).

(** No field is selected: [select] is absent, or none of its fields is
    truthy. *)
Definition unselected (select : option obj) : bool :=
  match select with
  | None => true
  | Some sel =>
      match Placeholders.projected sel with
      | [] => true
      | _ :: _ => false
      end
  end.

(** The arguments of [findMany] with another where clause. *)
Definition withWhere (w : where_t) (args : Dynamo.FindManyArgs) : Dynamo.FindManyArgs :=
  {| Dynamo.where_ := Some w; Dynamo.take := Dynamo.take args;
     Dynamo.nextCursor := Dynamo.nextCursor args; Dynamo.select := Dynamo.select args;
     Dynamo.orderBy := Dynamo.orderBy args |}.

End Selection.

(** * Properties *)

Module CosmosTests.
Import Cosmos.

(** The expectations of the service's unit tests. *)
Example where_mixed :
  buildWhereClause (Some
    [("firstName", [(op_startsWith, VStr "haha"); (op_endsWith, VStr "hEEh");
                    (op_mode, VStr "INSENSITIVE")]);
     ("lastName", [(op_equals, VStr "hehe")]);
     ("age", [(op_lte, VNum 10); (op_notIn, VArr [VNum 1; VNum 2; VNum 3])]);
     ("isSuperAdmin", [(op_not, VBool true)])])
  = Ok "WHERE STARTSWITH(LOWER(c.firstName), LOWER('haha')) AND LOWER(c.firstName) LIKE '%LOWER('hEEh')' AND c.lastName = 'hehe' AND c.age <= 10 AND c.age NOT IN (1, 2, 3) AND c.isSuperAdmin != true".
Proof. reflexivity. Qed.

Example where_in_notIn :
  buildWhereClause (Some
    [("age", [(op_in, VArr [VNum 25; VNum 30; VNum 35])]);
     ("firstName", [(op_notIn, VArr [VStr "Alice"; VStr "Bob"])])])
  = Ok "WHERE c.age IN (25, 30, 35) AND c.firstName NOT IN ('Alice', 'Bob')".
Proof. reflexivity. Qed.

Example select_some :
  constructFieldSelection
    (Some [("firstName", VBool true); ("lastName", VBool true); ("age", VBool false)])
  = "c.firstName, c.lastName".
Proof. reflexivity. Qed.

Example query_all_clauses :
  buildQueryFindMany
    {| where_ := Some [("age", [(op_lte, VNum 50)])]; take := None;
       nextCursor := None;
       select := Some [("firstName", VBool true); ("lastName", VBool true)];
       orderBy := Some [("createdAt", "ASC")] |}
  = Ok "SELECT c.firstName, c.lastName FROM c WHERE c.age <= 50 ORDER BY c.createdAt ASC".
Proof. reflexivity. Qed.

Example query_find_one :
  buildQueryFindOne {| id := "123"; selectOne := Some [] |}
  = "SELECT * FROM c WHERE c.id = '123'".
Proof. reflexivity. Qed.

End CosmosTests.

Module JSONTests.
Import JSON.

Example stringify_key :
  stringify userKey = "{" ++ dquote ++ "id" ++ dquote ++ ":{" ++ dquote ++ "S" ++ dquote ++ ":" ++ dquote ++ "user-1" ++ dquote ++ "}}".
Proof. reflexivity. Qed.

Example parse_key : parse (stringify userKey) = Some userKey.
Proof. reflexivity. Qed.

(** White space, an escape, and a repeated key. *)
Example parse_spaced :
  parse (" { " ++ dquote ++ "a" ++ dquote ++ " : " ++ dquote ++ "x\ny\u0041" ++ dquote ++ " , "
         ++ dquote ++ "b" ++ dquote ++ ":" ++ dquote ++ dquote ++ "," ++ dquote ++ "a" ++ dquote ++ " : " ++ dquote ++ "z" ++ dquote ++ " } ")
  = Some (JObj [("a", JStr "z"); ("b", JStr EmptyString)]).
Proof. reflexivity. Qed.

(** The escapes of a string literal. *)
Example parse_escapes :
  parse (dquote ++ "x\ny\u0041\/" ++ dquote)
  = Some (JStr (String "x" (String (ascii_of_N 10) "yA/"))).
Proof. reflexivity. Qed.

Example parse_rejects :
  parse ("{" ++ dquote ++ "a" ++ dquote ++ ":}") = None
  /\ parse ("{" ++ dquote ++ "a" ++ dquote ++ ":" ++ dquote ++ "x" ++ dquote) = None
  /\ parse EmptyString = None.
Proof. repeat split; reflexivity. Qed.

End JSONTests.

(** ** Objects *)

Section Dict.
Context {A : Type}.
Implicit Types (o src : dict A) (k : string) (v : A).

Lemma obj_get_set_same k v o : obj_get k (obj_set k v o) = Some v.
Proof.
  induction o as [|[k' v'] o IH]; simpl.
  - now rewrite String.eqb_refl.
  - destruct (k' =? k) eqn:E; simpl; rewrite E; auto.
Qed.

Lemma obj_get_set_other k k' v o :
  k' <> k -> obj_get k (obj_set k' v o) = obj_get k o.
Proof.
  intros Hne. induction o as [|[k1 v1] o IH]; simpl.
  - destruct (k' =? k) eqn:E; auto. apply String.eqb_eq in E. contradiction.
  - destruct (k1 =? k') eqn:E1; simpl.
    + apply String.eqb_eq in E1. subst k1.
      destruct (k' =? k) eqn:E; auto. apply String.eqb_eq in E. contradiction.
    + destruct (k1 =? k); auto.
Qed.

Lemma obj_get_spread_absent k src : forall o,
  ~ In k (keys src) -> obj_get k (spread o src) = obj_get k o.
Proof.
  unfold spread. induction src as [|[k' v'] src IH]; intros o Hk; simpl; auto.
  rewrite IH.
  - apply obj_get_set_other. intros ->. apply Hk. now left.
  - intros Hin. apply Hk. now right.
Qed.

Lemma obj_get_spread_present k src : forall o,
  NoDup (keys src) -> In k (keys src) ->
  obj_get k (spread o src) = obj_get k src.
Proof.
  unfold spread. induction src as [|[k' v'] src IH]; intros o Hnd Hin; simpl in *.
  - contradiction.
  - inversion Hnd as [|? ? Hnotin Hnd']; subst.
    destruct (k' =? k) eqn:E.
    + apply String.eqb_eq in E. subst k'.
      fold (spread (obj_set k v' o) src).
      rewrite obj_get_spread_absent by assumption.
      apply obj_get_set_same.
    + destruct Hin as [->|Hin]; [now rewrite String.eqb_refl in E|].
      now apply IH.
Qed.

Lemma obj_get_In k v o : NoDup (keys o) -> In (k, v) o -> obj_get k o = Some v.
Proof.
  induction o as [|[k' v'] o IH]; simpl; intros Hnd Hin; [contradiction|].
  inversion Hnd as [|? ? Hnotin Hnd']; subst.
  destruct Hin as [Heq|Hin].
  - inversion Heq; subst. now rewrite String.eqb_refl.
  - destruct (k' =? k) eqn:E; auto.
    apply String.eqb_eq in E. subst k'.
    exfalso. apply Hnotin. change k with (fst (k, v)). now apply in_map.
Qed.

Lemma obj_get_absent k o : ~ In k (keys o) -> obj_get k o = None.
Proof.
  induction o as [|[k' v'] o IH]; simpl; intros Hk; auto.
  destruct (k' =? k) eqn:E.
  - apply String.eqb_eq in E. exfalso. apply Hk. now left.
  - apply IH. intros Hin. apply Hk. now right.
Qed.

End Dict.

(** ** The projection planner *)

Module ProjectionFacts.
Import Cosmos Projection.

Lemma filter_keys (o : obj) : forall l : obj,
  (forall k v, In (k, v) l -> prop k o = v) ->
  filter (fun key => isTrue (prop key o)) (keys l) = selected l.
Proof.
  induction l as [|[k v] l IH]; intros Hl; simpl; auto.
  unfold selected in *. simpl.
  rewrite (Hl k v) by now left.
  destruct (isTrue v); simpl; rewrite IH; auto; intros; apply Hl; now right.
Qed.

Lemma concat_nonempty (sep x : string) (xs : list string) :
  x <> EmptyString -> String.concat sep (x :: xs) <> EmptyString.
Proof.
  intros Hx. simpl. destruct xs; auto.
  destruct x; [contradiction|discriminate].
Qed.

Lemma constructFieldSelection_eq (select : obj) :
  NoDup (keys select) ->
  constructFieldSelection (Some select) =
    match selected select with
    | [] => "*"
    | fields => String.concat ", " (map (fun key => "c." ++ key) fields)
    end.
Proof.
  intros Hnd. unfold constructFieldSelection.
  destruct select as [|kv select']; [reflexivity|].
  change (objectIsEmpty (kv :: select')) with false. cbv iota.
  set (select := kv :: select') in *.
  replace (filter _ (keys select)) with (selected select).
  - destruct (selected select); reflexivity.
  - symmetry. apply (filter_keys select select).
    intros k v Hin. unfold prop. now rewrite (obj_get_In k v select Hnd Hin).
Qed.

End ProjectionFacts.

(** C9. The projection planner maps an absent, empty or all-false [select]
    to the wildcard, otherwise returns exactly the fields whose value is
    [true] in key order, and never returns an empty projection. *)
Theorem C9_projection_planner (select : obj) (Hkeys : NoDup (keys select)) :
  Cosmos.constructFieldSelection None = "*"
  /\ Cosmos.constructFieldSelection (Some []) = "*"
  /\ (Projection.selected select = [] ->
      Cosmos.constructFieldSelection (Some select) = "*")
  /\ (Projection.selected select <> [] ->
      Cosmos.constructFieldSelection (Some select)
      = String.concat ", " (map (fun key => "c." ++ key) (Projection.selected select)))
  /\ Cosmos.constructFieldSelection (Some select) <> EmptyString.
Proof.
  pose proof (ProjectionFacts.constructFieldSelection_eq select Hkeys) as Heq.
  repeat split; try reflexivity.
  - intros Hnone. now rewrite Heq, Hnone.
  - intros Hsome. rewrite Heq. destruct (Projection.selected select); congruence.
  - rewrite Heq. destruct (Projection.selected select) as [|f fs]; [discriminate|].
    apply ProjectionFacts.concat_nonempty. discriminate.
Qed.

Lemma C9_projection_planner_witness :
  NoDup (keys [("firstName", VBool true); ("age", VBool false); ("lastName", VBool true)])
  /\ Cosmos.constructFieldSelection
       (Some [("firstName", VBool true); ("age", VBool false); ("lastName", VBool true)])
     = "c.firstName, c.lastName".
Proof.
  assert (Hnd : NoDup (keys [("firstName", VBool true); ("age", VBool false);
                             ("lastName", VBool true)])).
  { repeat constructor; simpl; intuition discriminate. }
  split; [exact Hnd|].
  destruct (C9_projection_planner _ Hnd) as (_ & _ & _ & Hsel & _).
  apply Hsel. discriminate.
Defined.

(** ** The clause assembler of the SQL-like service *)

Section MapM.
Context {A B : Type}.

Lemma mapM_app (f : A -> result B) (l1 l2 : list A) (r1 r2 : list B) :
  mapM f l1 = Ok r1 -> mapM f l2 = Ok r2 -> mapM f (l1 ++ l2)%list = Ok (r1 ++ r2)%list.
Proof.
  revert r1. induction l1 as [|a l1 IH]; simpl; intros r1 H1 H2.
  - now inversion H1.
  - destruct (f a) as [b|e]; simpl in *; [|discriminate].
    destruct (mapM f l1) as [bs|e]; simpl in *; [|discriminate].
    inversion H1; subst. now rewrite (IH bs eq_refl H2).
Qed.

Lemma mapM_length (f : A -> result B) (l : list A) (r : list B) :
  mapM f l = Ok r -> length r = length l.
Proof.
  revert r. induction l as [|a l IH]; simpl; intros r H.
  - now inversion H.
  - destruct (f a) as [b|e]; simpl in *; [|discriminate].
    destruct (mapM f l) as [bs|e]; simpl in *; [|discriminate].
    inversion H; subst. simpl. now rewrite (IH bs eq_refl).
Qed.

Lemma mapM_map {C : Type} (g : C -> A) (f : A -> result B) (l : list C) :
  mapM f (map g l) = mapM (fun c => f (g c)) l.
Proof.
  induction l as [|c l IH]; simpl; auto. now rewrite IH.
Qed.

Lemma mapM_ext (f g : A -> result B) (l : list A) :
  (forall a, f a = g a) -> mapM f l = mapM g l.
Proof.
  intros Hfg. induction l as [|a l IH]; simpl; auto. now rewrite Hfg, IH.
Qed.

End MapM.

Module AssemblerFacts.
Import Cosmos Assembler.

Lemma append_nonempty (a b : string) : a <> EmptyString -> a ++ b <> EmptyString.
Proof. destruct a; [contradiction|discriminate]. Qed.

(** An operator never compiles to the empty fragment. *)
Lemma createFilter_nonempty field filterKey mode value text :
  filterKey <> op_mode ->
  createFilter field filterKey mode value = Ok text ->
  isNonEmptyString text = true.
Proof.
  intros Hop H.
  assert (Hne : text <> EmptyString).
  { destruct filterKey; simpl in H; try contradiction;
      unfold compare in H;
      repeat match type of H with
             | context [if ?c then _ else _] => destruct c
             | context [renderList ?v] => destruct (renderList v); simpl in H
             end;
      inversion H; discriminate. }
  unfold isNonEmptyString. destruct text; [contradiction|reflexivity].
Qed.

Lemma field_fragments field mode : forall (filters : filter_t) frags,
  mapM (fun '(filterKey, value) => createFilter field filterKey mode value) filters
    = Ok frags ->
  mapM (fun '(filterKey, value) => createFilter field filterKey mode value)
       (filter isOperator filters)
    = Ok (filter isNonEmptyString frags).
Proof.
  induction filters as [|[k v] filters IH]; simpl; intros frags H.
  - now inversion H.
  - destruct (createFilter field k mode v) as [t|e] eqn:Ht; simpl in H; [|discriminate].
    destruct (mapM _ filters) as [ts|e] eqn:Hts; simpl in H; [|discriminate].
    inversion H; subst frags. clear H.
    unfold isOperator at 1. simpl fst.
    destruct (filterKey_eqb k op_mode) eqn:Ek; simpl.
    + destruct k; try discriminate. simpl in Ht. inversion Ht; subst t. simpl.
      now apply IH.
    + assert (Hk : k <> op_mode) by (intros ->; discriminate).
      rewrite Ht. simpl. rewrite (IH ts eq_refl). simpl.
      now rewrite (createFilter_nonempty _ _ _ _ _ Hk Ht).
Qed.

Lemma where_fragments : forall (w : where_t) perField,
  mapM (fun '(field, filters) =>
          let mode := if truthy (filter_get op_mode filters)
                      then filter_get op_mode filters else VStr "SENSITIVE" in
          mapM (fun '(filterKey, value) => createFilter field filterKey mode value)
               filters) w
    = Ok perField ->
  mapM compileEntry (operatorEntries w) = Ok (filter isNonEmptyString (concat perField)).
Proof.
  induction w as [|[field filters] w IH]; simpl; intros perField H.
  - now inversion H.
  - destruct (mapM _ filters) as [frags|e] eqn:Hf; simpl in H; [|discriminate].
    destruct (mapM _ w) as [rest|e] eqn:Hw; simpl in H; [|discriminate].
    inversion H; subst perField. clear H. simpl.
    rewrite filter_app. apply mapM_app.
    + rewrite mapM_map.
      rewrite <- (field_fragments field (modeOf filters) filters frags Hf).
      apply mapM_ext. now intros [k v].
    + now apply IH.
Qed.

(** On the SQL-like service the clause is the conjunction of one fragment
    per operator entry, over all fields, the [mode] entries left out. *)
Lemma where_is_conjunction (w : where_t) (text : string) :
  w <> [] ->
  buildWhereClause (Some w) = Ok text ->
  exists conditions,
    mapM compileEntry (operatorEntries w) = Ok conditions
    /\ length conditions = length (operatorEntries w)
    /\ text = match conditions with
              | [] => EmptyString
              | _ => "WHERE " ++ String.concat " AND " conditions
              end.
Proof.
  intros Hw H. unfold buildWhereClause in H.
  destruct w as [|entry w']; [contradiction|].
  change (objectIsEmpty (entry :: w')) with false in H. cbv iota in H.
  destruct (mapM _ (entry :: w')) as [perField|e] eqn:Hm; simpl in H; [|discriminate].
  pose proof (where_fragments _ _ Hm) as Hc.
  exists (filter isNonEmptyString (concat perField)).
  split; [exact Hc|]. split; [now apply mapM_length in Hc|].
  destruct (filter isNonEmptyString (concat perField)) as [|c cs]; simpl in H.
  - now inversion H.
  - now inversion H.
Qed.

End AssemblerFacts.

(** ** The scan filter of the key-value service *)

Module ScanFilter.
Import Dynamo.

(** Only the first entry of a condition is read. *)
Lemma compileCondition_first_key acc field operator value more :
  compileCondition acc (field, (operator, value) :: more)
  = compileCondition acc (field, [(operator, value)]).
Proof. reflexivity. Qed.

Lemma compileCondition_fragments acc entry acc' :
  compileCondition acc entry = Ok acc' ->
  length (filterExpression acc') = S (length (filterExpression acc)).
Proof.
  destruct entry as [field [|[operator value] more]]; simpl; [discriminate|].
  destruct (isUndefined value); [discriminate|].
  destruct (prepareValue value) as [prepared|e]; simpl; [|discriminate].
  destruct operator; simpl; intros H; inversion H; subst; simpl;
    rewrite length_app; simpl; lia.
Qed.

(** One fragment per field, whatever the number of operator entries. *)
Lemma compileWhere_fragments : forall w acc acc',
  compileWhere acc w = Ok acc' ->
  length (filterExpression acc') = (length (filterExpression acc) + length w)%nat.
Proof.
  induction w as [|entry w IH]; simpl; intros acc acc' H.
  - inversion H; subst. lia.
  - destruct (compileCondition acc entry) as [acc1|e] eqn:E; simpl in H; [|discriminate].
    rewrite (IH _ _ H), (compileCondition_fragments _ _ _ E). lia.
Qed.

(** A condition without operator entries is a failure of [compileCondition]. *)
Lemma compileCondition_no_operator acc field condition :
  filter Assembler.isOperator condition = [] ->
  exists e, compileCondition acc (field, condition) = Throw e.
Proof.
  destruct condition as [|[operator value] more]; simpl; intros Hnone.
  - now exists (InvalidCondition field).
  - unfold Assembler.isOperator in Hnone at 1. simpl in Hnone.
    destruct operator; simpl in Hnone; try discriminate.
    destruct value; simpl; eauto.
Qed.

Lemma compileWhere_throws field condition after :
  (forall acc, exists e, compileCondition acc (field, condition) = Throw e) ->
  forall before acc,
  exists e, compileWhere acc (before ++ (field, condition) :: after)%list = Throw e.
Proof.
  intros Hall. induction before as [|entry before IH]; intros acc;
    cbn [app compileWhere].
  - destruct (Hall acc) as [e ->]. now exists e.
  - destruct (compileCondition acc entry) as [acc1|e]; cbn [rbind]; [|now exists e].
    apply IH.
Qed.

(** A condition that [compileCondition] refuses makes [findMany] fail
    before any command is sent. *)
Lemma findMany_throws options (args : FindManyArgs) field condition before after w :
  (forall acc, exists e, compileCondition acc (field, condition) = Throw e) ->
  where_ args = Some (before ++ (field, condition) :: after)%list ->
  exists e, findMany options args w = (Throw e, w).
Proof.
  intros Hall Hw.
  assert (Hs : exists e, scanParams options args = Throw e).
  { unfold scanParams. rewrite Hw.
    destruct (match take args with Some _ => _ | None => _ end); [eauto|].
    destruct (decodeCursor (nextCursor args)); cbn [rbind]; [|eauto].
    assert (Hlen : (0 <? length (@keys filter_t (before ++ (field, condition) :: after)%list))%nat
                   = true).
    { unfold keys. rewrite length_map, length_app. simpl. apply Nat.ltb_lt. lia. }
    rewrite Hlen.
    destruct (compileWhere_throws field condition after Hall before emptyFilter) as [e He].
    match goal with
    | |- context [compileWhere ?a ?b] =>
        replace (compileWhere a b) with (@Throw Filter e) by (symmetry; exact He)
    end.
    cbn [rbind]. eauto. }
  destruct Hs as [e He]. exists e.
  unfold findMany, bind, lift. now rewrite He.
Qed.

End ScanFilter.

(** C1. For the condition [{lte: 10, notIn: [1, 2, 3]}] the SQL-like service
    joins two fragments with AND; the key-value service compiles the first
    operator entry only, and its revision with field selection compiles
    none. *)
Theorem C1_key_value_first_operator_only :
  let w := [("age", [(op_lte, VNum 10); (op_notIn, VArr [VNum 1; VNum 2; VNum 3])])] in
  Cosmos.buildWhereClause (Some w) = Ok "WHERE c.age <= 10 AND c.age NOT IN (1, 2, 3)"
  /\ Dynamo.scanParams users (whereOnly w)
     = Ok {| Dynamo.TableName := "Users";
             Dynamo.Limit := hundred;
             Dynamo.ExclusiveStartKey := None;
             Dynamo.FilterExpression := Some "#age <= :val0";
             Dynamo.ExpressionAttributeNames := Some [("#age", "age")];
             Dynamo.ExpressionAttributeValues := Some [(":val0", Dynamo.AttrN "10")];
             Dynamo.ProjectionExpression := None |}
  /\ Dynamo2.scanParams users (whereOnly w)
     = Ok {| Dynamo.TableName := "Users";
             Dynamo.Limit := hundred;
             Dynamo.ExclusiveStartKey := None;
             Dynamo.FilterExpression := None;
             Dynamo.ExpressionAttributeNames := None;
             Dynamo.ExpressionAttributeValues := Some [];
             Dynamo.ProjectionExpression := None |}.
Proof. repeat split; reflexivity. Qed.

(** ** Validation of [take] *)

Module Take.

(** The SQL-like service rejects every [take] that is not a positive
    integer, and issues no request. *)
Lemma cosmos_invalid_take (args : Cosmos.FindManyArgs) (t : number) (w : CosmosModel.World) :
  Cosmos.take args = Some t -> positive_integer t = false ->
  CosmosModel.findMany args w = (Throw InvalidTake, w).
Proof.
  intros Ht Hp. unfold CosmosModel.findMany. now rewrite Ht, Hp.
Qed.

(** Without [take] the SQL-like service asks for pages of 100. *)
Lemma cosmos_default_page (args : Cosmos.FindManyArgs) (w : CosmosModel.World) text :
  Cosmos.take args = None -> Cosmos.buildQueryFindMany args = Ok text ->
  CosmosModel.requests (snd (CosmosModel.findMany args w))
  = (CosmosModel.requests w
     ++ [CosmosModel.QueryRequest text
           {| CosmosModel.continuationToken := Cosmos.nextCursor args;
              CosmosModel.maxItemCount := hundred |}])%list.
Proof.
  intros Ht Hq. unfold CosmosModel.findMany, bind, lift, CosmosModel.query.
  rewrite Ht, Hq. simpl.
  destruct (CosmosModel.engine w _ _ _) as [response|]; simpl; auto.
  destruct (CosmosModel.resources response); reflexivity.
Qed.

(** The key-value service rejects a truthy [take] that is not a positive
    integer, and sends no command. *)
Lemma dynamo_invalid_truthy_take options (args : Dynamo.FindManyArgs) (t : number)
    (w : Dynamo.World) :
  Dynamo.take args = Some t -> number_truthy t = true -> positive_integer t = false ->
  Dynamo.findMany options args w = (Throw InvalidTake, w).
Proof.
  intros Ht Htr Hp. unfold Dynamo.findMany, bind, lift, Dynamo.scanParams.
  now rewrite Ht, Htr, Hp.
Qed.

Lemma dynamo_default_page options (args : Dynamo.FindManyArgs) params :
  Dynamo.take args = None -> Dynamo.scanParams options args = Ok params ->
  Dynamo.Limit params = hundred.
Proof.
  unfold Dynamo.scanParams. intros ->. simpl rbind.
  destruct (Dynamo.decodeCursor (Dynamo.nextCursor args)); simpl; [|discriminate].
  destruct (match Dynamo.where_ args with Some _ => _ | None => _ end);
    simpl; [|discriminate].
  intros H. inversion H. reflexivity.
Qed.

End Take.

(** C5. With [take = 0] the key-value service does not fail: zero is falsy,
    the validation is skipped, and a scan with limit 0 is sent. *)
Theorem C5_key_value_take_zero (options : Dynamo.ModelOptions) (w : Dynamo.World) :
  fst (Dynamo.findMany options (takeOnly (Some (Finite 0))) w) <> Throw InvalidTake
  /\ Dynamo.sent (snd (Dynamo.findMany options (takeOnly (Some (Finite 0))) w))
     = (Dynamo.sent w
        ++ [Dynamo.ScanCommand
              {| Dynamo.TableName := Dynamo.tableName options;
                 Dynamo.Limit := Finite 0;
                 Dynamo.ExclusiveStartKey := None;
                 Dynamo.FilterExpression := None;
                 Dynamo.ExpressionAttributeNames := None;
                 Dynamo.ExpressionAttributeValues := None;
                 Dynamo.ProjectionExpression := None |}])%list
  /\ CosmosModel.findMany
       {| Cosmos.where_ := None; Cosmos.take := Some (Finite 0);
          Cosmos.nextCursor := None; Cosmos.select := None; Cosmos.orderBy := None |}
     = throw InvalidTake.
Proof.
  unfold Dynamo.findMany, bind, lift, Dynamo.send. simpl.
  repeat split; destruct (Dynamo.service w _); simpl; congruence.
Qed.

(** ** Update on the SQL-like service *)

(** C2. Updating the age of a stored record that also has a first name:
    the existence check fetches the id column only, the payload is merged
    over that, and the replaced document has lost the first name. An absent
    id is refused. *)
Theorem C2_update_drops_unfetched_fields :
  fst (CosmosModel.update "1" [("age", VNum 31)] store)
  = Ok [("id", VStr "1"); ("age", VNum 31)]
  /\ CosmosModel.container (snd (CosmosModel.update "1" [("age", VNum 31)] store))
     = [[("id", VStr "1"); ("age", VNum 31)]]
  /\ CosmosModel.requests (snd (CosmosModel.update "1" [("age", VNum 31)] store))
     = [CosmosModel.QueryRequest "SELECT c.id FROM c WHERE c.id = '1'"
          {| CosmosModel.continuationToken := None; CosmosModel.maxItemCount := Finite 1 |};
        CosmosModel.ReplaceRequest "1" "1" [("id", VStr "1"); ("age", VNum 31)]]
  /\ fst (CosmosModel.update "2" [("age", VNum 31)] store) = Throw UpdateTargetMissing.
Proof. repeat split; vm_compute; reflexivity. Qed.

(** ** The revision with field selection reads [contains] only *)

Module SelectionFilter.
Import Dynamo Dynamo2.

Lemma filter_get_other (operator : filterKey) (v : value) (pre post : filter_t) :
  operator <> op_contains ->
  filter_get op_contains (pre ++ (operator, v) :: post)%list
  = filter_get op_contains (pre ++ post)%list.
Proof.
  intros H. induction pre as [|[k x] pre IH]; cbn [app filter_get].
  - destruct operator; try reflexivity. now elim H.
  - now rewrite IH.
Qed.

(** An entry of a condition other than [contains] changes nothing in what
    [parseWhereClause] compiles. *)
Lemma parseWhereClause_ignores field operator v pre post before after :
  operator <> op_contains ->
  parseWhereClause (Some (before ++ (field, pre ++ (operator, v) :: post) :: after)%list)
  = parseWhereClause (Some (before ++ (field, pre ++ post) :: after)%list).
Proof.
  intros H. unfold parseWhereClause.
  rewrite !fold_left_app. cbn [fold_left].
  destruct (fold_left _ before _) as [[fragments names] values].
  now rewrite (filter_get_other operator v pre post H).
Qed.

(** [findMany] depends on the where clause through [parseWhereClause]
    only. *)
Lemma findMany_where options args w1 w2 :
  parseWhereClause (Some w1) = parseWhereClause (Some w2) ->
  Dynamo2.findMany options (Selection.withWhere w1 args)
  = Dynamo2.findMany options (Selection.withWhere w2 args).
Proof.
  intros H. unfold Dynamo2.findMany, Dynamo2.scanParams.
  cbn [Selection.withWhere where_ take nextCursor select orderBy].
  now rewrite H.
Qed.

End SelectionFilter.

(** ** The suffix test *)

(** C3, as stated, fails: on the SQL-like service [endsWith] is a LIKE
    pattern, not the CONTAINS primitive that [contains] compiles to; and
    the revision of the key-value service with field selection compiles
    [contains] but nothing for [endsWith]. *)
Lemma C3_sql_endsWith_is_not_contains :
  Cosmos.createFilter "firstName" op_endsWith (VStr "SENSITIVE") (VStr "lyn")
  = Ok "c.firstName LIKE '%lyn'"
  /\ Cosmos.createFilter "firstName" op_contains (VStr "SENSITIVE") (VStr "lyn")
     = Ok "CONTAINS(c.firstName, 'lyn')"
  /\ Cosmos.createFilter "firstName" op_endsWith (VStr "SENSITIVE") (VStr "lyn")
     <> Cosmos.createFilter "firstName" op_contains (VStr "SENSITIVE") (VStr "lyn")
  /\ Dynamo2.filterExpression
       (Dynamo2.parseWhereClause (Some [("firstName", [(op_contains, VStr "lyn")])]))
     = Some "contains(#firstName, :firstNameVal)"
  /\ Dynamo2.filterExpression
       (Dynamo2.parseWhereClause (Some [("firstName", [(op_endsWith, VStr "lyn")])]))
     = None.
Proof. repeat split; try reflexivity. discriminate. Qed.

(** C3, amended. On the key-value service the first revision compiles a
    condition whose first operator is [endsWith] to the contains primitive,
    as it compiles [contains], and the revision with field selection
    compiles nothing for [endsWith]: the entry is ignored. On the SQL-like
    service [endsWith] in the sensitive mode is a LIKE pattern with a
    leading wildcard, and the where clause of the example is the
    insensitive prefix test joined by AND with the fragment compiled for
    [endsWith]. *)
Theorem C3_endsWith_compiled :
  (forall acc field operand more,
     Dynamo.compileCondition acc (field, (op_endsWith, VStr operand) :: more)
     = Dynamo.compileCondition acc (field, [(op_contains, VStr operand)])
     /\ exists acc',
          Dynamo.compileCondition acc (field, (op_endsWith, VStr operand) :: more) = Ok acc'
          /\ Dynamo.filterExpression acc'
             = app (Dynamo.filterExpression acc)
                   ["contains(#" ++ field ++ ", :val"
                    ++ Dynamo.decimal (Dynamo.placeholderCounter acc) ++ ")"])
  /\ (forall options args field operand pre post before after,
        Dynamo2.findMany options
          (Selection.withWhere
             (before ++ (field, pre ++ (op_endsWith, VStr operand) :: post) :: after)%list
             args)
        = Dynamo2.findMany options
            (Selection.withWhere (before ++ (field, pre ++ post) :: after)%list args))
  /\ (forall field operand mode,
        Cosmos.insensitive mode = false ->
        Cosmos.createFilter field op_endsWith mode (VStr operand)
        = Ok ("c." ++ field ++ " LIKE '%" ++ operand ++ "'"))
  /\ (exists suffixTest,
        Cosmos.createFilter "firstName" op_endsWith (VStr "INSENSITIVE") (VStr "lyn")
        = Ok suffixTest
        /\ Cosmos.buildWhereClause
             (Some [("firstName", [(op_startsWith, VStr "Sa"); (op_endsWith, VStr "lyn");
                                   (op_mode, VStr "INSENSITIVE")])])
           = Ok ("WHERE STARTSWITH(LOWER(c.firstName), LOWER('Sa')) AND " ++ suffixTest)).
Proof.
  split; [|split; [|split]].
  - intros acc field operand more. split; [reflexivity|].
    eexists. split; reflexivity.
  - intros options args field operand pre post before after.
    apply SelectionFilter.findMany_where, SelectionFilter.parseWhereClause_ignores.
    discriminate.
  - intros field operand mode Hm. simpl. now rewrite Hm.
  - eexists. split; reflexivity.
Qed.

Lemma C3_endsWith_compiled_witness :
  Cosmos.insensitive (VStr "SENSITIVE") = false
  /\ Cosmos.createFilter "lastName" op_endsWith (VStr "SENSITIVE") (VStr "z")
     = Ok "c.lastName LIKE '%z'".
Proof.
  split; [reflexivity|].
  exact (proj1 (proj2 (proj2 C3_endsWith_compiled)) "lastName" "z" (VStr "SENSITIVE") eq_refl).
Defined.

(** ** Set membership *)

(** C6, as stated, fails: the key-value service has no [in]; the scan of
    its first revision refuses the array operand, and the scan of the
    revision with field selection carries no filter for it. And on the
    SQL-like service an [undefined] operand is rendered, not refused. *)
Lemma C6_key_value_has_no_in :
  Dynamo.scanParams users (whereOnly [("age", [(op_in, VArr [VNum 25; VNum 30; VNum 35])])])
  = Throw UnsupportedValueType
  /\ Cosmos.buildWhereClause (Some [("age", [(op_in, VUndefined)])])
     = Ok "WHERE c.age IN (undefined)"
  /\ Dynamo2.scanParams users
       (whereOnly [("age", [(op_in, VArr [VNum 25; VNum 30; VNum 35])])])
     = Ok {| Dynamo.TableName := "Users"; Dynamo.Limit := hundred;
             Dynamo.ExclusiveStartKey := None; Dynamo.FilterExpression := None;
             Dynamo.ExpressionAttributeNames := None;
             Dynamo.ExpressionAttributeValues := Some [];
             Dynamo.ProjectionExpression := None |}.
Proof. repeat split; reflexivity. Qed.

(** C6, amended. On the SQL-like service [in] and [notIn] compile to a
    parenthesized, comma-joined list of literals quoted as [equals] quotes
    them, the example renders [c.age IN (25, 30, 35)], and a string, number
    or boolean operand is a runtime type error. The key-value service has
    neither: in the first revision a condition whose first operator is [in]
    or [notIn] makes [findMany] fail before any command is sent, and in the
    revision with field selection the entry is ignored, so that [findMany]
    does what it does without it. *)
Theorem C6_in_notIn_compiled :
  (forall field mode v,
     Cosmos.createFilter field op_equals mode v
     = Ok ("c." ++ field ++ " = " ++ Membership.literal v))
  /\ (forall field mode items,
        Cosmos.createFilter field op_in mode (VArr items)
        = Ok ("c." ++ field ++ " IN ("
              ++ String.concat ", " (map Membership.literal items) ++ ")")
        /\ Cosmos.createFilter field op_notIn mode (VArr items)
           = Ok ("c." ++ field ++ " NOT IN ("
                 ++ String.concat ", " (map Membership.literal items) ++ ")"))
  /\ Cosmos.buildWhereClause (Some [("age", [(op_in, VArr [VNum 25; VNum 30; VNum 35])])])
     = Ok "WHERE c.age IN (25, 30, 35)"
  /\ (forall field mode v,
        Membership.scalar v = true ->
        Cosmos.createFilter field op_in mode v = Throw TypeError
        /\ Cosmos.createFilter field op_notIn mode v = Throw TypeError)
  /\ (forall options args w field operator v more before after,
        Membership.membership operator = true ->
        Dynamo.where_ args = Some (before ++ (field, (operator, v) :: more) :: after)%list ->
        exists e, Dynamo.findMany options args w = (Throw e, w))
  /\ (forall options args field operator v pre post before after,
        Membership.membership operator = true ->
        Dynamo2.findMany options
          (Selection.withWhere
             (before ++ (field, pre ++ (operator, v) :: post) :: after)%list args)
        = Dynamo2.findMany options
            (Selection.withWhere (before ++ (field, pre ++ post) :: after)%list args)).
Proof.
  split; [|split; [|split; [|split; [|split]]]].
  - intros field mode v. simpl. unfold Cosmos.compare, Membership.literal.
    destruct (isBoolean v || isNumber v); reflexivity.
  - intros field mode items. split; reflexivity.
  - reflexivity.
  - intros field mode v Hv. destruct v; try discriminate; split; reflexivity.
  - intros options args w field operator v more before after Hop.
    apply ScanFilter.findMany_throws. intros acc.
    destruct operator; try discriminate; destruct v; simpl; eauto.
  - intros options args field operator v pre post before after Hop.
    apply SelectionFilter.findMany_where, SelectionFilter.parseWhereClause_ignores.
    intros ->. discriminate.
Qed.

Lemma C6_in_notIn_compiled_witness :
  Membership.scalar (VStr "Alice") = true
  /\ Cosmos.createFilter "firstName" op_notIn (VStr "SENSITIVE") (VStr "Alice")
     = Throw TypeError.
Proof.
  split; [reflexivity|].
  exact (proj2 (proj1 (proj2 (proj2 (proj2 C6_in_notIn_compiled)))
                  "firstName" (VStr "SENSITIVE") (VStr "Alice") eq_refl)).
Defined.

(** ** A condition without operator entries *)

Module NoOperator.
Import Assembler.

Lemma buildWhereClause_eq (w : where_t) :
  Cosmos.buildWhereClause (Some w)
  = if objectIsEmpty w then Ok EmptyString
    else rbind (mapM perField w)
               (fun fragments => clauseOf (filter isNonEmptyString (concat fragments))).
Proof. reflexivity. Qed.

Lemma mapM_middle {A B : Type} (f : A -> result B) (a : A) (b : B) :
  f a = Ok b ->
  forall before after,
  mapM f (before ++ a :: after)%list
  = rbind (mapM f before)
      (fun rb => rbind (mapM f after) (fun ra => Ok (rb ++ b :: ra)%list)).
Proof.
  intros Ha. induction before as [|x before IH]; intros after; simpl.
  - rewrite Ha. simpl. now destruct (mapM f after).
  - destruct (f x); simpl; auto. rewrite IH.
    destruct (mapM f before); simpl; auto.
    now destruct (mapM f after).
Qed.

Lemma mapM_app_eq {A B : Type} (f : A -> result B) :
  forall before after,
  mapM f (before ++ after)%list
  = rbind (mapM f before)
      (fun rb => rbind (mapM f after) (fun ra => Ok (rb ++ ra)%list)).
Proof.
  induction before as [|x before IH]; intros after; simpl.
  - now destruct (mapM f after).
  - destruct (f x); simpl; auto. rewrite IH.
    destruct (mapM f before); simpl; auto.
    now destruct (mapM f after).
Qed.

(** Every entry of such a condition is a [mode] entry and compiles to the
    empty fragment. *)
Lemma empty_fragments field mode : forall condition : filter_t,
  filter isOperator condition = [] ->
  mapM (fun '(filterKey, value) => Cosmos.createFilter field filterKey mode value) condition
  = Ok (map (fun _ => EmptyString) condition).
Proof.
  induction condition as [|[k v] condition IH]; simpl; intros H; auto.
  unfold isOperator in H at 1. simpl in H.
  destruct k; simpl in H; try discriminate.
  simpl. now rewrite (IH H).
Qed.

Lemma filter_empties {A : Type} (l : list A) :
  filter isNonEmptyString (map (fun _ => EmptyString) l) = [].
Proof. induction l; simpl; auto. Qed.

Lemma no_contains : forall condition : filter_t,
  filter isOperator condition = [] -> filter_get op_contains condition = VUndefined.
Proof.
  induction condition as [|[k v] condition IH]; simpl; intros H; auto.
  unfold isOperator in H at 1. simpl in H.
  destruct k; simpl in H; try discriminate. now apply IH.
Qed.

(** The SQL-like service compiles the clause as if the field were absent. *)
Lemma sql_skips field condition before after :
  filter isOperator condition = [] ->
  Cosmos.buildWhereClause (Some (before ++ (field, condition) :: after)%list)
  = Cosmos.buildWhereClause (Some (before ++ after)%list).
Proof.
  intros H. rewrite !buildWhereClause_eq.
  assert (Hf : perField (field, condition) = Ok (map (fun _ => EmptyString) condition))
    by (apply empty_fragments; exact H).
  rewrite (mapM_middle perField _ _ Hf), mapM_app_eq.
  assert (Hne : @objectIsEmpty filter_t (before ++ (field, condition) :: after)%list = false)
    by (destruct before; reflexivity).
  rewrite Hne.
  destruct (mapM perField before) as [rb|e] eqn:Hb; simpl.
  - destruct (mapM perField after) as [ra|e] eqn:Ha; simpl.
    + rewrite !concat_app. simpl. rewrite !filter_app, filter_empties. simpl.
      destruct (@objectIsEmpty filter_t (before ++ after)%list) eqn:Hempty; auto.
      destruct before; [|discriminate]. destruct after; [|discriminate].
      simpl in Hb, Ha. inversion Hb. inversion Ha. reflexivity.
    + destruct (@objectIsEmpty filter_t (before ++ after)%list) eqn:Hempty; auto.
      destruct before; [|discriminate]. destruct after; discriminate.
  - destruct (@objectIsEmpty filter_t (before ++ after)%list) eqn:Hempty; auto.
    destruct before; discriminate.
Qed.

(** The key-value service fails, and sends nothing. *)
Lemma key_value_throws options (args : Dynamo.FindManyArgs) field condition before after w :
  filter isOperator condition = [] ->
  Dynamo.where_ args = Some (before ++ (field, condition) :: after)%list ->
  exists e, Dynamo.findMany options args w = (Throw e, w).
Proof.
  intros H. apply ScanFilter.findMany_throws.
  intros acc. now apply ScanFilter.compileCondition_no_operator.
Qed.

(** The revision with field selection compiles the clause as if the field
    were absent. *)
Lemma key_value_selection_skips field condition before after :
  filter isOperator condition = [] ->
  Dynamo2.parseWhereClause (Some (before ++ (field, condition) :: after)%list)
  = Dynamo2.parseWhereClause (Some (before ++ after)%list).
Proof.
  intros H. unfold Dynamo2.parseWhereClause.
  rewrite !fold_left_app. cbn [fold_left].
  destruct (fold_left _ before _) as [[fragments names] values].
  now rewrite (no_contains condition H).
Qed.

End NoOperator.

(** C4, as stated, fails: the SQL-like service does not fail on a field
    whose condition has no operator entry; it compiles no fragment, here no
    clause at all. *)
Lemma C4_sql_skips_condition_without_operator :
  filter Assembler.isOperator [] = []
  /\ Cosmos.buildWhereClause (Some [("age", [])]) = Ok EmptyString
  /\ Cosmos.buildQueryFindMany
       {| Cosmos.where_ := Some [("age", [(op_mode, VStr "INSENSITIVE")])];
          Cosmos.take := None; Cosmos.nextCursor := None;
          Cosmos.select := None; Cosmos.orderBy := None |}
     = Ok "SELECT * FROM c"
  /\ Dynamo.scanParams users (whereOnly [("age", [])]) = Throw (InvalidCondition "age").
Proof. repeat split; reflexivity. Qed.

(** C4, amended. A field whose condition has no operator entry is skipped
    without error by the SQL-like service (the clause is the one compiled
    without the field), makes [findMany] of the key-value service fail
    before any command is sent, and is skipped by the where clause parser of
    the key-value revision with field selection. *)
Theorem C4_condition_without_operator (field : string) (condition : filter_t)
    (before after : where_t)
    (Hnone : filter Assembler.isOperator condition = []) :
  Cosmos.buildWhereClause (Some (before ++ (field, condition) :: after)%list)
  = Cosmos.buildWhereClause (Some (before ++ after)%list)
  /\ (forall options args w,
        Dynamo.where_ args = Some (before ++ (field, condition) :: after)%list ->
        exists e, Dynamo.findMany options args w = (Throw e, w))
  /\ Dynamo2.parseWhereClause (Some (before ++ (field, condition) :: after)%list)
     = Dynamo2.parseWhereClause (Some (before ++ after)%list).
Proof.
  split; [|split].
  - now apply NoOperator.sql_skips.
  - intros options args w Hw. now apply (NoOperator.key_value_throws _ _ _ _ _ _ _ Hnone Hw).
  - now apply NoOperator.key_value_selection_skips.
Qed.

Lemma C4_condition_without_operator_witness :
  filter Assembler.isOperator [(op_mode, VStr "INSENSITIVE")] = []
  /\ Cosmos.buildWhereClause
       (Some [("age", [(op_gt, VNum 30)]); ("firstName", [(op_mode, VStr "INSENSITIVE")])])
     = Cosmos.buildWhereClause (Some [("age", [(op_gt, VNum 30)])]).
Proof.
  split; [reflexivity|].
  exact (proj1 (C4_condition_without_operator "firstName" [(op_mode, VStr "INSENSITIVE")]
                  [("age", [(op_gt, VNum 30)])] [] eq_refl)).
Defined.

(** ** Strings *)

Lemma append_assoc (a b c : string) : (a ++ b) ++ c = a ++ (b ++ c).
Proof. induction a as [|x a IH]; simpl; auto. now rewrite IH. Qed.

Lemma all_chars_append (p : ascii -> bool) (a b : string) :
  all_chars p (a ++ b) = all_chars p a && all_chars p b.
Proof.
  induction a as [|x a IH]; simpl; auto. rewrite IH. now rewrite andb_assoc.
Qed.

(** ** Generated identifiers satisfy the identifier rule *)

Module Identifier.

Lemma hex_digit_nonspace (n : N) : is_space (hex_digit n) = false.
Proof.
  unfold hex_digit. destruct (n mod 16)%N as [|p]; [reflexivity|].
  do 4 (destruct p as [p|p|]; try reflexivity).
Qed.

Lemma hex_nonspace : forall k n, all_chars (fun c => negb (is_space c)) (hex k n) = true.
Proof.
  induction k as [|k IH]; intros n; simpl; auto.
  rewrite all_chars_append, IH. simpl. now rewrite hex_digit_nonspace.
Qed.

Lemma nonspace_append (a b : string) :
  a <> EmptyString ->
  all_chars (fun c => negb (is_space c)) a = true ->
  all_chars (fun c => negb (is_space c)) b = true ->
  IdSchema (a ++ b) = true.
Proof.
  intros Ha Hca Hcb. destruct a as [|x a]; [contradiction|].
  unfold IdSchema, nonspace. cbn [append String.length Nat.leb andb].
  change (all_chars (fun c => negb (is_space c)) (String x a ++ b) = true).
  now rewrite all_chars_append, Hca, Hcb.
Qed.

Lemma hex_nonempty k n : hex (S k) n <> EmptyString.
Proof. simpl. destruct (hex k (n / 16)); discriminate. Qed.

(** Every generated UUID is a non-empty string without white space. *)
Lemma uuid_valid (bits : N) : IdSchema (uuid bits) = true.
Proof.
  unfold uuid. apply nonspace_append.
  - apply hex_nonempty.
  - apply hex_nonspace.
  - repeat (rewrite all_chars_append || rewrite hex_nonspace
            || rewrite hex_digit_nonspace || cbn [all_chars is_space andb negb]).
    reflexivity.
Qed.

End Identifier.

(** ** Creation on the key-value service *)

Module CreationFacts.
Import Dynamo Creation.

Lemma marshallable_obj_get (k : string) (v : value) : forall o : obj,
  Marshalling.accepted o = true -> obj_get k o = Some v ->
  Marshalling.marshallable v = true.
Proof.
  induction o as [|[k' v'] o IH]; cbn [Marshalling.accepted forallb obj_get snd];
    intros Hacc Hget; [discriminate|].
  apply andb_true_iff in Hacc. destruct Hacc as [Hv Ho].
  destruct (k' =? k); [now inversion Hget; subst|now apply IH].
Qed.

Lemma accepted_obj_set (k : string) (v : value) : forall o : obj,
  Marshalling.marshallable v = true -> Marshalling.accepted o = true ->
  Marshalling.accepted (obj_set k v o) = true.
Proof.
  induction o as [|[k' v'] o IH]; cbn [Marshalling.accepted forallb obj_set snd];
    intros Hv Ho.
  - now rewrite Hv.
  - apply andb_true_iff in Ho. destruct Ho as [Hv' Ho].
    destruct (k' =? k); cbn [forallb snd].
    + now rewrite Hv.
    + rewrite Hv'. now apply IH.
Qed.

(** Spreading accepted objects gives an accepted object. *)
Lemma accepted_spread : forall src o : obj,
  Marshalling.accepted o = true -> Marshalling.accepted src = true ->
  Marshalling.accepted (spread o src) = true.
Proof.
  unfold spread. induction src as [|[k v] src IH]; intros o Ho Hsrc; cbn [fold_left fst snd].
  - exact Ho.
  - cbn [Marshalling.accepted forallb snd] in Hsrc.
    apply andb_true_iff in Hsrc. destruct Hsrc as [Hv Hsrc].
    apply IH; [now apply accepted_obj_set|exact Hsrc].
Qed.

(** [marshall] accepts the item that [create] builds from a payload that it
    accepts: the key fields and the stamps are strings, or the payload's
    own id. *)
Lemma accepted_createdItem options data w :
  Marshalling.accepted data = true ->
  Marshalling.accepted (createdItem options data w) = true.
Proof.
  intros Hdata.
  assert (Hkey : forall n, Marshalling.marshallable (keyValue data w n) = true).
  { intros n. unfold keyValue, prop.
    destruct (obj_get "id" data) as [v|] eqn:Hget; [|reflexivity].
    destruct (truthy v); [|reflexivity].
    exact (marshallable_obj_get "id" v data Hdata Hget). }
  unfold createdItem. repeat apply accepted_spread; try assumption.
  - cbn. now rewrite Hkey.
  - unfold sortPart. destruct (this_sortKey options); cbn; [now rewrite Hkey|reflexivity].
  - unfold stamps. destruct (auto_timestamp (this_fields options)); reflexivity.
Qed.

Lemma create_returns options data w :
  data <> [] ->
  Marshalling.accepted data = true ->
  (forall c, service w c <> Rejected) ->
  exists w',
    create options data w = (Ok (createdItem options data w), w')
    /\ draws w' = (drawn options data + draws w)%nat
    /\ sent w' = (sent w ++ [PutItemCommand (tableName options) (createdItem options data w)])%list.
Proof.
  intros Hdata Hvalues Haccept.
  pose proof (accepted_createdItem options data w Hvalues) as Hacc.
  unfold create, createdItem, sortPart, stamps, keyValue, drawn in *.
  destruct data as [|entry data']; [contradiction|].
  change (objectIsEmpty (entry :: data')) with false. cbv iota.
  set (data := entry :: data') in *.
  unfold bind, ret, randomUUID, now, send.
  destruct (truthy (prop "id" data)); destruct (this_sortKey options);
    destruct (auto_timestamp (this_fields options));
    cbn -[spread prop uuid Marshalling.accepted] in *;
    rewrite Hacc; cbn -[spread prop uuid Marshalling.accepted];
    match goal with
    | |- context [service w ?c] =>
        pose proof (Haccept c) as Hc; destruct (service w c);
        [ | | contradiction ]
    end;
    eexists; repeat split.
Qed.

Lemma obj_get_none_absent {A : Type} (k : string) (o : dict A) :
  obj_get k o = None -> ~ In k (keys o).
Proof.
  induction o as [|[k' v'] o IH]; simpl; intros H; auto.
  destruct (k' =? k) eqn:E; [discriminate|].
  intros [Heq|Hin]; [|now apply IH].
  subst. now rewrite String.eqb_refl in E.
Qed.

Lemma stamps_keys options w k :
  In k (keys (stamps options w)) -> k = "createdAt" \/ k = "updatedAt".
Proof.
  unfold stamps. destruct (auto_timestamp _); simpl; intuition.
Qed.

Lemma stamps_nodup options w : NoDup (keys (stamps options w)).
Proof.
  unfold stamps. destruct (auto_timestamp _); simpl; repeat constructor; simpl;
    intuition discriminate.
Qed.

(** A field that neither the payload nor the stamps define keeps the value
    the key part gave it. *)
Lemma createdItem_key options data w k :
  ~ In k (keys data) -> ~ In k (keys (stamps options w)) ->
  obj_get k (createdItem options data w)
  = obj_get k (spread [(partitionKey options, keyValue data w 0)] (sortPart options data w)).
Proof.
  intros Hd Hs. unfold createdItem.
  now rewrite (obj_get_spread_absent k _ _ Hs), (obj_get_spread_absent k _ _ Hd).
Qed.

Lemma obj_get_some_in {A : Type} (k : string) (v : A) (o : dict A) :
  obj_get k o = Some v -> In k (keys o).
Proof.
  induction o as [|[k' v'] o IH]; simpl; intros H; [discriminate|].
  destruct (k' =? k) eqn:E.
  - apply String.eqb_eq in E. now left.
  - right. now apply IH.
Qed.

(** With the partition key named [id], the created item has a generated,
    valid id when the payload has none, and the payload's id otherwise. *)
Lemma create_id options data w :
  data <> [] ->
  NoDup (keys data) ->
  partitionKey options = "id" ->
  this_sortKey options <> Some "id" ->
  (forall c, service w c <> Rejected) ->
  Marshalling.accepted data = true ->
  exists item w',
    create options data w = (Ok item, w')
    /\ (obj_get "id" data = None ->
        prop "id" item = VStr (uuid (entropy w (draws w)))
        /\ IdSchema (uuid (entropy w (draws w))) = true)
    /\ (forall v, obj_get "id" data = Some v -> prop "id" item = v).
Proof.
  intros Hdata Hnd Hpk Hsk Haccept Hvalues.
  destruct (create_returns options data w Hdata Hvalues Haccept) as (w' & Hc & _).
  exists (createdItem options data w), w'. split; [exact Hc|].
  assert (Hstamp : ~ In "id" (keys (stamps options w))).
  { intros Hin. destruct (stamps_keys _ _ _ Hin); discriminate. }
  split.
  - intros Hnone. split; [|apply Identifier.uuid_valid].
    unfold prop. rewrite createdItem_key; auto using obj_get_none_absent.
    rewrite obj_get_spread_absent.
    + rewrite Hpk. simpl. unfold keyValue, prop. now rewrite Hnone.
    + unfold sortPart. destruct (this_sortKey options) as [sk|]; simpl; [|tauto].
      intros [->|[]]. now apply Hsk.
  - intros v Hsome. unfold prop, createdItem.
    rewrite (obj_get_spread_absent _ _ _ Hstamp).
    rewrite obj_get_spread_present; eauto using obj_get_some_in.
    now rewrite Hsome.
Qed.

End CreationFacts.

(** C8. Creating [{firstName: "Bob"}] with the default automatic fields:
    the SQL-like service hands the payload to the store and stamps nothing,
    so the entity has neither [createdAt] nor [updatedAt]; the key-value
    service reads the clock once for each stamp, so the two stamps differ
    when the clock advances between the readings. *)
Theorem C8_create_stamps_absent_or_different :
  fst (CosmosModel.create [("firstName", VStr "Bob")] store)
  = Ok [("firstName", VStr "Bob"); ("id", VStr "00000000-0000-4000-8000-000000000000")]
  /\ fst (Dynamo.create users [("firstName", VStr "Bob")]
            {| Dynamo.entropy := fun n => N.of_nat n; Dynamo.draws := 0;
               Dynamo.clock := fun n => if (n =? 0)%nat then "2024-01-01T00:00:00.000Z"
                                        else "2024-01-01T00:00:00.001Z";
               Dynamo.reads := 0;
               Dynamo.service := fun _ => Dynamo.PutReply;
               Dynamo.sent := [] |})
     = Ok [("id", VStr "00000000-0000-4000-8000-000000000000");
           ("firstName", VStr "Bob");
           ("createdAt", VStr "2024-01-01T00:00:00.000Z");
           ("updatedAt", VStr "2024-01-01T00:00:00.001Z")].
Proof. split; vm_compute; reflexivity. Qed.

(** A field of the created item that is one of the stamps holds the
    stamp. *)
Lemma createdItem_stamp options data w k :
  In k (keys (Creation.stamps options w)) ->
  prop k (Creation.createdItem options data w) = prop k (Creation.stamps options w).
Proof.
  intros Hin. unfold prop, Creation.createdItem.
  now rewrite (obj_get_spread_present k _ _ (CreationFacts.stamps_nodup options w) Hin).
Qed.

(** C10. With a sort key configured and a payload without a truthy id (one
    that the attribute encoding accepts and that defines neither key field),
    [create] draws two UUIDs, the first for the partition key field and the
    second for the sort key field, and sends one put command with the item
    it returns; in that item a key field holds its UUID unless it is one of
    the automatic stamps, which then holds the reading of the clock; and
    there is a world in which the two key fields of the item that is sent
    differ. *)
Theorem C10_two_independent_uuids
    (options : Dynamo.ModelOptions) (sk : string) (data : obj) (w : Dynamo.World)
    (Hsort : Dynamo.this_sortKey options = Some sk)
    (Hdistinct : Dynamo.partitionKey options <> sk)
    (Hdata : data <> [])
    (Hid : truthy (prop "id" data) = false)
    (Hpk : ~ In (Dynamo.partitionKey options) (keys data))
    (Hsk : ~ In sk (keys data))
    (Hvalues : Marshalling.accepted data = true)
    (Haccept : forall c, Dynamo.service w c <> Dynamo.Rejected) :
  (exists item w',
     Dynamo.create options data w = (Ok item, w')
     /\ Dynamo.draws w' = S (S (Dynamo.draws w))
     /\ Dynamo.sent w'
        = (Dynamo.sent w ++ [Dynamo.PutItemCommand (Dynamo.tableName options) item])%list
     /\ (~ In (Dynamo.partitionKey options) (keys (Creation.stamps options w)) ->
         prop (Dynamo.partitionKey options) item
         = VStr (uuid (Dynamo.entropy w (Dynamo.draws w))))
     /\ (~ In sk (keys (Creation.stamps options w)) ->
         prop sk item = VStr (uuid (Dynamo.entropy w (S (Dynamo.draws w)))))
     /\ (forall k, In k (keys (Creation.stamps options w)) ->
                   prop k item = prop k (Creation.stamps options w)))
  /\ (exists w2 item2 w2',
        Dynamo.create options data w2 = (Ok item2, w2')
        /\ Dynamo.sent w2'
           = (Dynamo.sent w2
              ++ [Dynamo.PutItemCommand (Dynamo.tableName options) item2])%list
        /\ prop (Dynamo.partitionKey options) item2 <> prop sk item2).
Proof.
  assert (Hgen : forall w0 : Dynamo.World,
            (forall c, Dynamo.service w0 c <> Dynamo.Rejected) ->
            exists item w',
              Dynamo.create options data w0 = (Ok item, w')
              /\ Dynamo.draws w' = S (S (Dynamo.draws w0))
              /\ Dynamo.sent w'
                 = (Dynamo.sent w0
                    ++ [Dynamo.PutItemCommand (Dynamo.tableName options) item])%list
              /\ (~ In (Dynamo.partitionKey options) (keys (Creation.stamps options w0)) ->
                  prop (Dynamo.partitionKey options) item
                  = VStr (uuid (Dynamo.entropy w0 (Dynamo.draws w0))))
              /\ (~ In sk (keys (Creation.stamps options w0)) ->
                  prop sk item = VStr (uuid (Dynamo.entropy w0 (S (Dynamo.draws w0)))))
              /\ (forall k, In k (keys (Creation.stamps options w0)) ->
                            prop k item = prop k (Creation.stamps options w0))).
  { intros w0 Hacc.
    destruct (CreationFacts.create_returns options data w0 Hdata Hvalues Hacc)
      as (w' & Hc & Hd & Hs).
    exists (Creation.createdItem options data w0), w'.
    split; [exact Hc|].
    split; [unfold Creation.drawn in Hd; rewrite Hsort, Hid in Hd; exact Hd|].
    split; [exact Hs|].
    assert (Hkeys : forall k, ~ In k (keys data) ->
                    ~ In k (keys (Creation.stamps options w0)) ->
                    obj_get k (Creation.createdItem options data w0)
                    = obj_get k [(Dynamo.partitionKey options,
                                  VStr (uuid (Dynamo.entropy w0 (Dynamo.draws w0))));
                                 (sk, VStr (uuid (Dynamo.entropy w0 (S (Dynamo.draws w0)))))]).
    { intros k Hk Hstamp. rewrite CreationFacts.createdItem_key by assumption.
      unfold Creation.sortPart, Creation.keyValue. rewrite Hsort, Hid.
      unfold spread. cbn [fold_left fst snd obj_set Nat.add].
      apply String.eqb_neq in Hdistinct. now rewrite Hdistinct. }
    split; [|split].
    - intros Hstamp. unfold prop. rewrite (Hkeys _ Hpk Hstamp).
      cbn [obj_get]. now rewrite String.eqb_refl.
    - intros Hstamp. unfold prop. rewrite (Hkeys _ Hsk Hstamp).
      cbn [obj_get]. apply String.eqb_neq in Hdistinct.
      now rewrite Hdistinct, String.eqb_refl.
    - intros k Hk. now apply createdItem_stamp. }
  split; [now apply Hgen|].
  set (w2 := {| Dynamo.entropy := fun n => N.of_nat n; Dynamo.draws := 0;
                Dynamo.clock := fun n => Dynamo.decimal n; Dynamo.reads := 0;
                Dynamo.service := Dynamo.service w; Dynamo.sent := Dynamo.sent w |}).
  destruct (Hgen w2 Haccept) as (item2 & w2' & Hc & _ & Hs & Hp & Hq & Hstamps).
  exists w2, item2, w2'. split; [exact Hc|]. split; [exact Hs|].
  unfold Creation.stamps in Hp, Hq, Hstamps.
  destruct (Dynamo.auto_timestamp (Dynamo.this_fields options)).
  - cbn [keys map fst In] in Hp, Hq, Hstamps.
    assert (Hcreated : prop "createdAt" item2 = VStr "0")
      by (rewrite Hstamps by auto; reflexivity).
    assert (Hupdated : prop "updatedAt" item2 = VStr "1")
      by (rewrite Hstamps by auto; reflexivity).
    destruct (string_dec (Dynamo.partitionKey options) "createdAt") as [Ep|Ep];
      destruct (string_dec (Dynamo.partitionKey options) "updatedAt") as [Ep'|Ep'];
      destruct (string_dec sk "createdAt") as [Es|Es];
      destruct (string_dec sk "updatedAt") as [Es'|Es'];
      try congruence;
      try rewrite Ep; try rewrite Ep'; try rewrite Es; try rewrite Es';
      try rewrite Hcreated; try rewrite Hupdated;
      try (rewrite Hp by (intros [H|[H|[]]]; congruence));
      try (rewrite Hq by (intros [H|[H|[]]]; congruence));
      vm_compute; discriminate.
  - rewrite Hp, Hq by (cbn; tauto). vm_compute. discriminate.
Qed.

Lemma C10_two_independent_uuids_witness :
  exists item w',
    Dynamo.create posts [("title", VStr "Hello")] accepting = (Ok item, w')
    /\ Dynamo.draws w' = 2%nat
    /\ Dynamo.sent w' = [Dynamo.PutItemCommand "Posts" item]
    /\ prop "postId" item = VStr (uuid 0)
    /\ prop "authorId" item = VStr (uuid 7).
Proof.
  destruct (proj1 (C10_two_independent_uuids posts "authorId" [("title", VStr "Hello")]
                     accepting eq_refl
                     ltac:(discriminate) ltac:(discriminate) eq_refl
                     ltac:(simpl; intuition discriminate)
                     ltac:(simpl; intuition discriminate)
                     eq_refl
                     ltac:(intros c; simpl; discriminate)))
    as (item & w' & Hcreate & Hdraws & Hsent & Hpk & Hsk & _).
  exists item, w'. split; [exact Hcreate|]. split; [exact Hdraws|].
  split; [exact Hsent|]. split.
  - apply Hpk. simpl. intuition discriminate.
  - apply Hsk. simpl. intuition discriminate.
Defined.

(** ** The cursor codec: parsing what [stringify] prints *)

Module CodecFacts.
Import JSON Codec.

Section Induction.
Variable P : json -> Prop.
Hypothesis HNull : P JNull.
Hypothesis HBool : forall b, P (JBool b).
Hypothesis HNum : forall n, P (JNum n).
Hypothesis HStr : forall s, P (JStr s).
Hypothesis HArr : forall items, Forall P items -> P (JArr items).
Hypothesis HObj : forall members, Forall (fun kv => P (snd kv)) members -> P (JObj members).
Hypothesis HBytes : forall bytes, P (JBytes bytes).

Fixpoint json_induction (j : json) : P j :=
  match j with
  | JNull => HNull
  | JBool b => HBool b
  | JNum n => HNum n
  | JStr s => HStr s
  | JArr items =>
      HArr items
        ((fix all (l : list json) : Forall P l :=
            match l with
            | [] => Forall_nil _
            | v :: rest => Forall_cons v (json_induction v) (all rest)
            end) items)
  | JObj members =>
      HObj members
        ((fix all (l : list (string * json)) : Forall (fun kv => P (snd kv)) l :=
            match l with
            | [] => Forall_nil _
            | kv :: rest => Forall_cons kv (json_induction (snd kv)) (all rest)
            end) members)
  | JBytes bytes => HBytes bytes
  end.

End Induction.

Lemma stringify_obj members :
  stringify (JObj members) = "{" ++ String.concat "," (map member members) ++ "}".
Proof. reflexivity. Qed.

Lemma stringify_arr items :
  stringify (JArr items) = "[" ++ String.concat "," (map stringify items) ++ "]".
Proof. reflexivity. Qed.

Lemma append_nil_r (s : string) : s ++ EmptyString = s.
Proof. induction s as [|c s IH]; simpl; auto. now rewrite IH. Qed.

Lemma length_append (a b : string) :
  String.length (a ++ b) = (String.length a + String.length b)%nat.
Proof. induction a as [|c a IH]; simpl; auto. Qed.

(** One escaped character is read back as the character. *)
Lemma parse_escape_char (c : ascii) (text : string) :
  parse_chars (escape_char c ++ text) = cons_char c (parse_chars text).
Proof.
  destruct c as [[] [] [] [] [] [] [] []]; reflexivity.
Qed.

(** An escaped string up to its closing quote is read back as the string. *)
Lemma parse_chars_escape (s rest : string) :
  parse_chars (escape s ++ String dq rest) = Some (s, rest).
Proof.
  induction s as [|c s IH].
  - reflexivity.
  - cbn [escape]. rewrite append_assoc, parse_escape_char, IH. reflexivity.
Qed.

Lemma quote_append (s rest : string) :
  quote s ++ rest = String dq (escape s ++ String dq rest).
Proof.
  unfold quote. cbn [append]. now rewrite append_assoc.
Qed.

Lemma nodup_keys_NoDup (ks : list string) : nodup_keys ks = true -> NoDup ks.
Proof.
  induction ks as [|k ks IH]; simpl; intros H; constructor.
  - apply andb_true_iff in H. destruct H as [Hk _].
    intros Hin. apply negb_true_iff in Hk.
    assert (existsb (String.eqb k) ks = true).
    { apply existsb_exists. exists k. split; auto. apply String.eqb_refl. }
    congruence.
  - apply IH. apply andb_true_iff in H. tauto.
Qed.

Lemma obj_set_fresh {A : Type} (k : string) (v : A) (o : dict A) :
  ~ In k (keys o) -> obj_set k v o = (o ++ [(k, v)])%list.
Proof.
  induction o as [|[k' v'] o IH]; simpl; intros Hk; auto.
  destruct (k' =? k) eqn:E.
  - apply String.eqb_eq in E. exfalso. apply Hk. now left.
  - rewrite IH; auto.
Qed.

Lemma spread_fresh {A : Type} : forall (src o : dict A),
  NoDup (keys o ++ keys src) -> spread o src = (o ++ src)%list.
Proof.
  unfold spread. induction src as [|[k v] src IH]; intros o Hnd; simpl.
  - now rewrite app_nil_r.
  - simpl in Hnd. pose proof (NoDup_remove_2 _ _ _ Hnd) as Hk.
    rewrite obj_set_fresh by (intros Hin; apply Hk; apply in_or_app; now left).
    rewrite IH.
    + now rewrite <- app_assoc.
    + unfold keys in *. rewrite map_app. simpl. now rewrite <- app_assoc.
Qed.

Lemma define_all_nodup (members : list (string * json)) :
  nodup_keys (keys members) = true -> define_all members = members.
Proof.
  intros H. unfold define_all. rewrite spread_fresh; auto.
  simpl. now apply nodup_keys_NoDup.
Qed.

(** *** Characters *)

(** A character that starts a number is no white space and starts nothing
    else. *)
Lemma numeric_class (c : ascii) :
  numeric c = true ->
  is_ws c = false /\ (N_of_ascii c =? 34)%N = false
  /\ (N_of_ascii c =? 123)%N = false /\ (N_of_ascii c =? 91)%N = false.
Proof.
  destruct c as [[] [] [] [] [] [] [] []]; intros H; vm_compute in H;
    try discriminate H; repeat split.
Qed.

(** A character that starts a value is no white space and closes
    nothing. *)
Lemma opens_class (c : ascii) :
  opens c = true ->
  is_ws c = false /\ (N_of_ascii c =? 93)%N = false /\ (N_of_ascii c =? 125)%N = false.
Proof.
  destruct c as [[] [] [] [] [] [] [] []]; intros H; vm_compute in H;
    try discriminate H; repeat split.
Qed.

Lemma numeric_opens (c : ascii) : numeric c = true -> opens c = true.
Proof. unfold opens. now intros ->. Qed.

(** After a text that closes a value no number goes on. *)
Lemma closes_boundary (rest : string) :
  closes rest = true ->
  span_digits rest = (EmptyString, rest) /\ continues rest = false.
Proof.
  destruct rest as [|c rest]; [now split|].
  unfold closes, continues. cbn [span_digits].
  destruct c as [[] [] [] [] [] [] [] []]; intros H; vm_compute in H;
    try discriminate H; split; reflexivity.
Qed.

(** *** Numbers *)

Lemma span_digits_uint (u : Decimal.uint) (rest : string) :
  span_digits rest = (EmptyString, rest) ->
  span_digits (NilEmpty.string_of_uint u ++ rest) = (NilEmpty.string_of_uint u, rest).
Proof.
  intros Hrest.
  induction u as [|u IH|u IH|u IH|u IH|u IH|u IH|u IH|u IH|u IH|u IH];
    cbn [NilEmpty.string_of_uint append]; [exact Hrest|..];
    cbn [span_digits]; rewrite IH; reflexivity.
Qed.

Lemma nzhead_head (d : Decimal.uint) :
  match Decimal.nzhead d with
  | Decimal.D0 _ => False
  | _ => True
  end.
Proof. induction d; simpl; auto. Qed.

(** The digits of a positive number: not empty, and no leading zero. *)
Lemma to_uint_head (p : positive) :
  match Pos.to_uint p with
  | Decimal.Nil | Decimal.D0 _ => False
  | _ => True
  end.
Proof.
  pose proof (DecimalPos.Unsigned.to_of (Pos.to_uint p)) as H.
  rewrite DecimalPos.Unsigned.of_to in H. cbn [N.to_uint] in H.
  pose proof (DecimalPos.Unsigned.to_uint_nonzero p) as Hnz.
  pose proof (nzhead_head (Pos.to_uint p)) as Hhead.
  unfold Decimal.unorm in H.
  destruct (Decimal.nzhead (Pos.to_uint p)) eqn:E;
    try contradiction; rewrite H; exact I.
Qed.

Lemma of_to_uint (p : positive) : Z.of_uint (Pos.to_uint p) = Z.pos p.
Proof. unfold Z.of_uint. now rewrite DecimalPos.Unsigned.of_to. Qed.

(** The digits of a positive number are read back as the number. *)
Lemma parse_digits (p : positive) (rest : string) (negative : bool) :
  closes rest = true ->
  (let (digits, tail) := span_digits (NilEmpty.string_of_uint (Pos.to_uint p) ++ rest) in
   match digits with
   | EmptyString => None
   | String d more =>
       if (N_of_ascii d =? 48)%N && negb (more =? EmptyString) then None
       else if continues tail then None
       else
         match NilZero.uint_of_string digits with
         | Some u => Some (JNum (if negative then - Z.of_uint u else Z.of_uint u)%Z, tail)
         | None => None
         end
   end)
  = Some (JNum (if negative then Z.neg p else Z.pos p), rest).
Proof.
  intros Hrest. destruct (closes_boundary rest Hrest) as [Hspan Hcont].
  rewrite (span_digits_uint _ _ Hspan).
  pose proof (to_uint_head p) as Hhead.
  pose proof (of_to_uint p) as Hvalue.
  pose proof (NilEmpty.usu (Pos.to_uint p)) as Hread.
  destruct (Pos.to_uint p) as [|u|u|u|u|u|u|u|u|u|u]; try contradiction;
    cbn [NilEmpty.string_of_uint] in *;
    match goal with
    | |- context [String ?d _] =>
        change (N_of_ascii d =? 48)%N with false
    end;
    cbn [andb]; rewrite Hcont;
    unfold NilZero.uint_of_string; rewrite Hread, Hvalue;
    destruct negative; reflexivity.
Qed.

Lemma number_text_pos (p : positive) :
  number_text (Z.pos p) = NilEmpty.string_of_uint (Pos.to_uint p).
Proof.
  unfold number_text. cbn [Z.to_int NilZero.string_of_int].
  unfold NilZero.string_of_uint.
  pose proof (to_uint_head p). destruct (Pos.to_uint p); try contradiction; reflexivity.
Qed.

Lemma number_text_neg (p : positive) :
  number_text (Z.neg p) = String "-" (NilEmpty.string_of_uint (Pos.to_uint p)).
Proof.
  unfold number_text. cbn [Z.to_int NilZero.string_of_int].
  unfold NilZero.string_of_uint.
  pose proof (to_uint_head p). destruct (Pos.to_uint p); try contradiction; reflexivity.
Qed.

(** The digits of a positive number start with a digit. *)
Lemma digits_head (p : positive) :
  exists c body,
    NilEmpty.string_of_uint (Pos.to_uint p) = String c body
    /\ is_digit c = true /\ (N_of_ascii c =? 45)%N = false.
Proof.
  pose proof (to_uint_head p) as Hhead.
  destruct (Pos.to_uint p); try contradiction;
    cbn [NilEmpty.string_of_uint]; do 2 eexists; repeat split.
Qed.

(** The text of a number is read back as the number. *)
Lemma parse_number_text (n : Z) (rest : string) :
  closes rest = true ->
  parse_number (number_text n ++ rest) = Some (JNum n, rest).
Proof.
  intros Hrest. destruct n as [|p|p].
  - destruct (closes_boundary rest Hrest) as [Hspan Hcont].
    unfold parse_number. cbn. rewrite Hspan. cbn. now rewrite Hcont.
  - rewrite number_text_pos.
    destruct (digits_head p) as (c & body & Htext & Hdigit & Hminus).
    unfold parse_number. rewrite Htext. cbn [append]. rewrite Hminus.
    change (String c (body ++ rest)) with (String c body ++ rest). rewrite <- Htext.
    exact (parse_digits p rest false Hrest).
  - rewrite number_text_neg. unfold parse_number. cbn [append].
    change (N_of_ascii "-" =? 45)%N with true. cbv iota.
    exact (parse_digits p rest true Hrest).
Qed.

Lemma number_text_head (n : Z) :
  exists c body, number_text n = String c body /\ numeric c = true.
Proof.
  destruct n as [|p|p].
  - do 2 eexists. split; reflexivity.
  - rewrite number_text_pos.
    destruct (digits_head p) as (c & body & Htext & Hdigit & _).
    exists c, body. split; [exact Htext|]. unfold numeric. now rewrite Hdigit.
  - rewrite number_text_neg. do 2 eexists. split; reflexivity.
Qed.

(** The text of a JSON value starts with a character that starts a
    value. *)
Lemma stringify_head (j : json) :
  wf j = true -> exists c body, stringify j = String c body /\ opens c = true.
Proof.
  destruct j as [|b|n|s|items|members|bytes]; intros Hwf; try discriminate Hwf.
  - do 2 eexists. split; reflexivity.
  - destruct b; do 2 eexists; split; reflexivity.
  - destruct (number_text_head n) as (c & body & Htext & Hc).
    exists c, body. split; [exact Htext|]. now apply numeric_opens.
  - do 2 eexists. split; reflexivity.
  - rewrite stringify_arr. do 2 eexists. split; reflexivity.
  - rewrite stringify_obj. do 2 eexists. split; reflexivity.
Qed.

(** *** Members and items *)

Lemma parse_members_cons fuel k rest :
  parse_members (S fuel) (quote k ++ rest)
  = match skip_ws rest with
    | String colon rest2 =>
        if (N_of_ascii colon =? 58)%N then
          match parse_value fuel rest2 with
          | Some (v, rest3) =>
              match skip_ws rest3 with
              | String sep rest4 =>
                  if (N_of_ascii sep =? 44)%N then
                    match parse_members fuel rest4 with
                    | Some (more, rest5) => Some ((k, v) :: more, rest5)
                    | None => None
                    end
                  else if (N_of_ascii sep =? 125)%N then Some ([(k, v)], rest4)
                  else None
              | EmptyString => None
              end
          | None => None
          end
        else None
    | EmptyString => None
    end.
Proof.
  rewrite quote_append. cbn [parse_members skip_ws].
  change (is_ws dq) with false. cbv iota.
  change (N_of_ascii dq =? 34)%N with true. cbv iota.
  now rewrite parse_chars_escape.
Qed.

Lemma members_read_back : forall members : list (string * json),
  Forall (fun kv => reads_back (snd kv)) members ->
  forallb (fun kv => let '(_, v) := kv in wf v) members = true ->
  members <> [] ->
  forall fuel rest,
    (S (String.length (String.concat "," (map member members))) <= fuel)%nat ->
    parse_members fuel (String.concat "," (map member members) ++ String "}" rest)
    = Some (members, rest).
Proof.
  induction members as [|[k v] more IH]; intros Hall Hwf Hne fuel rest Hfuel;
    [contradiction|].
  inversion Hall as [|? ? Hv Hmore]; subst. simpl in Hv.
  simpl in Hwf. apply andb_true_iff in Hwf. destruct Hwf as [Hwv Hwmore].
  destruct fuel as [|fuel]; [lia|].
  destruct more as [|kv' more'].
  - cbn [map String.concat member] in *.
    rewrite !append_assoc, parse_members_cons.
    cbn [append skip_ws]. change (is_ws ":") with false. cbv iota.
    change (N_of_ascii ":" =? 58)%N with true. cbv iota.
    rewrite (Hv Hwv fuel (String "}" rest) eq_refl).
    + reflexivity.
    + rewrite !length_append in Hfuel. simpl in Hfuel. lia.
  - set (tail := kv' :: more') in *.
    assert (Htext : String.concat "," (map member ((k, v) :: tail))
                    = member (k, v) ++ "," ++ String.concat "," (map member tail))
      by reflexivity.
    rewrite Htext in *. clear Htext. cbn [member] in *.
    rewrite !append_assoc, parse_members_cons.
    cbn [append skip_ws]. change (is_ws ":") with false. cbv iota.
    change (N_of_ascii ":" =? 58)%N with true. cbv iota.
    rewrite !length_append in Hfuel. cbn [String.length] in Hfuel.
    rewrite (Hv Hwv fuel) by (reflexivity || lia).
    cbn [append skip_ws]. change (is_ws ",") with false. cbv iota.
    change (N_of_ascii "," =? 44)%N with true. cbv iota.
    rewrite (IH Hmore Hwmore) by (try discriminate; lia).
    reflexivity.
Qed.

Lemma items_read_back : forall items : list json,
  Forall reads_back items ->
  forallb wf items = true ->
  items <> [] ->
  forall fuel rest,
    (S (String.length (String.concat "," (map stringify items))) <= fuel)%nat ->
    parse_items fuel (String.concat "," (map stringify items) ++ String "]" rest)
    = Some (items, rest).
Proof.
  induction items as [|v more IH]; intros Hall Hwf Hne fuel rest Hfuel;
    [contradiction|].
  inversion Hall as [|? ? Hv Hmore]; subst.
  cbn [forallb] in Hwf. apply andb_true_iff in Hwf. destruct Hwf as [Hwv Hwmore].
  destruct fuel as [|fuel]; [lia|].
  destruct more as [|v' more'].
  - cbn [map String.concat] in *. cbn [parse_items].
    rewrite (Hv Hwv fuel (String "]" rest) eq_refl) by lia.
    reflexivity.
  - set (tail := v' :: more') in *.
    assert (Htext : String.concat "," (map stringify (v :: tail))
                    = stringify v ++ "," ++ String.concat "," (map stringify tail))
      by reflexivity.
    rewrite Htext in *. clear Htext.
    rewrite !length_append in Hfuel. cbn [String.length] in Hfuel.
    rewrite !append_assoc. cbn [parse_items].
    rewrite (Hv Hwv fuel) by (reflexivity || lia).
    cbn [append skip_ws]. change (is_ws ",") with false. cbv iota.
    change (N_of_ascii "," =? 44)%N with true. cbv iota.
    rewrite (IH Hmore Hwmore) by (try discriminate; lia).
    reflexivity.
Qed.

(** *** Values *)

Lemma value_reads_back (j : json) : reads_back j.
Proof.
  induction j as [|b|n|s|items IH|members IH|bytes] using json_induction;
    intros Hwf fuel rest Hrest Hfuel.
  - destruct fuel as [|fuel]; [simpl in Hfuel; lia|]. reflexivity.
  - destruct fuel as [|fuel]; [destruct b; simpl in Hfuel; lia|].
    destruct b; reflexivity.
  - cbn [stringify] in *.
    destruct (number_text_head n) as (c & body & Htext & Hc).
    destruct fuel as [|fuel]; [rewrite Htext in Hfuel; simpl in Hfuel; lia|].
    destruct (numeric_class c Hc) as (Hws & Hq & Hbrace & Hbracket).
    pose proof (parse_number_text n rest Hrest) as Hnumber.
    rewrite Htext in *. cbn [append] in *. cbn [parse_value skip_ws].
    rewrite Hws, Hq, Hbrace, Hbracket. unfold numeric in Hc. rewrite Hc.
    exact Hnumber.
  - destruct fuel as [|fuel]; [simpl in Hfuel; lia|].
    cbn [stringify]. rewrite quote_append. cbn [parse_value skip_ws].
    change (is_ws dq) with false. cbv iota.
    change (N_of_ascii dq =? 34)%N with true. cbv iota.
    now rewrite parse_chars_escape.
  - cbn [wf] in Hwf. rewrite stringify_arr in *.
    destruct fuel as [|fuel]; [simpl in Hfuel; lia|].
    destruct items as [|v more].
    + reflexivity.
    + set (items := v :: more) in *.
      assert (Hlen : (S (String.length (String.concat "," (map stringify items))) <= fuel)%nat)
        by (rewrite !length_append in Hfuel; cbn [String.length] in Hfuel; lia).
      rewrite !append_assoc. cbn [append parse_value skip_ws].
      change (is_ws "[") with false. cbv iota.
      change (N_of_ascii "[" =? 34)%N with false.
      change (N_of_ascii "[" =? 123)%N with false.
      change (N_of_ascii "[" =? 91)%N with true. cbv iota.
      assert (Hhead : exists c body,
                 String.concat "," (map stringify items) ++ String "]" rest
                 = String c body /\ opens c = true).
      { subst items. cbn [forallb] in Hwf. apply andb_true_iff in Hwf.
        destruct (stringify_head v (proj1 Hwf)) as (c & body & Htext & Hc).
        destruct more; cbn [map String.concat]; rewrite Htext; cbn [append]; eauto. }
      destruct Hhead as (c & body & Hbody & Hc).
      destruct (opens_class c Hc) as (Hws & Hclose & _).
      cbn [append] in *. rewrite Hbody. cbn [skip_ws]. rewrite Hws, Hclose.
      rewrite <- Hbody.
      now rewrite (items_read_back items IH Hwf) by (try discriminate; exact Hlen).
  - simpl in Hwf. apply andb_true_iff in Hwf. destruct Hwf as [Hnd Hwf].
    rewrite stringify_obj in *.
    destruct fuel as [|fuel]; [simpl in Hfuel; lia|].
    destruct members as [|kv more].
    + reflexivity.
    + set (members := kv :: more) in *.
      assert (Hlen : (S (String.length (String.concat "," (map member members))) <= fuel)%nat)
        by (rewrite !length_append in Hfuel; cbn [String.length] in Hfuel; lia).
      rewrite !append_assoc. cbn [append parse_value skip_ws].
      change (is_ws "{") with false. cbv iota.
      change (N_of_ascii "{" =? 34)%N with false.
      change (N_of_ascii "{" =? 123)%N with true. cbv iota.
      assert (Hhead : exists body,
                 String.concat "," (map member members) ++ String "}" rest
                 = String dq body).
      { subst members. destruct kv as [k v].
        destruct more; cbn [map String.concat member];
          rewrite !append_assoc, quote_append; eauto. }
      destruct Hhead as [body Hbody].
      cbn [append] in *. rewrite Hbody. cbn [skip_ws].
      change (is_ws dq) with false. cbv iota.
      change (N_of_ascii dq =? 125)%N with false. cbv iota.
      rewrite <- Hbody.
      rewrite (members_read_back members IH Hwf) by (try discriminate; exact Hlen).
      now rewrite define_all_nodup.
  - discriminate Hwf.
Qed.

(** [JSON.parse(JSON.stringify(j))] is [j]. *)
Lemma parse_stringify (j : json) : wf j = true -> parse (stringify j) = Some j.
Proof.
  intros Hwf. unfold parse.
  rewrite <- (append_nil_r (stringify j)) at 2.
  rewrite (value_reads_back j Hwf) by (reflexivity || lia).
  reflexivity.
Qed.

End CodecFacts.

(** ** The cursor codec *)

(** C7, as stated, fails. A cursor string with white space after its
    colons is valid, decodes to a key, and the key encodes to a different
    string; and a key with a binary attribute value is written as the
    object of its bytes, so that its cursor decodes to that object and not
    to the key. *)
Lemma C7_spaced_cursor_is_not_reproduced :
  Dynamo.decodeCursor (Some spacedCursor) = Ok (Some userKey)
  /\ Dynamo.encodeCursor (Some [("id", JSON.JObj [("S", JSON.JStr "user-1")])])
     <> Some spacedCursor
  /\ Dynamo.decodeCursor (Dynamo.encodeCursor (Some binaryKey)) = Ok (Some binaryKeyDecoded)
  /\ binaryKeyDecoded <> JSON.JObj binaryKey.
Proof.
  split; [reflexivity|]. split; [vm_compute; discriminate|].
  split; [reflexivity|]. discriminate.
Qed.

(** C7, amended. On the key-value service decoding the cursor of a key that
    holds no byte array gives the key back, encoding what a cursor produced
    by the service decodes to gives that cursor back, and an absent key
    encodes to no cursor; on the SQL-like service the cursor is the
    continuation token of the store: [findMany] sends the cursor it is
    given as the continuation token of its one query, whatever the page
    size, and every page it returns carries the continuation token of the
    answer as its cursor. *)
Theorem C7_cursor_codec (key : list (string * JSON.json))
    (Hkey : JSON.wf (JSON.JObj key) = true) :
  Dynamo.decodeCursor (Dynamo.encodeCursor (Some key)) = Ok (Some (JSON.JObj key))
  /\ (forall decoded,
        Dynamo.decodeCursor (Dynamo.encodeCursor (Some key)) = Ok (Some (JSON.JObj decoded)) ->
        Dynamo.encodeCursor (Some decoded) = Dynamo.encodeCursor (Some key))
  /\ Dynamo.encodeCursor None = None
  /\ Dynamo.decodeCursor None = Ok None
  /\ (forall (args : Cosmos.FindManyArgs) (w : CosmosModel.World) text,
        Query.takeOk (Cosmos.take args) = true ->
        Cosmos.buildQueryFindMany args = Ok text ->
        let options :=
          {| CosmosModel.continuationToken := Cosmos.nextCursor args;
             CosmosModel.maxItemCount := Query.pageSize (Cosmos.take args) |} in
        CosmosModel.requests (snd (CosmosModel.findMany args w))
        = (CosmosModel.requests w ++ [CosmosModel.QueryRequest text options])%list
        /\ fst (CosmosModel.findMany args w)
           = Query.outcomeOf (CosmosModel.engine w text options (CosmosModel.container w)))
  /\ (forall response page,
        Query.outcomeOf (Some response) = Ok page ->
        CosmosModel.nextCursor_ page = CosmosModel.continuationToken_ response).
Proof.
  assert (Hdecode : Dynamo.decodeCursor (Dynamo.encodeCursor (Some key))
                    = Ok (Some (JSON.JObj key))).
  { unfold Dynamo.decodeCursor, Dynamo.encodeCursor.
    rewrite (CodecFacts.parse_stringify _ Hkey).
    now rewrite CodecFacts.stringify_obj. }
  split; [exact Hdecode|]. split; [|split; [|split; [|split]]]; try reflexivity.
  - intros decoded Hd. rewrite Hdecode in Hd. now inversion Hd.
  - intros args w text Htake Hquery.
    unfold CosmosModel.findMany, Query.takeOk, Query.pageSize, Query.outcomeOf in *.
    destruct (Cosmos.take args) as [t|]; [rewrite Htake|]; cbn [negb];
      unfold bind, lift, CosmosModel.query; rewrite Hquery; cbn [fst snd];
      (destruct (CosmosModel.engine w _ _ _) as [response|]; [|repeat split]);
      destruct (CosmosModel.resources response); repeat split.
  - intros response page. unfold Query.outcomeOf.
    destruct (CosmosModel.resources response); intros H; inversion H; reflexivity.
Qed.

Lemma C7_cursor_codec_witness :
  JSON.wf userKey = true
  /\ Dynamo.decodeCursor
       (Dynamo.encodeCursor (Some [("id", JSON.JObj [("S", JSON.JStr "user-1")])]))
     = Ok (Some userKey).
Proof.
  split; [reflexivity|].
  exact (proj1 (C7_cursor_codec [("id", JSON.JObj [("S", JSON.JStr "user-1")])] eq_refl)).
Defined.

(** * Further properties of the SQL-like service *)

Module SqlFacts.
Import Cosmos Assembler.

Lemma mapM_Forall {A B : Type} (f : A -> result B) (P : B -> Prop) :
  forall (l : list A) (r : list B),
  mapM f l = Ok r ->
  (forall a b, In a l -> f a = Ok b -> P b) ->
  Forall P r.
Proof.
  induction l as [|a l IH]; simpl; intros r H HP.
  - inversion H. constructor.
  - destruct (f a) as [b|e] eqn:Hb; simpl in H; [|discriminate].
    destruct (mapM f l) as [bs|e] eqn:Hbs; simpl in H; [|discriminate].
    inversion H; subst. constructor; eauto.
Qed.

Lemma operatorEntries_operator (w : where_t) field k mode v :
  In (field, k, mode, v) (operatorEntries w) -> k <> op_mode.
Proof.
  unfold operatorEntries. intros Hin.
  apply in_flat_map in Hin. destruct Hin as ([f filters] & _ & Hin).
  apply in_map_iff in Hin. destruct Hin as ([k' v'] & Heq & Hin).
  inversion Heq; subst. apply filter_In in Hin. destruct Hin as [_ Hop].
  intros ->. discriminate.
Qed.

End SqlFacts.

(** X1. For a non-empty where clause that compiles, the clause is the
    conjunction of exactly one non-empty fragment per operator entry, over
    all fields in order, the [mode] entries left out; with no operator entry
    at all the clause is empty. *)
Theorem X1_sql_where_is_conjunction (w : where_t) (text : string)
    (Hw : w <> []) (Hcompiled : Cosmos.buildWhereClause (Some w) = Ok text) :
  exists conditions,
    mapM Assembler.compileEntry (Assembler.operatorEntries w) = Ok conditions
    /\ length conditions = length (Assembler.operatorEntries w)
    /\ Forall (fun c => isNonEmptyString c = true) conditions
    /\ text = match conditions with
              | [] => EmptyString
              | _ => "WHERE " ++ String.concat " AND " conditions
              end.
Proof.
  destruct (AssemblerFacts.where_is_conjunction w text Hw Hcompiled)
    as (conditions & Hc & Hlen & Htext).
  exists conditions. repeat split; auto.
  apply (SqlFacts.mapM_Forall _ _ _ _ Hc).
  intros [[[field k] mode] v] fragment Hin Hfragment.
  apply (AssemblerFacts.createFilter_nonempty field k mode v); auto.
  now apply (SqlFacts.operatorEntries_operator w field k mode v).
Qed.

Lemma X1_sql_where_is_conjunction_witness :
  exists conditions,
    mapM Assembler.compileEntry
      (Assembler.operatorEntries
         [("age", [(op_gt, VNum 30); (op_mode, VStr "INSENSITIVE")]);
          ("isSuperAdmin", [(op_equals, VBool true)])])
    = Ok conditions
    /\ length conditions = 2%nat
    /\ Forall (fun c => isNonEmptyString c = true) conditions
    /\ "WHERE c.age > 30 AND c.isSuperAdmin = true"
       = match conditions with
         | [] => EmptyString
         | _ => "WHERE " ++ String.concat " AND " conditions
         end.
Proof.
  refine (X1_sql_where_is_conjunction
            [("age", [(op_gt, VNum 30); (op_mode, VStr "INSENSITIVE")]);
             ("isSuperAdmin", [(op_equals, VBool true)])]
            "WHERE c.age > 30 AND c.isSuperAdmin = true" _ eq_refl).
  discriminate.
Defined.

Module RefusalFacts.
Import Cosmos Refusal.

Lemma mapM_outcome {A B : Type} (f : A -> result B) (bad : A -> bool) (e : error) :
  (forall a, bad a = true -> f a = Throw e) ->
  (forall a, bad a = false -> exists b, f a = Ok b) ->
  forall l,
  if existsb bad l then mapM f l = Throw e else exists r, mapM f l = Ok r.
Proof.
  intros Hbad Hgood. induction l as [|a l IH]; simpl.
  - now exists [].
  - destruct (bad a) eqn:Ea; simpl.
    + now rewrite (Hbad a Ea).
    + destruct (Hgood a Ea) as [b ->]. simpl.
      destruct (existsb bad l).
      * now rewrite IH.
      * destruct IH as [r ->]. simpl. eauto.
Qed.

Lemma createFilter_refused field k mode v :
  refusedEntry (k, v) = true -> createFilter field k mode v = Throw TypeError.
Proof.
  unfold refusedEntry. simpl. intros H. apply andb_true_iff in H. destruct H as [Hk Hv].
  destruct k; try discriminate; destruct v; try discriminate; reflexivity.
Qed.

Lemma createFilter_accepted field k mode v :
  refusedEntry (k, v) = false -> exists text, createFilter field k mode v = Ok text.
Proof.
  unfold refusedEntry. simpl. intros H.
  destruct k; simpl; try (destruct (insensitive mode)); eauto;
    destruct v; simpl in *; try discriminate; eauto.
Qed.

End RefusalFacts.

(** X2. The only failure of the where clause assembler is a runtime type
    error, and it occurs exactly when some [in] or [notIn] entry has a
    string, number or boolean operand; every other where clause compiles. *)
Theorem X2_sql_where_fails_only_on_scalar_membership (w : where_t) :
  if Refusal.refused w
  then Cosmos.buildWhereClause (Some w) = Throw TypeError
  else exists text, Cosmos.buildWhereClause (Some w) = Ok text.
Proof.
  rewrite NoOperator.buildWhereClause_eq.
  destruct w as [|entry w']; [simpl; eauto|].
  change (objectIsEmpty (entry :: w')) with false. cbv iota.
  set (w := entry :: w').
  pose proof (RefusalFacts.mapM_outcome Assembler.perField
                (fun entry : string * filter_t => existsb Refusal.refusedEntry (snd entry))
                TypeError) as Hout.
  unfold Refusal.refused.
  assert (Hbad : forall a : string * filter_t,
             existsb Refusal.refusedEntry (snd a) = true ->
             Assembler.perField a = Throw TypeError).
  { intros [field filters] Hb. simpl in Hb. unfold Assembler.perField.
    pose proof (RefusalFacts.mapM_outcome
                  (fun '(filterKey, value) =>
                     Cosmos.createFilter field filterKey (Assembler.modeOf filters) value)
                  Refusal.refusedEntry TypeError) as Hin.
    specialize (Hin (fun a => match a with (k, v) =>
                                RefusalFacts.createFilter_refused field k _ v end)
                    (fun a => match a with (k, v) =>
                                RefusalFacts.createFilter_accepted field k _ v end)
                    filters).
    now rewrite Hb in Hin. }
  assert (Hgood : forall a : string * filter_t,
             existsb Refusal.refusedEntry (snd a) = false ->
             exists b, Assembler.perField a = Ok b).
  { intros [field filters] Hb. simpl in Hb. unfold Assembler.perField.
    pose proof (RefusalFacts.mapM_outcome
                  (fun '(filterKey, value) =>
                     Cosmos.createFilter field filterKey (Assembler.modeOf filters) value)
                  Refusal.refusedEntry TypeError) as Hin.
    specialize (Hin (fun a => match a with (k, v) =>
                                RefusalFacts.createFilter_refused field k _ v end)
                    (fun a => match a with (k, v) =>
                                RefusalFacts.createFilter_accepted field k _ v end)
                    filters).
    now rewrite Hb in Hin. }
  specialize (Hout Hbad Hgood w).
  destruct (existsb _ w).
  - now rewrite Hout.
  - destruct Hout as [fragments ->]. simpl. unfold Assembler.clauseOf.
    destruct (isEmptyArray _); eauto.
Qed.

(** X3. The mode of a condition matters to [contains], [startsWith] and
    [endsWith] only: every other operator compiles to the same fragment
    whatever the mode, and for the three a mode other than the exact string
    INSENSITIVE compiles as the sensitive mode does. *)
Theorem X3_sql_mode_matters_to_text_operators_only
    (field : string) (operator : filterKey) (mode mode' operand : value)
    (Hmode : Refusal.textual operator = false \/
             (Cosmos.insensitive mode = false /\ Cosmos.insensitive mode' = false)) :
  Cosmos.createFilter field operator mode operand
  = Cosmos.createFilter field operator mode' operand.
Proof.
  destruct Hmode as [Hop|[Hm Hm']].
  - destruct operator; try discriminate; reflexivity.
  - destruct operator; simpl; try rewrite Hm, Hm'; reflexivity.
Qed.

Lemma X3_sql_mode_matters_to_text_operators_only_witness :
  Cosmos.createFilter "lastName" op_equals (VStr "INSENSITIVE") (VStr "hehe")
  = Cosmos.createFilter "lastName" op_equals (VStr "SENSITIVE") (VStr "hehe").
Proof.
  apply X3_sql_mode_matters_to_text_operators_only. left. reflexivity.
Defined.

Module QueryFacts.
Import Cosmos Query.

Lemma fieldSelection_nonempty (select : option obj) :
  isNonEmptyString (constructFieldSelection select) = true.
Proof.
  unfold constructFieldSelection. destruct select as [o|]; [|reflexivity].
  destruct (objectIsEmpty o); [reflexivity|].
  destruct (filter _ (keys o)) as [|f fs]; [reflexivity|].
  simpl. destruct fs; reflexivity.
Qed.

Lemma concat_snoc (sep x : string) : forall l : list string,
  l <> [] -> String.concat sep (l ++ [x])%list = String.concat sep l ++ sep ++ x.
Proof.
  induction l as [|a l IH]; intros Hne; [contradiction|].
  destruct l as [|b l].
  - reflexivity.
  - change (String.concat sep ((a :: b :: l) ++ [x])%list)
      with (a ++ sep ++ String.concat sep ((b :: l) ++ [x])%list).
    rewrite IH by discriminate.
    change (String.concat sep (a :: b :: l)) with (a ++ sep ++ String.concat sep (b :: l)).
    now rewrite !append_assoc.
Qed.

End QueryFacts.

(** X4. The query of [findMany] is SELECT, the projection, FROM c, then the
    where clause and the order clause, each only when it is not empty, with
    single spaces between them; the query of [findOne] is the same head
    followed by the test of the id. *)
Theorem X4_sql_query_shape (dto : Cosmos.FindManyArgs) (whereClause : string)
    (Hwhere : Cosmos.buildWhereClause (Cosmos.where_ dto) = Ok whereClause) :
  Cosmos.buildQueryFindMany dto
  = Ok ("SELECT " ++ Cosmos.constructFieldSelection (Cosmos.select dto) ++ " FROM c"
        ++ Query.spaced whereClause
        ++ Query.spaced (Cosmos.constructOrderByClause (Cosmos.orderBy dto)))
  /\ forall id select,
       Cosmos.buildQueryFindOne {| Cosmos.id := id; Cosmos.selectOne := select |}
       = "SELECT " ++ Cosmos.constructFieldSelection select
         ++ " FROM c WHERE c.id = '" ++ id ++ "'".
Proof.
  split.
  - unfold Cosmos.buildQueryFindMany. rewrite Hwhere. cbn [rbind].
    pose proof (QueryFacts.fieldSelection_nonempty (Cosmos.select dto)) as Hsel.
    unfold Query.spaced. cbn [filter]. rewrite Hsel.
    change (isNonEmptyString "SELECT") with true.
    change (isNonEmptyString "FROM c") with true. cbv iota.
    destruct (isNonEmptyString whereClause);
      destruct (isNonEmptyString (Cosmos.constructOrderByClause (Cosmos.orderBy dto)));
      cbn [String.concat]; f_equal; cbn [append];
      repeat (rewrite ?append_assoc; cbn [append]); try rewrite CodecFacts.append_nil_r;
      reflexivity.
  - intros id select. unfold Cosmos.buildQueryFindOne. cbn [Cosmos.id Cosmos.selectOne filter].
    rewrite (QueryFacts.fieldSelection_nonempty select).
    change (isNonEmptyString "SELECT") with true.
    change (isNonEmptyString "FROM c") with true.
    change (isNonEmptyString ("WHERE c.id = '" ++ id ++ "'")) with true. cbv iota.
    cbn [String.concat append].
    repeat (rewrite ?append_assoc; cbn [append]). reflexivity.
Qed.

Lemma X4_sql_query_shape_witness :
  Cosmos.buildQueryFindMany
    {| Cosmos.where_ := Some [("age", [(op_gt, VNum 30)])]; Cosmos.take := None;
       Cosmos.nextCursor := None; Cosmos.select := None; Cosmos.orderBy := None |}
  = Ok "SELECT * FROM c WHERE c.age > 30".
Proof.
  exact (proj1 (X4_sql_query_shape
                  {| Cosmos.where_ := Some [("age", [(op_gt, VNum 30)])];
                     Cosmos.take := None; Cosmos.nextCursor := None;
                     Cosmos.select := None; Cosmos.orderBy := None |}
                  "WHERE c.age > 30" eq_refl)).
Defined.

(** X5. Adding a field at the end of a non-empty [orderBy] adds its term at
    the end of the ORDER BY clause and leaves the earlier terms, hence the
    earlier tie-breaks, as they were. *)
Theorem X5_order_by_keeps_key_order (orderBy : dict string) (field direction : string)
    (Hnonempty : orderBy <> []) :
  Cosmos.constructOrderByClause (Some (orderBy ++ [(field, direction)])%list)
  = Cosmos.constructOrderByClause (Some orderBy) ++ ", c." ++ field ++ " " ++ direction.
Proof.
  unfold Cosmos.constructOrderByClause.
  destruct orderBy as [|entry rest]; [contradiction|].
  change (objectIsEmpty (entry :: rest)) with false.
  change (objectIsEmpty ((entry :: rest) ++ [(field, direction)])%list) with false.
  cbv iota. rewrite map_app. cbn [map].
  rewrite QueryFacts.concat_snoc by discriminate.
  rewrite !append_assoc. reflexivity.
Qed.

Lemma X5_order_by_keeps_key_order_witness :
  Cosmos.constructOrderByClause (Some [("lastName", "DESC"); ("firstName", "ASC")])
  = "ORDER BY c.lastName DESC, c.firstName ASC".
Proof.
  refine (X5_order_by_keeps_key_order [("lastName", "DESC")] "firstName" "ASC" _).
  discriminate.
Defined.

Module IdFacts.
Import Query.

Lemma all_chars_false (p : ascii -> bool) (c : ascii) : forall s,
  In c (list_ascii_of_string s) -> p c = false -> all_chars p s = false.
Proof.
  induction s as [|x s IH]; simpl; intros Hin Hp; [contradiction|].
  destruct Hin as [->|Hin].
  - now rewrite Hp.
  - rewrite (IH Hin Hp). apply andb_false_r.
Qed.

Lemma all_chars_true (p : ascii -> bool) : forall s,
  all_chars p s = true -> forall c, In c (list_ascii_of_string s) -> p c = true.
Proof.
  induction s as [|x s IH]; simpl; intros H c Hin; [contradiction|].
  apply andb_true_iff in H. destruct H as [Hx Hs].
  destruct Hin as [<-|Hin]; auto.
Qed.

(** The ids that [IdSchema] rejects are the malformed ones. *)
Lemma IdSchema_false_iff (id : string) : IdSchema id = false <-> malformedId id.
Proof.
  unfold IdSchema, malformedId, nonspace. split.
  - destruct id as [|x id]; [now left|]. right.
    cbn [String.length Nat.leb andb] in H.
    assert (Hex : forall s, all_chars (fun c => negb (is_space c)) s = false ->
                  exists c, In c (list_ascii_of_string s) /\ is_space c = true).
    { induction s as [|y s IH]; simpl; [discriminate|]. intros Hs.
      destruct (is_space y) eqn:Ey.
      - exists y. auto.
      - simpl in Hs. destruct (IH Hs) as (c & Hin & Hc). exists c. auto. }
    now apply Hex.
  - intros [->|(c & Hin & Hc)]; [reflexivity|].
    destruct id as [|x id]; [contradiction|].
    cbn [String.length Nat.leb andb].
    apply (all_chars_false _ c); auto. now rewrite Hc.
Qed.

End IdFacts.

Module FacadeFacts.
Import Cosmos CosmosModel Query.

(** [findOne] reads: it leaves the container as it is. *)
Lemma findOne_container (args : FindOneArgs) (w : World) :
  container (snd (findOne args w)) = container w.
Proof.
  unfold findOne. destruct (negb (IdSchema (id args))); [reflexivity|].
  unfold bind, query. cbn [fst snd].
  destruct (engine w _ _ _) as [response|]; [|reflexivity].
  destruct (resources response) as [| |[|first rest]]; reflexivity.
Qed.

Lemma existsb_filter_out (id : string) (docs : list obj) :
  existsb (has_id id) (filter (fun doc => negb (has_id id doc)) docs) = false.
Proof.
  induction docs as [|doc docs IH]; simpl; auto.
  destruct (has_id id doc) eqn:E; simpl; auto. now rewrite E.
Qed.

End FacadeFacts.

(** X6. [findMany] of the SQL-like service rejects every [take] that is
    present and not a positive integer (zero, a negative number, a fraction,
    NaN, an infinity) and leaves the world as it is: no query is issued. *)
Theorem X6_sql_findMany_rejects_invalid_take
    (args : Cosmos.FindManyArgs) (t : number) (w : CosmosModel.World)
    (Htake : Cosmos.take args = Some t) (Hinvalid : positive_integer t = false) :
  CosmosModel.findMany args w = (Throw InvalidTake, w).
Proof. now apply Take.cosmos_invalid_take with (t := t). Qed.

Lemma X6_sql_findMany_rejects_invalid_take_witness :
  CosmosModel.findMany
    {| Cosmos.where_ := None; Cosmos.take := Some (Finite (3 # 2));
       Cosmos.nextCursor := None; Cosmos.select := None; Cosmos.orderBy := None |} store
  = (Throw InvalidTake, store).
Proof.
  exact (X6_sql_findMany_rejects_invalid_take
           {| Cosmos.where_ := None; Cosmos.take := Some (Finite (3 # 2));
              Cosmos.nextCursor := None; Cosmos.select := None; Cosmos.orderBy := None |}
           (Finite (3 # 2)) store eq_refl eq_refl).
Defined.

(** X7. With a valid [take] and a where clause that compiles, [findMany] of
    the SQL-like service issues exactly one query, with the cursor as
    continuation token and [take] or 100 as page size, and never touches the
    container; a rejected query is a failure, an answer without resources is
    the empty page, an answer whose resources are null is a failure, and a
    list is returned with the continuation token as next cursor. *)
Theorem X7_sql_findMany_issues_one_query
    (args : Cosmos.FindManyArgs) (w : CosmosModel.World) (text : string)
    (Htake : Query.takeOk (Cosmos.take args) = true)
    (Hquery : Cosmos.buildQueryFindMany args = Ok text) :
  let options :=
    {| CosmosModel.continuationToken := Cosmos.nextCursor args;
       CosmosModel.maxItemCount := Query.pageSize (Cosmos.take args) |} in
  fst (CosmosModel.findMany args w)
  = Query.outcomeOf (CosmosModel.engine w text options (CosmosModel.container w))
  /\ CosmosModel.container (snd (CosmosModel.findMany args w)) = CosmosModel.container w
  /\ CosmosModel.requests (snd (CosmosModel.findMany args w))
     = (CosmosModel.requests w ++ [CosmosModel.QueryRequest text options])%list.
Proof.
  unfold CosmosModel.findMany, Query.takeOk, Query.pageSize, Query.outcomeOf in *.
  destruct (Cosmos.take args) as [t|]; [rewrite Htake|]; cbn [negb];
    unfold bind, lift, CosmosModel.query; rewrite Hquery; cbn [fst snd];
    (destruct (CosmosModel.engine w _ _ _) as [response|]; [|repeat split]);
    destruct (CosmosModel.resources response); repeat split.
Qed.

Lemma X7_sql_findMany_issues_one_query_witness :
  CosmosModel.requests
    (snd (CosmosModel.findMany
            {| Cosmos.where_ := None; Cosmos.take := Some (Finite 10);
               Cosmos.nextCursor := Some "token"; Cosmos.select := None;
               Cosmos.orderBy := None |} unreachable))
  = [CosmosModel.QueryRequest "SELECT * FROM c"
       {| CosmosModel.continuationToken := Some "token";
          CosmosModel.maxItemCount := Finite 10 |}].
Proof.
  exact (proj2 (proj2 (X7_sql_findMany_issues_one_query
                         {| Cosmos.where_ := None; Cosmos.take := Some (Finite 10);
                            Cosmos.nextCursor := Some "token"; Cosmos.select := None;
                            Cosmos.orderBy := None |}
                         unreachable "SELECT * FROM c" eq_refl eq_refl))).
Defined.

(** X8. On the SQL-like service an id that is empty or holds a white space
    character makes [findOne], [update] and [delete] fail before any request
    is issued: the world is left as it is. *)
Theorem X8_sql_malformed_id_is_rejected_first (id : string)
    (Hmalformed : Query.malformedId id) :
  (forall select w,
     CosmosModel.findOne {| Cosmos.id := id; Cosmos.selectOne := select |} w
     = (Throw InvalidId, w))
  /\ (forall data w, CosmosModel.update id data w = (Throw InvalidId, w))
  /\ (forall w, CosmosDelete.delete id w = (Some DeleteInvalidId, w)).
Proof.
  apply IdFacts.IdSchema_false_iff in Hmalformed.
  repeat split; intros;
    unfold CosmosModel.findOne, CosmosModel.update, CosmosDelete.delete; cbn [Cosmos.id];
    now rewrite Hmalformed.
Qed.

Lemma X8_sql_malformed_id_is_rejected_first_witness :
  Query.malformedId "user 1"
  /\ CosmosModel.update "user 1" [("age", VNum 31)] store = (Throw InvalidId, store).
Proof.
  assert (H : Query.malformedId "user 1").
  { right. exists " "%char. split; [simpl; tauto|reflexivity]. }
  split; [exact H|].
  exact (proj1 (proj2 (X8_sql_malformed_id_is_rejected_first "user 1" H))
           [("age", VNum 31)] store).
Defined.

(** X9. [update] of the SQL-like service reports every failure of its
    existence check as a missing item, whatever the failure was (a missing
    item, a rejected query, an answer that is no list), and then issues no
    replace request: the world is the one the check left, with the container
    untouched. *)
Theorem X9_sql_update_masks_check_failures
    (id : string) (data : obj) (w w1 : CosmosModel.World) (e : error)
    (Hid : IdSchema id = true) (Hdata : data <> [])
    (Hcheck : CosmosModel.findOne (Query.existenceCheck id) w = (Throw e, w1)) :
  CosmosModel.update id data w = (Throw UpdateTargetMissing, w1)
  /\ CosmosModel.container w1 = CosmosModel.container w.
Proof.
  split.
  - unfold CosmosModel.update. rewrite Hid. cbn [negb].
    destruct data as [|entry data']; [contradiction|].
    change (objectIsEmpty (entry :: data')) with false. cbv iota.
    unfold bind, fromPromise. unfold Query.existenceCheck in Hcheck.
    now rewrite Hcheck.
  - pose proof (FacadeFacts.findOne_container (Query.existenceCheck id) w) as Hc.
    now rewrite Hcheck in Hc.
Qed.

Lemma X9_sql_update_masks_check_failures_witness :
  CosmosModel.findOne (Query.existenceCheck "1") unreachable
  = (Throw RetrieveFailed, snd (CosmosModel.findOne (Query.existenceCheck "1") unreachable))
  /\ fst (CosmosModel.update "1" [("age", VNum 31)] unreachable) = Throw UpdateTargetMissing.
Proof.
  split; [reflexivity|].
  assert (Hdata : [("age", VNum 31)] <> @nil (string * value)) by discriminate.
  exact (f_equal fst
           (proj1 (X9_sql_update_masks_check_failures "1" [("age", VNum 31)] unreachable
                     (snd (CosmosModel.findOne (Query.existenceCheck "1") unreachable))
                     RetrieveFailed eq_refl Hdata eq_refl))).
Defined.

(** X10. When the existence check of [update] finds the item and the store
    still holds it, [update] replaces the stored document by the found item
    overlaid with the payload and returns it: every payload field has the
    payload's value, every other field the found item's, exactly one replace
    request follows the check, and the other documents are untouched. *)
Theorem X10_sql_update_overlays_payload
    (id : string) (data existing : obj) (w w1 : CosmosModel.World)
    (Hid : IdSchema id = true) (Hdata : data <> []) (Hkeys : NoDup (keys data))
    (Hcheck : CosmosModel.findOne (Query.existenceCheck id) w = (Ok existing, w1))
    (Hheld : existsb (CosmosModel.has_id id) (CosmosModel.container w) = true) :
  let body := spread existing data in
  fst (CosmosModel.update id data w) = Ok body
  /\ CosmosModel.container (snd (CosmosModel.update id data w))
     = map (fun doc => if CosmosModel.has_id id doc then body else doc)
           (CosmosModel.container w)
  /\ CosmosModel.requests (snd (CosmosModel.update id data w))
     = (CosmosModel.requests w1 ++ [CosmosModel.ReplaceRequest id id body])%list
  /\ (forall k, In k (keys data) -> prop k body = prop k data)
  /\ (forall k, ~ In k (keys data) -> prop k body = prop k existing).
Proof.
  intros body.
  assert (Hc : CosmosModel.container w1 = CosmosModel.container w).
  { pose proof (FacadeFacts.findOne_container (Query.existenceCheck id) w) as Hc.
    now rewrite Hcheck in Hc. }
  assert (Hrun : CosmosModel.update id data w
                 = let r := CosmosModel.item_replace id id body w1 in
                   match fst r with
                   | Ok None => (Throw UpdateFailed, snd r)
                   | Ok (Some resource) => (Ok resource, snd r)
                   | Throw failure => (Throw failure, snd r)
                   end).
  { unfold CosmosModel.update. rewrite Hid. cbn [negb].
    destruct data as [|entry data']; [contradiction|].
    change (objectIsEmpty (entry :: data')) with false. cbv iota.
    unfold bind, fromPromise, ret, throw. unfold Query.existenceCheck in Hcheck.
    rewrite Hcheck. subst body.
    destruct (CosmosModel.item_replace id id _ w1) as [[[resource|]|failure] w2];
      reflexivity. }
  rewrite Hrun. unfold CosmosModel.item_replace. rewrite Hc, Hheld. cbn.
  repeat split.
  - now rewrite Hc.
  - intros k Hin. unfold prop, body. now rewrite obj_get_spread_present.
  - intros k Hout. unfold prop, body. now rewrite obj_get_spread_absent.
Qed.

Lemma X10_sql_update_overlays_payload_witness :
  fst (CosmosModel.update "1" [("age", VNum 31)] store)
  = Ok (spread [("id", VStr "1")] [("age", VNum 31)]).
Proof.
  assert (Hdata : [("age", VNum 31)] <> @nil (string * value)) by discriminate.
  assert (Hkeys : NoDup (keys [("age", VNum 31)])).
  { repeat constructor. simpl. tauto. }
  exact (proj1 (X10_sql_update_overlays_payload "1" [("age", VNum 31)] [("id", VStr "1")]
                  store (snd (CosmosModel.findOne (Query.existenceCheck "1") store))
                  eq_refl Hdata Hkeys eq_refl eq_refl)).
Defined.

(** X11. [delete] of the SQL-like service checks existence first: when the
    id is malformed or the check fails, no delete request is issued and the
    container is untouched; when [delete] resolves, exactly one delete
    request was issued and the container holds no document with this id. *)
Theorem X11_sql_delete_checks_then_deletes (id : string) (w : CosmosDelete.World) :
  (fst (CosmosDelete.delete id w) = Some DeleteInvalidId
   \/ fst (CosmosDelete.delete id w) = Some DeleteTargetMissing ->
   CosmosDelete.deletes (snd (CosmosDelete.delete id w)) = CosmosDelete.deletes w
   /\ CosmosModel.container (CosmosDelete.base (snd (CosmosDelete.delete id w)))
      = CosmosModel.container (CosmosDelete.base w))
  /\ (fst (CosmosDelete.delete id w) = None ->
      CosmosDelete.deletes (snd (CosmosDelete.delete id w))
      = (CosmosDelete.deletes w ++ [(id, id)])%list
      /\ existsb (CosmosModel.has_id id)
           (CosmosModel.container (CosmosDelete.base (snd (CosmosDelete.delete id w))))
         = false)
  /\ (forall e b,
        IdSchema id = true ->
        CosmosModel.findOne (Query.existenceCheck id) (CosmosDelete.base w) = (Throw e, b) ->
        fst (CosmosDelete.delete id w) = Some DeleteTargetMissing).
Proof.
  pose proof (FacadeFacts.findOne_container (Query.existenceCheck id) (CosmosDelete.base w))
    as Hc.
  unfold CosmosDelete.delete, Query.existenceCheck in *.
  destruct (IdSchema id); cbn [negb].
  - destruct (CosmosModel.findOne _ (CosmosDelete.base w)) as [[found|failure] b] eqn:Hcheck;
      cbn [snd] in Hc.
    + unfold CosmosDelete.item_delete. cbn [CosmosDelete.base CosmosDelete.deletes].
      destruct (existsb (CosmosModel.has_id id) (CosmosModel.container b)) eqn:Hheld;
        cbn [fst snd CosmosDelete.base CosmosDelete.deletes CosmosModel.container].
      * split; [intros [H|H]; discriminate|]. split.
        -- intros _. split; [reflexivity|apply FacadeFacts.existsb_filter_out].
        -- intros e b' _ H. discriminate.
      * split; [intros [H|H]; discriminate|]. split; [discriminate|].
        intros e b' _ H. discriminate.
    + cbn [fst snd CosmosDelete.base CosmosDelete.deletes].
      split; [intros _; now split|]. split; [discriminate|]. reflexivity.
  - cbn [fst snd]. split; [intros _; now split|]. split; [discriminate|].
    intros e b H. discriminate.
Qed.

(** * Further properties of the key-value service *)

Module PlaceholderFacts.
Import Dynamo Placeholders.

Lemma to_uint_nonnil (n : nat) : Nat.to_uint n <> Decimal.Nil.
Proof.
  rewrite <- (DecimalNat.Unsigned.of_to n) at 1.
  rewrite DecimalNat.Unsigned.to_of. apply DecimalFacts.unorm_nonnil.
Qed.

Lemma decimal_inj (a b : nat) : decimal a = decimal b -> a = b.
Proof.
  unfold decimal. intros H.
  apply (f_equal NilZero.uint_of_string) in H.
  rewrite !NilZero.usu in H by apply to_uint_nonnil.
  inversion H. now apply DecimalNat.Unsigned.to_uint_inj.
Qed.

Lemma valueName_inj (a b : nat) : valueName a = valueName b -> a = b.
Proof. unfold valueName. simpl. intros H. inversion H. now apply decimal_inj. Qed.

Lemma valueName_fresh (n : nat) : ~ In (valueName n) (map valueName (seq 0 n)).
Proof.
  intros Hin. apply in_map_iff in Hin. destruct Hin as (i & Hi & Hin).
  apply valueName_inj in Hi. subst i. apply in_seq in Hin. lia.
Qed.

Lemma valueNames_nodup (n : nat) : NoDup (map valueName (seq 0 n)).
Proof.
  induction n as [|n IH]; [constructor|].
  rewrite seq_S, map_app. simpl.
  apply NoDup_app; auto.
  - repeat constructor. simpl. tauto.
  - intros x Hx [<-|[]]. now apply (valueName_fresh n).
Qed.

End PlaceholderFacts.

Module ScanFacts.
Import Dynamo Placeholders PlaceholderFacts.

Lemma keys_obj_set_fresh {A : Type} (k : string) (v : A) (o : dict A) :
  ~ In k (keys o) -> keys (obj_set k v o) = (keys o ++ [k])%list.
Proof.
  intros Hk. rewrite CodecFacts.obj_set_fresh by assumption.
  unfold keys. now rewrite map_app.
Qed.

(** What one step of the loop does to the accumulated filter. *)
Lemma compileCondition_step acc field condition acc' :
  compileCondition acc (field, condition) = Ok acc' ->
  exists fragment prepared,
    filterExpression acc' = (filterExpression acc ++ [fragment])%list
    /\ expressionAttributeNames acc'
       = obj_set ("#" ++ field) field (expressionAttributeNames acc)
    /\ expressionAttributeValues acc'
       = obj_set (valueName (placeholderCounter acc)) prepared
                 (expressionAttributeValues acc)
    /\ placeholderCounter acc' = S (placeholderCounter acc).
Proof.
  destruct condition as [|[operator value] more]; simpl; [discriminate|].
  destruct (isUndefined value); [discriminate|].
  destruct (prepareValue value) as [prepared|e]; simpl; [|discriminate].
  destruct operator; simpl; intros H; inversion H; subst; simpl;
    do 2 eexists; repeat split; reflexivity.
Qed.

Lemma hash_inj (a b : string) : "#" ++ a = "#" ++ b -> a = b.
Proof. simpl. intros H. now inversion H. Qed.

Lemma compileWhere_invariant : forall w acc acc',
  compileWhere acc w = Ok acc' ->
  keys (expressionAttributeValues acc) = map valueName (seq 0 (placeholderCounter acc)) ->
  keys (expressionAttributeValues acc')
    = map valueName (seq 0 (placeholderCounter acc + length w))
  /\ placeholderCounter acc' = (placeholderCounter acc + length w)%nat
  /\ (forall field,
        In field (keys w)
        \/ obj_get ("#" ++ field) (expressionAttributeNames acc) = Some field ->
        obj_get ("#" ++ field) (expressionAttributeNames acc') = Some field).
Proof.
  induction w as [|[field condition] w IH]; intros acc acc' H Hinv;
    cbn [compileWhere] in H; cbn [length keys map fst].
  - inversion H; subst. rewrite Nat.add_0_r. repeat split; auto.
    intros field [[]|Hb]; exact Hb.
  - destruct (compileCondition acc (field, condition)) as [acc1|e] eqn:E;
      cbn [rbind] in H; [|discriminate].
    destruct (compileCondition_step _ _ _ _ E) as (fragment & prepared & _ & Hn & Hv & Hc).
    assert (Hinv1 : keys (expressionAttributeValues acc1)
                    = map valueName (seq 0 (placeholderCounter acc1))).
    { rewrite Hv, Hc, keys_obj_set_fresh.
      - rewrite Hinv, seq_S, map_app. reflexivity.
      - rewrite Hinv. apply valueName_fresh. }
    destruct (IH acc1 acc' H Hinv1) as (Hkeys & Hcount & Hnames).
    rewrite Hc in Hkeys, Hcount.
    replace (placeholderCounter acc + S (length w))%nat
      with (S (placeholderCounter acc) + length w)%nat by lia.
    repeat split; auto.
    intros f Hf. apply Hnames.
    destruct Hf as [[<-|Hin]|Hbound]; auto; right; rewrite Hn.
    + apply obj_get_set_same.
    + destruct (String.eqb ("#" ++ field) ("#" ++ f)) eqn:Ef.
      * apply String.eqb_eq in Ef. apply hash_inj in Ef. subst f.
        apply obj_get_set_same.
      * apply String.eqb_neq in Ef. now rewrite obj_get_set_other.
Qed.

End ScanFacts.

(** X14. When the where clause of the key-value [findMany] compiles, it
    yields one fragment per field, the value placeholders are :val0, :val1,
    ... in field order, all distinct and one per field, and the name
    placeholder of every field is bound to the field. *)
Theorem X14_scan_placeholders_are_bound (w : where_t) (compiled : Dynamo.Filter)
    (Hcompiled : Dynamo.compileWhere Dynamo.emptyFilter w = Ok compiled) :
  length (Dynamo.filterExpression compiled) = length w
  /\ keys (Dynamo.expressionAttributeValues compiled)
     = map Placeholders.valueName (seq 0 (length w))
  /\ NoDup (keys (Dynamo.expressionAttributeValues compiled))
  /\ (forall field,
        In field (keys w) ->
        obj_get ("#" ++ field) (Dynamo.expressionAttributeNames compiled) = Some field).
Proof.
  destruct (ScanFacts.compileWhere_invariant w _ _ Hcompiled eq_refl)
    as (Hkeys & _ & Hnames).
  simpl in Hkeys. repeat split.
  - now rewrite (ScanFilter.compileWhere_fragments _ _ _ Hcompiled).
  - exact Hkeys.
  - rewrite Hkeys. apply PlaceholderFacts.valueNames_nodup.
  - intros field Hin. apply Hnames. now left.
Qed.

Lemma X14_scan_placeholders_are_bound_witness :
  exists compiled,
    Dynamo.compileWhere Dynamo.emptyFilter
      [("firstName", [(op_contains, VStr "Sam")]); ("age", [(op_gte, VNum 18)])]
    = Ok compiled
    /\ keys (Dynamo.expressionAttributeValues compiled) = [":val0"; ":val1"]
    /\ obj_get "#age" (Dynamo.expressionAttributeNames compiled) = Some "age".
Proof.
  eexists. split; [reflexivity|].
  match goal with
  | |- keys (Dynamo.expressionAttributeValues ?c) = _ /\ _ =>
      destruct (X14_scan_placeholders_are_bound
                  [("firstName", [(op_contains, VStr "Sam")]); ("age", [(op_gte, VNum 18)])]
                  c eq_refl) as (_ & Hk & _ & Hn)
  end.
  split; [exact Hk|]. apply (Hn "age"). simpl. tauto.
Defined.

Module FragmentFacts.
Import Dynamo Placeholders Fragments.

Lemma compileCondition_fragment acc field operator value more acc' :
  compileCondition acc (field, (operator, value) :: more) = Ok acc' ->
  filterExpression acc'
  = (filterExpression acc ++ [fragmentOf field operator (placeholderCounter acc)])%list.
Proof.
  simpl. destruct (isUndefined value); [discriminate|].
  destruct (prepareValue value) as [prepared|e]; simpl; [|discriminate].
  destruct operator; simpl; intros H; inversion H; subst; reflexivity.
Qed.

Lemma compileWhere_fragmentsOf : forall w acc acc',
  compileWhere acc w = Ok acc' ->
  filterExpression acc'
  = (filterExpression acc ++ fragmentsOf (placeholderCounter acc) (shape w))%list.
Proof.
  induction w as [|[field condition] w IH]; intros acc acc' H; cbn [compileWhere] in H.
  - inversion H; subst. simpl. now rewrite app_nil_r.
  - destruct (compileCondition acc (field, condition)) as [acc1|e] eqn:E;
      cbn [rbind] in H; [|discriminate].
    destruct condition as [|[operator value] more]; [discriminate|].
    rewrite (IH _ _ H), (compileCondition_fragment _ _ _ _ _ _ E).
    destruct (ScanFacts.compileCondition_step _ _ _ _ E) as (_ & _ & _ & _ & _ & ->).
    cbn [shape map fst snd fragmentsOf]. now rewrite <- app_assoc.
Qed.

Lemma shape_length (w : where_t) : length (shape w) = length w.
Proof. unfold shape. apply length_map. Qed.

End FragmentFacts.

(** X15. The filter expression of the key-value [findMany] is made of the
    field names, the operators and the placeholder numbers alone: two where
    clauses with the same fields and the same first operators compile to the
    same filter expression and the same value placeholders, whatever their
    operands. No operand text reaches the expression. *)
Theorem X15_scan_expression_ignores_operands
    (w w' : where_t) (compiled compiled' : Dynamo.Filter)
    (Hshape : Placeholders.shape w = Placeholders.shape w')
    (Hcompiled : Dynamo.compileWhere Dynamo.emptyFilter w = Ok compiled)
    (Hcompiled' : Dynamo.compileWhere Dynamo.emptyFilter w' = Ok compiled') :
  Dynamo.filterExpression compiled = Dynamo.filterExpression compiled'
  /\ Dynamo.filterExpression compiled = Fragments.fragmentsOf 0 (Placeholders.shape w)
  /\ keys (Dynamo.expressionAttributeValues compiled)
     = keys (Dynamo.expressionAttributeValues compiled').
Proof.
  pose proof (FragmentFacts.compileWhere_fragmentsOf _ _ _ Hcompiled) as H.
  pose proof (FragmentFacts.compileWhere_fragmentsOf _ _ _ Hcompiled') as H'.
  simpl in H, H'. repeat split.
  - now rewrite H, H', Hshape.
  - exact H.
  - destruct (ScanFacts.compileWhere_invariant w _ _ Hcompiled eq_refl) as (Hk & _).
    destruct (ScanFacts.compileWhere_invariant w' _ _ Hcompiled' eq_refl) as (Hk' & _).
    rewrite Hk, Hk'. simpl.
    now rewrite <- (FragmentFacts.shape_length w), Hshape, FragmentFacts.shape_length.
Qed.

Lemma X15_scan_expression_ignores_operands_witness :
  exists compiled compiled',
    Dynamo.compileWhere Dynamo.emptyFilter [("firstName", [(op_equals, VStr "Sam")])]
    = Ok compiled
    /\ Dynamo.compileWhere Dynamo.emptyFilter
         [("firstName", [(op_equals, VStr "x' OR '1' = '1")])]
       = Ok compiled'
    /\ Dynamo.filterExpression compiled = Dynamo.filterExpression compiled'
    /\ Dynamo.filterExpression compiled = ["#firstName = :val0"].
Proof.
  do 2 eexists. split; [reflexivity|]. split; [reflexivity|].
  match goal with
  | |- Dynamo.filterExpression ?c = Dynamo.filterExpression ?c' /\ _ =>
      destruct (X15_scan_expression_ignores_operands
                  [("firstName", [(op_equals, VStr "Sam")])]
                  [("firstName", [(op_equals, VStr "x' OR '1' = '1")])]
                  c c' eq_refl eq_refl eq_refl) as (H1 & H2 & _)
  end.
  split; [exact H1|exact H2].
Defined.

(** X12. [findMany] of the key-value service, in both revisions, rejects a
    [take] that is truthy and not a positive integer (a negative number, a
    fraction, an infinity) and leaves the world as it is: no command is
    sent. *)
Theorem X12_key_value_findMany_rejects_truthy_invalid_take
    (options : Dynamo.ModelOptions) (args : Dynamo.FindManyArgs) (t : number)
    (w : Dynamo.World)
    (Htake : Dynamo.take args = Some t)
    (Htruthy : number_truthy t = true) (Hinvalid : positive_integer t = false) :
  Dynamo.findMany options args w = (Throw InvalidTake, w)
  /\ Dynamo2.findMany options args w = (Throw InvalidTake, w).
Proof.
  split.
  - now apply Take.dynamo_invalid_truthy_take with (t := t).
  - unfold Dynamo2.findMany, bind, lift, Dynamo2.scanParams.
    now rewrite Htake, Htruthy, Hinvalid.
Qed.

Lemma X12_key_value_findMany_rejects_truthy_invalid_take_witness :
  Dynamo.findMany users (takeOnly (Some (Finite (-1)))) accepting
  = (Throw InvalidTake, accepting).
Proof.
  exact (proj1 (X12_key_value_findMany_rejects_truthy_invalid_take
                  users (takeOnly (Some (Finite (-1)))) (Finite (-1)) accepting
                  eq_refl eq_refl eq_refl)).
Defined.

Module PageFacts.
Import Dynamo.

Lemma decode_encode (key : list (string * JSON.json)) :
  JSON.wf (JSON.JObj key) = true ->
  decodeCursor (encodeCursor (Some key)) = Ok (Some (JSON.JObj key)).
Proof.
  intros Hwf. unfold decodeCursor, encodeCursor.
  rewrite (CodecFacts.parse_stringify _ Hwf).
  now rewrite CodecFacts.stringify_obj.
Qed.

Lemma scanParams_startKey options args params :
  scanParams options args = Ok params ->
  decodeCursor (nextCursor args) = Ok (ExclusiveStartKey params).
Proof.
  unfold scanParams.
  destruct (match take args with Some _ => _ | None => _ end); [discriminate|].
  destruct (decodeCursor (nextCursor args)) as [start|e]; cbn [rbind]; [|discriminate].
  destruct (match where_ args with Some _ => _ | None => _ end); cbn [rbind];
    [|discriminate].
  intros H. inversion H. reflexivity.
Qed.

End PageFacts.

(** X13. Pagination on the key-value service: when the store answers a scan
    with a last evaluated key (one that holds no byte array), [findMany]
    returns a cursor, and every later
    [findMany] that is given this cursor starts its scan exactly at that
    key; when the store reports no key, no cursor is returned. *)
Theorem X13_key_value_cursor_resumes_at_reported_key
    (options : Dynamo.ModelOptions) (args : Dynamo.FindManyArgs) (w : Dynamo.World)
    (params : Dynamo.ScanCommandInput) (output : Dynamo.ScanCommandOutput)
    (Hparams : Dynamo.scanParams options args = Ok params)
    (Hreply : Dynamo.service w (Dynamo.ScanCommand params) = Dynamo.ScanReply output)
    (Hkeys : forall key, Dynamo.LastEvaluatedKey output = Some key ->
                         JSON.wf (JSON.JObj key) = true) :
  exists page,
    fst (Dynamo.findMany options args w) = Ok page
    /\ (Dynamo.LastEvaluatedKey output = None -> Dynamo.nextCursor_ page = None)
    /\ (forall key,
          Dynamo.LastEvaluatedKey output = Some key ->
          exists cursor,
            Dynamo.nextCursor_ page = Some cursor
            /\ forall options' args' params',
                 Dynamo.nextCursor args' = Some cursor ->
                 Dynamo.scanParams options' args' = Ok params' ->
                 Dynamo.ExclusiveStartKey params' = Some (JSON.JObj key)).
Proof.
  unfold Dynamo.findMany, bind, lift, Dynamo.send. rewrite Hparams. cbn [fst snd].
  rewrite Hreply. cbn [ret fst].
  eexists. split; [reflexivity|]. cbn [Dynamo.nextCursor_]. split.
  - intros ->. reflexivity.
  - intros key Hkey. rewrite Hkey. eexists. split; [reflexivity|].
    intros options' args' params' Hcursor Hscan.
    apply PageFacts.scanParams_startKey in Hscan.
    rewrite Hcursor in Hscan.
    change (Some (JSON.stringify (JSON.JObj key))) with (Dynamo.encodeCursor (Some key))
      in Hscan.
    rewrite PageFacts.decode_encode in Hscan by auto.
    now inversion Hscan.
Qed.

Lemma X13_key_value_cursor_resumes_at_reported_key_witness :
  exists page,
    fst (Dynamo.findMany users (takeOnly None) paging) = Ok page
    /\ exists cursor,
         Dynamo.nextCursor_ page = Some cursor
         /\ forall options' args' params',
              Dynamo.nextCursor args' = Some cursor ->
              Dynamo.scanParams options' args' = Ok params' ->
              Dynamo.ExclusiveStartKey params' = Some userKey.
Proof.
  destruct (X13_key_value_cursor_resumes_at_reported_key
              users (takeOnly None) paging _ _ eq_refl eq_refl
              (fun key Hkey =>
                 match Hkey in _ = k
                       return match k with
                              | Some key' => JSON.wf (JSON.JObj key') = true
                              | None => True
                              end
                 with eq_refl => eq_refl end))
    as (page & Hpage & _ & Hnext).
  exists page. split; [exact Hpage|].
  exact (Hnext _ eq_refl).
Defined.

Module SelectionFacts.
Import Dynamo Dynamo2 Placeholders.

Lemma fold_names_spread : forall (l : list string) (acc : dict string),
  fold_left (fun acc key => spread acc [("#" ++ key, key)]) l acc
  = spread acc (map (fun key => ("#" ++ key, key)) l).
Proof.
  induction l as [|k l IH]; intros acc; [reflexivity|].
  cbn [fold_left map]. rewrite IH. reflexivity.
Qed.

Lemma hashed_nodup (l : list string) :
  NoDup l -> NoDup (keys (map (fun key => ("#" ++ key, key)) l)).
Proof.
  unfold keys. rewrite map_map. cbn [fst].
  induction 1 as [|k l Hk Hnd IH]; cbn [map]; constructor; auto.
  intros Hin. apply in_map_iff in Hin. destruct Hin as (k' & Heq & Hin).
  apply ScanFacts.hash_inj in Heq. now subst.
Qed.

(** The names built from [select]: one placeholder per truthy field, bound
    to the field, in key order. *)
Lemma buildExpressionAttributeNames_eq (select : obj) :
  NoDup (keys select) ->
  buildExpressionAttributeNames (Some select)
  = map (fun key => ("#" ++ key, key)) (projected select).
Proof.
  intros Hnd. unfold buildExpressionAttributeNames, projected.
  destruct select as [|entry rest]; [reflexivity|].
  change (objectIsEmpty (entry :: rest)) with false. cbv iota.
  rewrite fold_names_spread. apply CodecFacts.spread_fresh.
  cbn [keys map app]. apply hashed_nodup. now apply NoDup_filter.
Qed.

(** The filter expression of [parseWhereClause]: the fragments of the fields
    with a truthy [contains], joined by AND. *)
Lemma parseWhereClause_fragments (w : where_t) :
  Dynamo2.filterExpression (parseWhereClause (Some w))
  = if (0 <? length (Selection.containsFields w))%nat
    then Some (String.concat " AND "
                 (map Selection.containsFragment (Selection.containsFields w)))
    else None.
Proof.
  unfold parseWhereClause.
  set (step := fun (acc : list string * dict string * dict AttributeValue)
                   (entry : string * filter_t) => _).
  assert (Hfold : forall (l : where_t) acc,
             fst (fst (fold_left step l acc))
             = (fst (fst acc)
                ++ map Selection.containsFragment (Selection.containsFields l))%list).
  { induction l as [|[f c] l IH]; intros acc; cbn [fold_left].
    - cbn. now rewrite app_nil_r.
    - rewrite IH. destruct acc as [[fs ns] vs].
      unfold Selection.containsFields. cbn [filter].
      unfold Selection.filtering at 2. cbn [snd]. subst step. cbn beta iota.
      destruct (truthy (filter_get op_contains c)); cbn [fst map].
      + rewrite <- app_assoc. reflexivity.
      + reflexivity. }
  specialize (Hfold w ([], [], [])).
  destruct (fold_left step w ([], [], [])) as [[fs ns] vs].
  cbn [fst app] in Hfold. subst fs. cbn [Dynamo2.filterExpression].
  now rewrite length_map.
Qed.

Lemma obj_set_nonempty {A : Type} (k : string) (v : A) (o : dict A) : obj_set k v o <> [].
Proof. destruct o as [|[k' v'] o]; simpl; [|destruct (k' =? k)]; discriminate. Qed.

Lemma fold_names_nonempty (l : list string) : forall acc : dict string,
  acc <> [] \/ l <> [] ->
  fold_left (fun acc key => spread acc [("#" ++ key, key)]) l acc <> [].
Proof.
  induction l as [|k l IH]; intros acc H; cbn [fold_left].
  - destruct H; [assumption|contradiction].
  - apply IH. left. apply obj_set_nonempty.
Qed.

(** The names built from [select] are empty exactly when no field is
    selected. *)
Lemma names_empty (select : option obj) :
  buildExpressionAttributeNames select = [] <-> Selection.unselected select = true.
Proof.
  destruct select as [sel|]; [|split; reflexivity].
  unfold buildExpressionAttributeNames, Selection.unselected, projected.
  destruct sel as [|entry rest]; [split; reflexivity|].
  change (objectIsEmpty (entry :: rest)) with false. cbv iota.
  destruct (filter _ (keys (entry :: rest))) as [|k l] eqn:Hsel.
  - split; reflexivity.
  - split; [|discriminate]. intros H. exfalso.
    revert H. apply fold_names_nonempty. right. discriminate.
Qed.

End SelectionFacts.

(** X16. In the revision with field selection, a [findMany] whose where
    clause has a field with a truthy [contains] sends as filter expression
    the fragments contains(#field, :fieldVal) of these fields, joined by
    AND, which name the fields through placeholders; but it sends the
    attribute names, and a projection, exactly when [select] has a truthy
    field: a call that filters without selecting sends placeholders that
    no name binds. *)
Theorem X16_selection_revision_drops_filter_names
    (options : Dynamo.ModelOptions) (args : Dynamo.FindManyArgs) (w : where_t)
    (start : option JSON.json)
    (Htake : Placeholders.takePasses (Dynamo.take args) = true)
    (Hcursor : Dynamo.decodeCursor (Dynamo.nextCursor args) = Ok start)
    (Hwhere : Dynamo.where_ args = Some w)
    (Hfiltering : Selection.containsFields w <> []) :
  exists params,
    Dynamo2.scanParams options args = Ok params
    /\ Dynamo.FilterExpression params
       = Some (String.concat " AND "
                 (map Selection.containsFragment (Selection.containsFields w)))
    /\ (Dynamo.ExpressionAttributeNames params = None
        <-> Selection.unselected (Dynamo.select args) = true)
    /\ (Dynamo.ProjectionExpression params = None
        <-> Selection.unselected (Dynamo.select args) = true).
Proof.
  assert (Hguard : match Dynamo.take args with
                   | Some t => number_truthy t && negb (positive_integer t)
                   | None => false
                   end = false).
  { unfold Placeholders.takePasses in Htake.
    destruct (Dynamo.take args); [now apply negb_true_iff|reflexivity]. }
  unfold Dynamo2.scanParams. rewrite Hguard, Hcursor, Hwhere. cbn [rbind].
  eexists. split; [reflexivity|].
  cbn [Dynamo.FilterExpression Dynamo.ExpressionAttributeNames
       Dynamo.ProjectionExpression].
  pose proof (SelectionFacts.names_empty (Dynamo.select args)) as Hnames.
  split; [|split].
  - rewrite SelectionFacts.parseWhereClause_fragments.
    destruct (Selection.containsFields w); [contradiction|reflexivity].
  - destruct (Dynamo2.buildExpressionAttributeNames (Dynamo.select args)) as [|n names].
    + split; [intros _; now apply Hnames|reflexivity].
    + cbn [keys map length Nat.ltb Nat.leb]. split; [discriminate|].
      intros H. apply Hnames in H. discriminate.
  - destruct (Dynamo2.buildExpressionAttributeNames (Dynamo.select args)) as [|n names].
    + split; [intros _; now apply Hnames|reflexivity].
    + cbn [keys map length Nat.ltb Nat.leb]. split; [discriminate|].
      intros H. apply Hnames in H. discriminate.
Qed.

Lemma X16_selection_revision_drops_filter_names_witness :
  exists params,
    Dynamo2.scanParams users
      (whereOnly [("firstName", [(op_contains, VStr "Sam")]); ("age", [(op_gt, VNum 3)])])
    = Ok params
    /\ Dynamo.FilterExpression params = Some "contains(#firstName, :firstNameVal)"
    /\ Dynamo.ExpressionAttributeNames params = None.
Proof.
  destruct (X16_selection_revision_drops_filter_names
              users
              (whereOnly [("firstName", [(op_contains, VStr "Sam")]);
                          ("age", [(op_gt, VNum 3)])])
              [("firstName", [(op_contains, VStr "Sam")]); ("age", [(op_gt, VNum 3)])]
              None eq_refl eq_refl eq_refl)
    as (params & Hparams & Hfilter & Hnames & _).
  - discriminate.
  - exists params. split; [exact Hparams|]. split; [exact Hfilter|].
    apply Hnames. reflexivity.
Defined.

(** ** The key-value service: [create] *)

(** X17. [create] of the key-value service, on a non-empty payload whose
    values the attribute encoding accepts and a store that accepts the
    item: one put command carries the returned item;
    every payload field other than the two stamps keeps the payload's value
    in it, the key fields included; and with the automatic stamps on, the two
    stamps are the next two readings of the clock whatever the payload
    says. *)
Theorem X17_key_value_create_keeps_payload
    (options : Dynamo.ModelOptions) (data : obj) (w : Dynamo.World)
    (Hdata : data <> [])
    (Hnd : NoDup (keys data))
    (Haccept : forall c, Dynamo.service w c <> Dynamo.Rejected)
    (Hvalues : Marshalling.accepted data = true) :
  exists item w',
    Dynamo.create options data w = (Ok item, w')
    /\ Dynamo.sent w'
       = (Dynamo.sent w ++ [Dynamo.PutItemCommand (Dynamo.tableName options) item])%list
    /\ (forall k, In k (keys data) -> k <> "createdAt" -> k <> "updatedAt" ->
                  obj_get k item = obj_get k data)
    /\ (Dynamo.auto_timestamp (Dynamo.this_fields options) = true ->
        prop "createdAt" item = VStr (Dynamo.clock w (Dynamo.reads w))
        /\ prop "updatedAt" item = VStr (Dynamo.clock w (S (Dynamo.reads w)))).
Proof.
  destruct (CreationFacts.create_returns options data w Hdata Hvalues Haccept)
    as (w' & Hcreate & _ & Hsent).
  exists (Creation.createdItem options data w), w'.
  repeat split; try assumption.
  - intros k Hin Hc Hu. unfold Creation.createdItem.
    rewrite obj_get_spread_absent.
    + now apply obj_get_spread_present.
    + intros Hstamp. destruct (CreationFacts.stamps_keys _ _ _ Hstamp); contradiction.
  - unfold prop, Creation.createdItem.
    rewrite obj_get_spread_present.
    + unfold Creation.stamps. rewrite H. reflexivity.
    + apply CreationFacts.stamps_nodup.
    + unfold Creation.stamps. rewrite H. simpl. auto.
  - unfold prop, Creation.createdItem.
    rewrite obj_get_spread_present.
    + unfold Creation.stamps. rewrite H. reflexivity.
    + apply CreationFacts.stamps_nodup.
    + unfold Creation.stamps. rewrite H. simpl. auto.
Qed.

Lemma X17_key_value_create_keeps_payload_witness :
  exists item w',
    Dynamo.create users [("id", VStr "u1"); ("createdAt", VStr "yesterday")] accepting
    = (Ok item, w')
    /\ Dynamo.sent w' = [Dynamo.PutItemCommand "Users" item]
    /\ obj_get "id" item = Some (VStr "u1")
    /\ prop "createdAt" item = VStr "2024-01-01T00:00:00.000Z".
Proof.
  destruct (X17_key_value_create_keeps_payload
              users [("id", VStr "u1"); ("createdAt", VStr "yesterday")] accepting)
    as (item & w' & Hcreate & Hsent & Hkept & Hstamps).
  - discriminate.
  - repeat constructor; simpl; intuition discriminate.
  - intros c. simpl. discriminate.
  - reflexivity.
  - exists item, w'. repeat split.
    + exact Hcreate.
    + exact Hsent.
    + apply (Hkept "id"); simpl; auto; discriminate.
    + exact (proj1 (Hstamps eq_refl)).
Defined.

(** X18. [create] never consults the automatic id setting: two models that
    agree on the table, the keys and the automatic stamps create the same
    item and leave the same world, whatever their [fields.id] says. *)
Theorem X18_create_ignores_id_setting
    (options options' : Dynamo.ModelOptions) (data : obj) (w : Dynamo.World)
    (Htable : Dynamo.tableName options = Dynamo.tableName options')
    (Hpk : Dynamo.partitionKey options = Dynamo.partitionKey options')
    (Hsk : Dynamo.this_sortKey options = Dynamo.this_sortKey options')
    (Hstamps : Dynamo.auto_timestamp (Dynamo.this_fields options)
               = Dynamo.auto_timestamp (Dynamo.this_fields options')) :
  Dynamo.create options data w = Dynamo.create options' data w.
Proof.
  unfold Dynamo.create. now rewrite Htable, Hpk, Hsk, Hstamps.
Qed.

Lemma X18_create_ignores_id_setting_witness :
  Dynamo.auto_id (Dynamo.this_fields usersWithoutIds) = false
  /\ Dynamo.create users [("firstName", VStr "Bob")] accepting
     = Dynamo.create usersWithoutIds [("firstName", VStr "Bob")] accepting.
Proof.
  split; [reflexivity|].
  apply (X18_create_ignores_id_setting users usersWithoutIds); reflexivity.
Defined.

(** X19. With the partition key named [id] and no sort key, the id that
    [create] generates for a payload without one (its values being ones
    that the attribute encoding accepts) passes the identifier rule
    of [findOne]: looking it up sends one read of the key made of that
    id. *)
Theorem X19_generated_id_can_be_looked_up
    (options : Dynamo.ModelOptions) (data : obj) (w : Dynamo.World)
    (t : DynamoItems.World)
    (Hdata : data <> [])
    (Hnd : NoDup (keys data))
    (Hpk : Dynamo.partitionKey options = "id")
    (Hsk : Dynamo.this_sortKey options = None)
    (Hnone : obj_get "id" data = None)
    (Haccept : forall c, Dynamo.service w c <> Dynamo.Rejected)
    (Hvalues : Marshalling.accepted data = true) :
  exists item w' id,
    Dynamo.create options data w = (Ok item, w')
    /\ prop "id" item = VStr id
    /\ snd (DynamoItems.findOne options id t)
       = DynamoItems.record
           (DynamoItems.GetItemCommand
              {| DynamoItems.GetTableName := Dynamo.tableName options;
                 DynamoItems.GetKey := [("id", VStr id)];
                 DynamoItems.GetProjectionExpression := None;
                 DynamoItems.GetExpressionAttributeNames := None |}) t.
Proof.
  assert (Hsort : Dynamo.this_sortKey options <> Some "id") by (rewrite Hsk; discriminate).
  destruct (CreationFacts.create_id options data w Hdata Hnd Hpk Hsort Haccept Hvalues)
    as (item & w' & Hcreate & Hgenerated & _).
  destruct (Hgenerated Hnone) as [Hid Hvalid].
  exists item, w', (uuid (Dynamo.entropy w (Dynamo.draws w))).
  repeat split; try assumption.
  unfold DynamoItems.findOne, DynamoItems.keyOf, DynamoItems.getItemOutcome.
  rewrite Hvalid, Hsk, Hpk. cbn [negb spread fold_left].
  destruct (DynamoItems.getItem t _) as [[found|]|]; reflexivity.
Qed.

Lemma X19_generated_id_can_be_looked_up_witness :
  exists item w' id,
    Dynamo.create users [("firstName", VStr "Bob")] accepting = (Ok item, w')
    /\ prop "id" item = VStr id
    /\ snd (DynamoItems.findOne users id emptyTable)
       = DynamoItems.record
           (DynamoItems.GetItemCommand
              {| DynamoItems.GetTableName := "Users";
                 DynamoItems.GetKey := [("id", VStr id)];
                 DynamoItems.GetProjectionExpression := None;
                 DynamoItems.GetExpressionAttributeNames := None |}) emptyTable.
Proof.
  apply (X19_generated_id_can_be_looked_up users [("firstName", VStr "Bob")]
           accepting emptyTable).
  - discriminate.
  - repeat constructor; simpl; intuition.
  - reflexivity.
  - reflexivity.
  - reflexivity.
  - intros c. simpl. discriminate.
  - reflexivity.
Defined.

(** X23. With a sort key configured, the point operations look an item up
    with one id under both key fields, while [create] draws the two key
    fields of a payload without id (and with values that the attribute
    encoding accepts) separately: when the two draws differ,
    no id makes the key of the created item. *)
Theorem X23_separately_drawn_keys_match_no_id
    (options : Dynamo.ModelOptions) (sk : string) (data : obj) (w : Dynamo.World)
    (Hsort : Dynamo.this_sortKey options = Some sk)
    (Hdistinct : Dynamo.partitionKey options <> sk)
    (Hdata : data <> [])
    (Hid : truthy (prop "id" data) = false)
    (Hpk : ~ In (Dynamo.partitionKey options) (keys data))
    (Hsk : ~ In sk (keys data))
    (Hpk_stamp : ~ In (Dynamo.partitionKey options) ["createdAt"; "updatedAt"])
    (Hsk_stamp : ~ In sk ["createdAt"; "updatedAt"])
    (Haccept : forall c, Dynamo.service w c <> Dynamo.Rejected)
    (Hdraws : uuid (Dynamo.entropy w (Dynamo.draws w))
              <> uuid (Dynamo.entropy w (S (Dynamo.draws w))))
    (Hvalues : Marshalling.accepted data = true) :
  exists item w',
    Dynamo.create options data w = (Ok item, w')
    /\ forall id,
         ~ (prop (Dynamo.partitionKey options) (DynamoItems.keyOf options id)
            = prop (Dynamo.partitionKey options) item
            /\ prop sk (DynamoItems.keyOf options id) = prop sk item).
Proof.
  destruct (CreationFacts.create_returns options data w Hdata Hvalues Haccept)
    as (w' & Hc & _).
  exists (Creation.createdItem options data w), w'. split; [exact Hc|].
  assert (Hstamp : forall k, ~ In k ["createdAt"; "updatedAt"] ->
                   ~ In k (keys (Creation.stamps options w))).
  { intros k Hk Hin. apply Hk.
    destruct (CreationFacts.stamps_keys _ _ _ Hin) as [->| ->]; simpl; auto. }
  intros id. unfold prop.
  rewrite !CreationFacts.createdItem_key by auto.
  unfold Creation.sortPart, Creation.keyValue, DynamoItems.keyOf.
  rewrite Hsort, Hid. unfold spread. cbn [fold_left fst snd obj_set].
  apply String.eqb_neq in Hdistinct. rewrite Hdistinct.
  cbn [obj_get]. rewrite Hdistinct, !String.eqb_refl.
  intros [Hp Hs]. apply Hdraws. cbn [Nat.add] in Hp, Hs. congruence.
Qed.

Lemma X23_separately_drawn_keys_match_no_id_witness :
  exists item w',
    Dynamo.create posts [("title", VStr "Hello")] accepting = (Ok item, w')
    /\ forall id,
         ~ (prop "postId" (DynamoItems.keyOf posts id) = prop "postId" item
            /\ prop "authorId" (DynamoItems.keyOf posts id) = prop "authorId" item).
Proof.
  apply (X23_separately_drawn_keys_match_no_id posts "authorId" [("title", VStr "Hello")]
           accepting eq_refl).
  - discriminate.
  - discriminate.
  - reflexivity.
  - simpl. intuition discriminate.
  - simpl. intuition discriminate.
  - simpl. intuition discriminate.
  - simpl. intuition discriminate.
  - intros c. simpl. discriminate.
  - vm_compute. discriminate.
  - reflexivity.
Defined.

(** ** The key-value service: the point operations *)

(** X20. The four point operations of the key-value service check the id
    before anything else: with an empty id, or one that holds a white space
    character, each fails on the id and sends no command. *)
Theorem X20_key_value_malformed_id_is_rejected_first
    (options : Dynamo.ModelOptions) (id : string) (data : obj) (select : option obj)
    (t : DynamoItems.World)
    (Hid : Query.malformedId id) :
  DynamoItems.findOne options id t = (Throw InvalidId, t)
  /\ DynamoItems.findOneSelect options id select t = (Throw InvalidId, t)
  /\ DynamoItems.update options id data t = (Throw InvalidId, t)
  /\ DynamoItems.delete options id t = (Some DeleteInvalidId, t).
Proof.
  apply IdFacts.IdSchema_false_iff in Hid.
  unfold DynamoItems.findOne, DynamoItems.findOneSelect, DynamoItems.update,
    DynamoItems.delete.
  rewrite Hid. repeat split.
Qed.

Lemma X20_key_value_malformed_id_is_rejected_first_witness :
  DynamoItems.findOne users "user 1" emptyTable = (Throw InvalidId, emptyTable)
  /\ DynamoItems.findOneSelect users "user 1" None emptyTable = (Throw InvalidId, emptyTable)
  /\ DynamoItems.update users "user 1" [("age", VNum 31)] emptyTable
     = (Throw InvalidId, emptyTable)
  /\ DynamoItems.delete users "user 1" emptyTable = (Some DeleteInvalidId, emptyTable).
Proof.
  apply (X20_key_value_malformed_id_is_rejected_first
           users "user 1" [("age", VNum 31)] None emptyTable).
  right. exists " "%char. split; [simpl; tauto|reflexivity].
Defined.

Module ItemFacts.
Import Dynamo DynamoItems Placeholders.

Lemma fold_spread_singleton {A : Type} (l : dict A) : forall acc,
  fold_left (fun acc entry => spread acc [entry]) l acc = spread acc l.
Proof.
  induction l as [|[k v] l IH]; intros acc; [reflexivity|].
  cbn [fold_left]. rewrite IH. reflexivity.
Qed.

Lemma numbered_keys (data : obj) : forall i,
  keys (mapi (fun (kv : string * value) index => (valueName index, snd kv)) i data)
  = map valueName (seq i (length data)).
Proof.
  induction data as [|kv data IH]; intros i; [reflexivity|].
  cbn [mapi keys map length seq fst]. f_equal. apply IH.
Qed.

Lemma obj_get_numbered (data : obj) : forall i n k v,
  nth_error data n = Some (k, v) ->
  obj_get (valueName (i + n))
          (mapi (fun (kv : string * value) index => (valueName index, snd kv)) i data)
  = Some v.
Proof.
  induction data as [|[k' v'] data IH]; intros i n k v H.
  - destruct n; discriminate.
  - destruct n as [|n]; cbn [mapi obj_get nth_error snd] in *.
    + inversion H; subst. now rewrite Nat.add_0_r, String.eqb_refl.
    + destruct (valueName i =? valueName (i + S n)) eqn:E.
      * apply String.eqb_eq in E. apply PlaceholderFacts.valueName_inj in E. lia.
      * replace (i + S n)%nat with (S i + n)%nat by lia. eapply IH; eauto.
Qed.

Lemma obj_get_binding (l : list string) (k : string) :
  In k l -> obj_get ("#" ++ k) (map (fun key => ("#" ++ key, key)) l) = Some k.
Proof.
  induction l as [|a l IH]; intros Hin; [contradiction|].
  cbn [map obj_get].
  destruct (("#" ++ a) =? ("#" ++ k)) eqn:E.
  - apply String.eqb_eq in E. apply ScanFacts.hash_inj in E. now subst.
  - destruct Hin as [->|Hin]; [now rewrite String.eqb_refl in E|auto].
Qed.

(** The names of an update bind the placeholder of every payload field to
    the field. *)
Lemma updateNamesOf_binds (stamped : bool) (data : obj) (k : string) :
  NoDup (keys data) -> In k (keys data) ->
  obj_get ("#" ++ k) (updateNamesOf stamped data) = Some k.
Proof.
  intros Hnd Hin. unfold updateNamesOf.
  rewrite SelectionFacts.fold_names_spread.
  rewrite (CodecFacts.spread_fresh (map (fun key => ("#" ++ key, key)) (keys data)) [])
    by (apply SelectionFacts.hashed_nodup, Hnd).
  cbn [app]. destruct stamped.
  - destruct (string_dec k "updatedAt") as [->|Hk].
    + rewrite obj_get_spread_present; [reflexivity| |simpl; auto].
      repeat constructor. simpl. tauto.
    + rewrite obj_get_spread_absent; [now apply obj_get_binding|].
      simpl. intros [H|[]]. inversion H. congruence.
  - now apply obj_get_binding.
Qed.

Lemma updateNamesOf_stamp (data : obj) :
  obj_get "#updatedAt" (updateNamesOf true data) = Some "updatedAt".
Proof.
  unfold updateNamesOf.
  rewrite obj_get_spread_present; [reflexivity| |simpl; auto].
  repeat constructor. simpl. tauto.
Qed.

(** The values of an update bind the [n]-th value placeholder to the value
    of the [n]-th payload field. *)
Lemma updateValuesOf_binds (data stamp : obj) (n : nat) (k : string) (v : value) :
  (forall m, ~ In (valueName m) (keys stamp)) ->
  nth_error data n = Some (k, v) ->
  obj_get (valueName n) (updateValuesOf data stamp) = Some v.
Proof.
  intros Hstamp Hnth. unfold updateValuesOf.
  rewrite fold_spread_singleton.
  rewrite obj_get_spread_absent by apply Hstamp.
  change (fun (kv : string * value) index => (":val" ++ decimal index, snd kv))
    with (fun (kv : string * value) index => (valueName index, snd kv)).
  rewrite (CodecFacts.spread_fresh
             (mapi (fun (kv : string * value) index => (valueName index, snd kv)) 0 data) []).
  - cbn [app]. now apply (obj_get_numbered data 0 n k v).
  - cbn [keys map app]. fold (@keys value). rewrite numbered_keys.
    apply PlaceholderFacts.valueNames_nodup.
Qed.

Lemma accepted_numbered (data : obj) : forall i,
  Marshalling.accepted data = true ->
  Marshalling.accepted
    (mapi (fun (kv : string * value) index => (":val" ++ decimal index, snd kv)) i data)
  = true.
Proof.
  induction data as [|kv data IH]; intros i Hdata; [reflexivity|].
  cbn [Marshalling.accepted forallb mapi snd] in *.
  apply andb_true_iff in Hdata. destruct Hdata as [Hv Hdata].
  rewrite Hv. now apply IH.
Qed.

(** [marshall] accepts the values of an update whose payload and stamp it
    accepts. *)
Lemma accepted_updateValuesOf (data stamp : obj) :
  Marshalling.accepted data = true -> Marshalling.accepted stamp = true ->
  Marshalling.accepted (updateValuesOf data stamp) = true.
Proof.
  intros Hdata Hstamp. unfold updateValuesOf. rewrite fold_spread_singleton.
  apply CreationFacts.accepted_spread; [|exact Hstamp].
  apply CreationFacts.accepted_spread; [reflexivity|].
  now apply accepted_numbered.
Qed.

End ItemFacts.

(** X21. [update] of the key-value service, with a well-formed id and a
    payload whose values the attribute encoding accepts, sends one
    update command for the key made of the id, in which the name placeholder
    of every payload field is bound to the field and the [n]-th value
    placeholder to the value of the [n]-th field; with the automatic stamps
    on, the placeholders of [updatedAt] are bound to the field and to the
    next reading of the clock. *)
Theorem X21_update_placeholders_are_bound
    (options : Dynamo.ModelOptions) (id : string) (data : obj) (t : DynamoItems.World)
    (Hid : IdSchema id = true)
    (Hnd : NoDup (keys data))
    (Hvalues : Marshalling.accepted data = true) :
  exists input,
    DynamoItems.sent (snd (DynamoItems.update options id data t))
    = (DynamoItems.sent t ++ [DynamoItems.UpdateItemCommand input])%list
    /\ DynamoItems.UpdateKey input = DynamoItems.keyOf options id
    /\ (forall n k v,
          nth_error data n = Some (k, v) ->
          obj_get ("#" ++ k) (DynamoItems.UpdateExpressionAttributeNames input) = Some k
          /\ obj_get (Placeholders.valueName n)
                     (DynamoItems.UpdateExpressionAttributeValues input) = Some v)
    /\ (Dynamo.auto_timestamp (Dynamo.this_fields options) = true ->
        obj_get "#updatedAt" (DynamoItems.UpdateExpressionAttributeNames input)
        = Some "updatedAt"
        /\ obj_get ":updatedAt" (DynamoItems.UpdateExpressionAttributeValues input)
           = Some (VStr (DynamoItems.clock t (DynamoItems.reads t)))).
Proof.
  assert (Hkey : forall n k v, nth_error data n = Some (k, v) -> In k (keys data)).
  { intros n k v Hnth. apply nth_error_In in Hnth.
    unfold keys. apply in_map_iff. now exists (k, v). }
  assert (Hfresh : forall stamp : obj,
            keys stamp = [] \/ keys stamp = [":updatedAt"] ->
            forall m, ~ In (Placeholders.valueName m) (keys stamp)).
  { intros stamp [-> | ->] m; simpl; [tauto|]. intros [H|[]]. discriminate. }
  assert (Hbound : forall stamped stamp,
            keys stamp = [] \/ keys stamp = [":updatedAt"] ->
            forall n k v,
              nth_error data n = Some (k, v) ->
              obj_get ("#" ++ k) (DynamoItems.updateNamesOf stamped data) = Some k
              /\ obj_get (Placeholders.valueName n) (DynamoItems.updateValuesOf data stamp)
                 = Some v).
  { intros stamped stamp Hstamp n k v Hnth. split.
    - apply ItemFacts.updateNamesOf_binds; eauto.
    - apply (ItemFacts.updateValuesOf_binds _ _ n k v); auto. }
  pose proof (ItemFacts.accepted_updateValuesOf data) as Hencoded.
  unfold DynamoItems.update. rewrite Hid. cbn [negb].
  destruct (Dynamo.auto_timestamp (Dynamo.this_fields options)) eqn:Hstamped;
    unfold bind, ret, DynamoItems.now;
    cbn -[DynamoItems.updateExpressionOf DynamoItems.updateNamesOf
          DynamoItems.updateValuesOf DynamoItems.keyOf Marshalling.accepted];
    rewrite Hencoded by (assumption || reflexivity);
    cbn -[DynamoItems.updateExpressionOf DynamoItems.updateNamesOf
          DynamoItems.updateValuesOf DynamoItems.keyOf Marshalling.accepted].
  - match goal with
    | |- context [DynamoItems.updateItem t ?i] =>
        exists i; destruct (DynamoItems.updateItem t i)
    end;
      cbn -[DynamoItems.updateExpressionOf DynamoItems.updateNamesOf
            DynamoItems.updateValuesOf DynamoItems.keyOf];
      (split; [reflexivity|]); (split; [reflexivity|]);
      (split; [apply Hbound; right; reflexivity|]);
      intros _; (split; [apply ItemFacts.updateNamesOf_stamp|]);
      unfold DynamoItems.updateValuesOf;
      (rewrite obj_get_spread_present; [reflexivity| |simpl; auto]);
      repeat constructor; simpl; tauto.
  - match goal with
    | |- context [DynamoItems.updateItem t ?i] =>
        exists i; destruct (DynamoItems.updateItem t i)
    end;
      cbn -[DynamoItems.updateExpressionOf DynamoItems.updateNamesOf
            DynamoItems.updateValuesOf DynamoItems.keyOf];
      (split; [reflexivity|]); (split; [reflexivity|]);
      (split; [apply Hbound; left; reflexivity|]);
      discriminate.
Qed.

Lemma X21_update_placeholders_are_bound_witness :
  exists input,
    DynamoItems.sent
      (snd (DynamoItems.update users "u1" [("firstName", VStr "Bob"); ("age", VNum 31)]
              emptyTable))
    = [DynamoItems.UpdateItemCommand input]
    /\ DynamoItems.UpdateKey input = [("id", VStr "u1")]
    /\ obj_get "#age" (DynamoItems.UpdateExpressionAttributeNames input) = Some "age"
    /\ obj_get ":val1" (DynamoItems.UpdateExpressionAttributeValues input)
       = Some (VNum 31)
    /\ obj_get ":updatedAt" (DynamoItems.UpdateExpressionAttributeValues input)
       = Some (VStr "2024-01-01T00:00:00.000Z").
Proof.
  destruct (X21_update_placeholders_are_bound
              users "u1" [("firstName", VStr "Bob"); ("age", VNum 31)] emptyTable eq_refl)
    as (input & Hsent & Hkey & Hbound & Hstamp).
  - repeat constructor; simpl; intuition discriminate.
  - reflexivity.
  - exists input. split; [exact Hsent|]. split; [exact Hkey|].
    destruct (Hbound 1%nat "age" (VNum 31) eq_refl) as [Hname Hvalue].
    split; [exact Hname|]. split; [exact Hvalue|].
    exact (proj2 (Hstamp eq_refl)).
Defined.

(** X22. Unlike [create], which refuses an empty payload and changes
    nothing, [update] of the key-value service sends its command for an
    empty payload too: the update expression is then SET followed by no
    assignment of a payload field, and with the automatic stamps on SET
    followed by a comma and the assignment of [updatedAt]. *)
Theorem X22_update_sends_empty_payload
    (options : Dynamo.ModelOptions) (id : string) (t : DynamoItems.World)
    (w : Dynamo.World)
    (Hid : IdSchema id = true) :
  Dynamo.create options [] w = (Throw PayloadEmpty, w)
  /\ exists input,
       DynamoItems.sent (snd (DynamoItems.update options id [] t))
       = (DynamoItems.sent t ++ [DynamoItems.UpdateItemCommand input])%list
       /\ DynamoItems.UpdateExpression input
          = if Dynamo.auto_timestamp (Dynamo.this_fields options)
            then "SET , #updatedAt = :updatedAt" else "SET ".
Proof.
  split; [reflexivity|].
  unfold DynamoItems.update. rewrite Hid. cbn [negb].
  destruct (Dynamo.auto_timestamp (Dynamo.this_fields options));
    unfold bind, ret, DynamoItems.now; cbn -[DynamoItems.keyOf];
    match goal with
    | |- context [DynamoItems.updateItem t ?i] =>
        exists i; destruct (DynamoItems.updateItem t i)
    end; split; reflexivity.
Qed.

Lemma X22_update_sends_empty_payload_witness :
  Dynamo.create users [] accepting = (Throw PayloadEmpty, accepting)
  /\ exists input,
       DynamoItems.sent (snd (DynamoItems.update users "u1" [] emptyTable))
       = [DynamoItems.UpdateItemCommand input]
       /\ DynamoItems.UpdateExpression input = "SET , #updatedAt = :updatedAt".
Proof.
  exact (X22_update_sends_empty_payload users "u1" emptyTable accepting eq_refl).
Defined.

(** ** The revision with field selection: projections *)

Module ProjectionNames.
Import Dynamo Dynamo2 Placeholders.

Lemma keys_bindings (l : list string) :
  keys (map (fun key => ("#" ++ key, key)) l) = map (fun key => "#" ++ key) l.
Proof. unfold keys. rewrite map_map. reflexivity. Qed.

Lemma projected_nodup (select : obj) : NoDup (keys select) -> NoDup (projected select).
Proof. intros Hnd. unfold projected. now apply NoDup_filter. Qed.

(** What [scanParams] projects, given the names built from [select]. *)
Lemma scanParams_projection options args params :
  scanParams options args = Ok params ->
  let names := buildExpressionAttributeNames (select args) in
  ProjectionExpression params
  = (if (0 <? length (keys names))%nat then Some (String.concat ", " (keys names))
     else None)
  /\ ExpressionAttributeNames params
     = (if (0 <? length (keys names))%nat
        then Some (spread (Dynamo2.expressionAttributeNames (parseWhereClause (where_ args)))
                          names)
        else None).
Proof.
  unfold scanParams.
  destruct (match take args with
            | Some t => number_truthy t && negb (positive_integer t)
            | None => false
            end); [discriminate|].
  destruct (decodeCursor (nextCursor args)) as [startKey|failure]; [|discriminate].
  cbn [rbind]. intros H. inversion H. split; reflexivity.
Qed.

End ProjectionNames.

(** X24. In the revision with field selection, when [select] has a truthy
    field, [findMany] and [findOne] ask for the same projection: the
    placeholders of the truthy fields in key order, joined by commas; and
    both bind the placeholder of each such field to the field. *)
Theorem X24_projection_placeholders_are_bound
    (options : Dynamo.ModelOptions) (args : Dynamo.FindManyArgs)
    (params : Dynamo.ScanCommandInput) (sel : obj) (id : string) (t : DynamoItems.World)
    (Hselect : Dynamo.select args = Some sel)
    (Hnd : NoDup (keys sel))
    (Hsome : Placeholders.projected sel <> [])
    (Hparams : Dynamo2.scanParams options args = Ok params)
    (Hid : IdSchema id = true) :
  let expression :=
    String.concat ", " (map Lookup.fieldName (Placeholders.projected sel)) in
  Dynamo.ProjectionExpression params = Some expression
  /\ (exists names,
        Dynamo.ExpressionAttributeNames params = Some names
        /\ forall key, In key (Placeholders.projected sel) ->
                       obj_get (Lookup.fieldName key) names = Some key)
  /\ DynamoItems.sent (snd (DynamoItems.findOneSelect options id (Some sel) t))
     = (DynamoItems.sent t
        ++ [DynamoItems.GetItemCommand
              (Lookup.getInput options id (Some expression)
                 (Some (map Lookup.binding (Placeholders.projected sel))))])%list.
Proof.
  intros expression.
  pose proof (SelectionFacts.buildExpressionAttributeNames_eq sel Hnd) as Hnames.
  destruct (ProjectionNames.scanParams_projection options args params Hparams)
    as [Hprojection Hbound].
  rewrite Hselect, Hnames in Hprojection, Hbound.
  rewrite ProjectionNames.keys_bindings in Hprojection, Hbound.
  assert (Hlen : (0 <? length (map (fun key => "#" ++ key) (Placeholders.projected sel)))%nat
                 = true).
  { apply Nat.ltb_lt. rewrite length_map.
    destruct (Placeholders.projected sel); [contradiction|simpl; lia]. }
  rewrite Hlen in Hprojection, Hbound.
  split; [exact Hprojection|]. split.
  - eexists. split; [exact Hbound|]. intros key Hkey. unfold Lookup.fieldName.
    rewrite obj_get_spread_present.
    + now apply ItemFacts.obj_get_binding.
    + apply SelectionFacts.hashed_nodup. now apply ProjectionNames.projected_nodup.
    + rewrite ProjectionNames.keys_bindings. now apply in_map.
  - unfold DynamoItems.findOneSelect, DynamoItems.getItemOutcome.
    rewrite Hid, Hnames. cbn [negb].
    assert (Hkeys : (0 <? length (keys sel))%nat = true).
    { apply Nat.ltb_lt. unfold Placeholders.projected in Hsome.
      destruct (keys sel); [contradiction|simpl; lia]. }
    rewrite Hkeys.
    destruct (DynamoItems.getItem t _) as [[found|]|]; reflexivity.
Qed.

Lemma X24_projection_placeholders_are_bound_witness :
  exists params,
    Dynamo2.scanParams users
      (selectOnly [("firstName", VBool true); ("age", VBool false); ("email", VBool true)])
    = Ok params
    /\ Dynamo.ProjectionExpression params = Some "#firstName, #email".
Proof.
  eexists. split; [reflexivity|].
  refine (proj1 (X24_projection_placeholders_are_bound
                   users
                   (selectOnly [("firstName", VBool true); ("age", VBool false);
                                ("email", VBool true)])
                   _
                   [("firstName", VBool true); ("age", VBool false); ("email", VBool true)]
                   "u1" emptyTable eq_refl _ _ eq_refl eq_refl)).
  - repeat constructor; simpl; intuition discriminate.
  - discriminate.
Defined.

(** X25. In the revision with field selection, a [select] whose fields are
    all falsy is treated differently by the two reads: [findMany] sends no
    projection, [findOne] sends an empty one. *)
Theorem X25_falsy_selection_projects_differently
    (options : Dynamo.ModelOptions) (args : Dynamo.FindManyArgs)
    (params : Dynamo.ScanCommandInput) (sel : obj) (id : string) (t : DynamoItems.World)
    (Hselect : Dynamo.select args = Some sel)
    (Hfields : sel <> [])
    (Hnone : Placeholders.projected sel = [])
    (Hparams : Dynamo2.scanParams options args = Ok params)
    (Hid : IdSchema id = true) :
  Dynamo.ProjectionExpression params = None
  /\ Dynamo.ExpressionAttributeNames params = None
  /\ DynamoItems.sent (snd (DynamoItems.findOneSelect options id (Some sel) t))
     = (DynamoItems.sent t
        ++ [DynamoItems.GetItemCommand
              (Lookup.getInput options id (Some EmptyString) (Some []))])%list.
Proof.
  assert (Hnames : Dynamo2.buildExpressionAttributeNames (Some sel) = []).
  { unfold Dynamo2.buildExpressionAttributeNames.
    destruct (objectIsEmpty sel); [reflexivity|].
    unfold Placeholders.projected in Hnone. now rewrite Hnone. }
  destruct (ProjectionNames.scanParams_projection options args params Hparams)
    as [Hprojection Hbound].
  rewrite Hselect, Hnames in Hprojection, Hbound.
  split; [exact Hprojection|]. split; [exact Hbound|].
  unfold DynamoItems.findOneSelect, DynamoItems.getItemOutcome.
  rewrite Hid, Hnames. cbn [negb].
  unfold Placeholders.projected in Hnone. rewrite Hnone.
  assert (Hkeys : (0 <? length (keys sel))%nat = true).
  { destruct sel; [contradiction|reflexivity]. }
  rewrite Hkeys.
  destruct (DynamoItems.getItem t _) as [[found|]|]; reflexivity.
Qed.

Lemma X25_falsy_selection_projects_differently_witness :
  exists params,
    Dynamo2.scanParams users (selectOnly [("age", VBool false)]) = Ok params
    /\ Dynamo.ProjectionExpression params = None
    /\ DynamoItems.sent
         (snd (DynamoItems.findOneSelect users "u1" (Some [("age", VBool false)])
                 emptyTable))
       = [DynamoItems.GetItemCommand
            (Lookup.getInput users "u1" (Some EmptyString) (Some []))].
Proof.
  eexists. split; [reflexivity|].
  assert (Hfields : [("age", VBool false)] <> @nil (string * value)) by discriminate.
  destruct (X25_falsy_selection_projects_differently
              users (selectOnly [("age", VBool false)]) _ [("age", VBool false)]
              "u1" emptyTable eq_refl Hfields eq_refl eq_refl eq_refl)
    as (Hprojection & _ & Hsent).
  split; [exact Hprojection|exact Hsent].
Defined.
